(** * Screeny: a shallow embedding of [screeny.py]

    The script drives a headless browser through Playwright.  Everything the
    script itself decides is embedded here as executable Rocq functions: the
    string handling of the URL loader and of the file names, the
    request-interception handler, the try/except of [capture_screenshot], the
    result dictionary of [batch_capture], the argparse wiring and the exit
    codes of [main].  What the script only calls (the browser engine, the file
    system, the clock, [csv.reader], [urlparse]) is an interface, [Runtime],
    over an abstract world; every theorem holds for every implementation of it.

    Conventions.
    - A Python [str] is a [string], one [ascii] per character; characters
      above U+00FF are not represented.
    - An exception is an instance of Python's [Exception]; interrupts, which
      [except Exception] does not catch, are not represented.
    - [urlparse] and [os.makedirs], which the script calls outside any [try]
      block, may raise: the exception then leaves [batch_capture] and [main],
      and the process ends with a traceback and exit code 1.
    - The browser launch and shutdown, [asyncio.sleep] and [datetime.now]
      are taken to return. *)

From Stdlib Require Import String Ascii List ZArith Lia Bool Arith.
From Stdlib Require Import DecimalString.
Import ListNotations.
Open Scope string_scope.

(** ** Python string methods *)

Module PyStr.

(** [s.startswith(p)] *)
Fixpoint startswith (s p : string) {struct p} : bool :=
  match p, s with
  | "", _ => true
  | String _ _, "" => false
  | String a p', String b s' => Ascii.eqb a b && startswith s' p'
  end.

(** [s.endswith(suf)]: some tail of [s] is [suf]. *)
Fixpoint endswith (s suf : string) : bool :=
  String.eqb s suf
  || match s with
     | "" => false
     | String _ s' => endswith s' suf
     end.

(** [needle in hay] *)
Fixpoint contains (needle hay : string) : bool :=
  startswith hay needle
  || match hay with
     | "" => false
     | String _ hay' => contains needle hay'
     end.

(** [str.isspace] on one character: TAB..CR, FS..US, space, NEL, NBSP. *)
Definition is_space (c : ascii) : bool :=
  let n := nat_of_ascii c in
  (((9 <=? n) && (n <=? 13)) || ((28 <=? n) && (n <=? 32))
   || (n =? 133) || (n =? 160))%nat.

Fixpoint lstrip (s : string) : string :=
  match s with
  | "" => ""
  | String c s' => if is_space c then lstrip s' else s
  end.

Fixpoint rstrip (s : string) : string :=
  match s with
  | "" => ""
  | String c s' =>
      let r := rstrip s' in
      if is_space c && String.eqb r "" then "" else String c r
  end.

(** [s.strip()] *)
Definition strip (s : string) : string := rstrip (lstrip s).

(** [s.replace(old, new)] for a non-empty [old]: left to right, matches do
    not overlap.  [skip] counts the characters of a match still to drop. *)
Fixpoint replace_from (old new : string) (skip : nat) (s : string) : string :=
  match s with
  | "" => ""
  | String c s' =>
      match skip with
      | S k => replace_from old new k s'
      | O =>
          if startswith s old
          then new ++ replace_from old new (String.length old - 1) s'
          else String c (replace_from old new 0 s')
      end
  end.

(** With an empty [old] Python puts [new] before every character and at
    the end. *)
Fixpoint intersperse (new s : string) : string :=
  match s with
  | "" => new
  | String c s' => new ++ String c (intersperse new s')
  end.

Definition replace (s old new : string) : string :=
  match old with
  | "" => intersperse new s
  | _ => replace_from old new 0 s
  end.

(** ASCII and Latin-1 part of [str.lower]. *)
Definition lower_char (c : ascii) : ascii :=
  let n := nat_of_ascii c in
  if (((65 <=? n) && (n <=? 90))
      || ((192 <=? n) && (n <=? 222) && negb (n =? 215)))%nat
  then ascii_of_nat (n + 32) else c.

Fixpoint lower (s : string) : string :=
  match s with
  | "" => ""
  | String c s' => String (lower_char c) (lower s')
  end.

(** Python truthiness of a [str]. *)
Definition nonempty (s : string) : bool := negb (String.eqb s "").

(** [str(n)] for a non-negative [int]. *)
Definition of_nat (n : nat) : string := NilZero.string_of_uint (Nat.to_uint n).

(** [s.split(sep)] for a one-character separator. *)
Fixpoint split_on (sep : ascii) (cur s : string) : list string :=
  match s with
  | "" => [cur]
  | String c s' =>
      if Ascii.eqb c sep then cur :: split_on sep "" s'
      else split_on sep (cur ++ String c "") s'
  end.

(** [s.rfind(c)] as the text from the last [c] on, if [c] occurs, together
    with the number of characters before it. *)
Fixpoint rfind_from (c : ascii) (s : string) : option (nat * string) :=
  match s with
  | "" => None
  | String a s' =>
      match rfind_from c s' with
      | Some (i, t) => Some (S i, t)
      | None => if Ascii.eqb a c then Some (0, s) else None
      end
  end.

End PyStr.

(** ** [pathlib] and [os.path] *)

(** Final component of a POSIX path, as [PurePath.name]: empty and [.]
    components are dropped. *)
Definition path_name (p : string) : string :=
  last (filter (fun c => PyStr.nonempty c && negb (String.eqb c "."))
               (PyStr.split_on "/" "" p)) "".

(** [PurePath.suffix]: [name[i:]] for [i = name.rfind('.')] when
    [0 < i < len(name) - 1], and the empty string otherwise. *)
Definition suffix (p : string) : string :=
  let name := path_name p in
  match PyStr.rfind_from "." name with
  | Some (i, ext) =>
      if ((0 <? i) && (i <? String.length name - 1))%nat then ext else ""
  | None => ""
  end.

(** [sep.join(parts)] *)
Fixpoint join_with (sep : string) (parts : list string) : string :=
  match parts with
  | [] => ""
  | [part] => part
  | part :: rest => part ++ sep ++ join_with sep rest
  end.

(** The root of a POSIX path: [//] for exactly two leading slashes, [/]
    for any other number of them. *)
Definition path_root (p : string) : string :=
  if PyStr.startswith p "//" && negb (PyStr.startswith p "///") then "//"
  else if PyStr.startswith p "/" then "/"
  else "".

(** [str(Path(p))]: the root, then the components other than the empty
    ones and [.], joined by [/]; [.] when nothing is left. *)
Definition path_str (p : string) : string :=
  let parts := filter (fun c => PyStr.nonempty c && negb (String.eqb c "."))
                      (PyStr.split_on "/" "" p) in
  let text := path_root p ++ join_with "/" parts in
  if PyStr.nonempty text then text else ".".

(** [os.path.join(a, b)] of [posixpath]. *)
Definition path_join (a b : string) : string :=
  if PyStr.startswith b "/" then b
  else if negb (PyStr.nonempty a) || PyStr.endswith a "/" then a ++ b
  else a ++ "/" ++ b.

(** ** Values shared with the runtime *)

Record exn := Exception { exn_class : string; exn_text : string }.

(** Outcome of a call that may raise. *)
Definition result (A : Type) : Type := (exn + A)%type.

(** A float is kept as the text it was read from; the script only hands it
    to the browser. *)
Definition float_text := string.

Record datetime := {
  year : nat; month : nat; day : nat; hour : nat; minute : nat; second : nat
}.

Fixpoint zeros (k : nat) : string :=
  match k with O => "" | S k' => String "0" (zeros k') end.

Definition zfill (width : nat) (s : string) : string :=
  zeros (width - String.length s) ++ s.

(** [strftime("%Y%m%d_%H%M%S")] *)
Definition strftime_stamp (d : datetime) : string :=
  zfill 4 (PyStr.of_nat (year d)) ++ zfill 2 (PyStr.of_nat (month d))
  ++ zfill 2 (PyStr.of_nat (day d)) ++ "_"
  ++ zfill 2 (PyStr.of_nat (hour d)) ++ zfill 2 (PyStr.of_nat (minute d))
  ++ zfill 2 (PyStr.of_nat (second d)).

Record PageOptions := {
  viewport : Z * Z;
  opt_device_scale_factor : float_text;
  opt_user_agent : option string;
  is_mobile : bool
}.

Record ScreenshotOptions := {
  opt_path : string;
  opt_full_page : bool;
  opt_type : string;
  omit_background : bool;
  opt_quality : option Z
}.

Record Request := { request_url : string; resource_type : string }.

(** What a route handler does with the request it is given. *)
Inductive RouteCall := Abort | Continue.

(** ** [ScreenshotConfig] *)

Record ScreenshotConfig := {
  viewport_width : Z;
  viewport_height : Z;
  device_scale_factor : float_text;
  full_page : bool;
  wait_timeout : Z;
  wait_for_selector : option string;
  wait_for_load_state : string;
  disable_animations : bool;
  block_ads : bool;
  output_format : string;
  output_quality : option Z;
  mobile : bool;
  user_agent : option string
}.

(** [ScreenshotConfig.__init__] *)
Definition default_config : ScreenshotConfig := {|
  viewport_width := 1920;
  viewport_height := 1080;
  device_scale_factor := "2.0";
  full_page := true;
  wait_timeout := 30000;
  wait_for_selector := None;
  wait_for_load_state := "networkidle";
  disable_animations := true;
  block_ads := true;
  output_format := "png";
  output_quality := None;
  mobile := false;
  user_agent := None
|}.

(** Truthiness of an optional [str] and of an optional [int]. *)
Definition truthy_str (o : option string) : bool :=
  match o with Some s => PyStr.nonempty s | None => false end.

Definition truthy_int (o : option Z) : bool :=
  match o with Some n => negb (n =? 0)%Z | None => false end.

(** ** The request-interception handler *)

Definition blocked_domains : list string :=
  [ "googletagmanager.com"; "google-analytics.com"; "doubleclick.net";
    "googlesyndication.com"; "facebook.com/tr"; "hotjar.com";
    "crazyegg.com"; "mouseflow.com"; "clarity.ms" ].

(** [any(domain in url for domain in blocked_domains)] *)
Definition any_blocked (url : string) : bool :=
  existsb (fun domain => PyStr.contains domain url) blocked_domains.

(** [Screeny._block_ads_handler]; the value is the sequence of calls made on
    [route]. *)
Definition _block_ads_handler (request : Request) : list RouteCall :=
  let resource_type := resource_type request in
  if any_blocked (request_url request) then [Abort]
  else
    if existsb (String.eqb resource_type)
               ["document"; "stylesheet"; "image"; "font"]
    then [Continue]
    else
      if any_blocked (request_url request) then [Abort] else [Continue].

(** The policy as the specification words it: abort a request to a
    deny-listed domain, let every other request through. *)
Definition deny_list_policy (request : Request) : list RouteCall :=
  if any_blocked (request_url request) then [Abort] else [Continue].

(** The options handed to [page.screenshot]. *)
Definition screenshot_options (config : ScreenshotConfig) (output_path : string)
  : ScreenshotOptions :=
  let options := {|
    opt_path := output_path;
    opt_full_page := full_page config;
    opt_type := output_format config;
    omit_background := false;
    opt_quality := None
  |} in
  if String.eqb (output_format config) "jpeg" && truthy_int (output_quality config)
  then {|
    opt_path := opt_path options;
    opt_full_page := opt_full_page options;
    opt_type := opt_type options;
    omit_background := omit_background options;
    opt_quality := output_quality config
  |}
  else options.

(** ** The URL loader, on the lines and rows it is given *)

(** Iteration over a text-mode file with universal newlines: a line ends at
    LF, CR or CR LF and is delivered with a final LF. *)
Fixpoint text_lines_from (cur s : string) : list string :=
  match s with
  | "" => if PyStr.nonempty cur then [cur] else []
  | String c s' =>
      if Ascii.eqb c "010" then (cur ++ String "010" "") :: text_lines_from "" s'
      else if Ascii.eqb c "013" then
        match s' with
        | String c' s'' =>
            if Ascii.eqb c' "010"
            then (cur ++ String "010" "") :: text_lines_from "" s''
            else (cur ++ String "010" "") :: text_lines_from "" s'
        | "" => [cur ++ String "010" ""]
        end
      else text_lines_from (cur ++ String c "") s'
  end.

Definition text_lines (content : string) : list string :=
  text_lines_from "" content.

(** [url.startswith(('http://', 'https://'))] *)
Definition has_url_prefix (url : string) : bool :=
  PyStr.startswith url "http://" || PyStr.startswith url "https://".

(** The loop over the lines of a text file. *)
Fixpoint load_text_loop (lines : list string) (urls : list string) : list string :=
  match lines with
  | [] => urls
  | line :: rest =>
      let url := PyStr.strip line in
      if PyStr.nonempty url && has_url_prefix url
      then load_text_loop rest (urls ++ [url])
      else load_text_loop rest urls
  end.

(** The loop over the rows of a CSV file. *)
Fixpoint load_csv_loop (rows : list (list string)) (urls : list string)
  : list string :=
  match rows with
  | [] => urls
  | row :: rest =>
      match row with
      | cell :: _ =>
          if PyStr.nonempty (PyStr.strip cell)
          then
            let url := PyStr.strip cell in
            if has_url_prefix url
            then load_csv_loop rest (urls ++ [url])
            else load_csv_loop rest urls
          else load_csv_loop rest urls
      | [] => load_csv_loop rest urls
      end
  end.

(** ** The runtime the script calls *)

(** Lines the script prints, by statement and with the values formatted into
    them; [MsgTraceback] is the traceback with which the interpreter reports
    an exception that nothing caught. *)
Inductive message :=
| MsgLoadingUrl (url : string)
| MsgCapturing
| MsgSaved (output_path : string) (bytes : Z)
| MsgErrorCapturing (url text : string)
| MsgProcessing (i n : nat) (url : string)
| MsgLoaded (n : nat) (file : option string)
| MsgErrorLoading (text : string)
| MsgNoValidUrls
| MsgCompleted
| MsgScreenshotFailed
| MsgBatchResults
| MsgSuccessful (successful total : nat)
| MsgFailed (failed total : nat)
| MsgFailedUrls
| MsgFailedUrl (url : string)
| MsgTotalTime
| MsgTraceback (e : exn).

(** The interface to everything outside the script, over a world [W] and
    page handles [P].  A call whose value is a [result] may raise.
    [urlparse(url)] is given by [urlparse_raises url], the [ValueError] it
    raises if it does, and [urlparse_netloc url], the [netloc] of what it
    returns otherwise. *)
Class Runtime (W P : Type) : Type := {
  (* urllib.parse and csv *)
  urlparse_raises : string -> option exn;
  urlparse_netloc : string -> string;
  csv_reader : list string -> result (list (list string));
  (* files, directories, clock *)
  path_exists : string -> W -> bool;
  read_text : string -> W -> result string;
  getsize : string -> W -> result Z;
  makedirs : string -> W -> W * result unit;
  datetime_now : W -> datetime;
  asyncio_sleep : Z -> W -> W;
  (* Playwright *)
  playwright_start : W -> W;
  chromium_launch : list string -> W -> W;
  browser_close : W -> W;
  playwright_stop : W -> W;
  new_page : PageOptions -> W -> W * result P;
  page_route : P -> string -> (Request -> list RouteCall) -> W -> W * result unit;
  add_init_script : P -> string -> W -> W * result unit;
  page_goto : P -> string -> string -> Z -> W -> W * result unit;
  page_wait_for_selector : P -> string -> Z -> W -> W * result unit;
  page_wait_for_timeout : P -> Z -> W -> W * result unit;
  page_evaluate : P -> string -> W -> W * result unit;
  page_wait_for_load_state : P -> string -> W -> W * result unit;
  page_screenshot : P -> ScreenshotOptions -> W -> W * result unit;
  page_close : P -> W -> W * result unit
}.

(** The world together with what has been printed so far. *)
Record state (W : Type) := { world : W; stdout : list message }.
Arguments world {W} _.
Arguments stdout {W} _.

(** A Python [dict] from URL to success flag: keys in insertion order, an
    assignment to a key that is present keeps its place. *)
Definition dict := list (string * bool).

Fixpoint dict_set (key : string) (value : bool) (d : dict) : dict :=
  match d with
  | [] => [(key, value)]
  | (k, v) :: d' =>
      if String.eqb k key then (k, value) :: d' else (k, v) :: dict_set key value d'
  end.

Fixpoint dict_get (key : string) (d : dict) : option bool :=
  match d with
  | [] => None
  | (k, v) :: d' => if String.eqb k key then Some v else dict_get key d'
  end.

Definition keys (d : dict) : list string := map fst d.
Definition values (d : dict) : list bool := map snd d.

(** [sum] of a list of [bool]. *)
Definition sum_bools (l : list bool) : nat := length (filter (fun b => b) l).

(** File name templates of [str.format] with the keyword fields the script
    passes. *)
Inductive piece := Text (s : string) | Domain | Timestamp | Index.

Definition template := list piece.

Definition field_of (name : string) : option piece :=
  if String.eqb name "domain" then Some Domain
  else if String.eqb name "timestamp" then Some Timestamp
  else if String.eqb name "index" then Some Index
  else None.

Definition push_char (c : ascii) (t : template) : template :=
  match t with
  | Text s :: t' => Text (String c s) :: t'
  | _ => Text (String c "") :: t
  end.

(** Reads a format string: [{{] and [}}] are braces, [{name}] is a field;
    [None] where [str.format] raises (and for conversions and format specs,
    which are not represented). *)
Fixpoint parse_template_from (field : option string) (s : string)
  : option template :=
  match s with
  | "" => match field with None => Some [] | Some _ => None end
  | String c s' =>
      match field with
      | Some name =>
          if Ascii.eqb c "}" then
            match field_of name, parse_template_from None s' with
            | Some p, Some t => Some (p :: t)
            | _, _ => None
            end
          else if Ascii.eqb c "{" then
            if String.eqb name ""
            then option_map (push_char "{") (parse_template_from None s')
            else None
          else parse_template_from (Some (name ++ String c "")) s'
      | None =>
          if Ascii.eqb c "{" then parse_template_from (Some "") s'
          else if Ascii.eqb c "}" then
            match s' with
            | String c' s'' =>
                if Ascii.eqb c' "}"
                then option_map (push_char "}") (parse_template_from None s'')
                else None
            | "" => None
            end
          else option_map (push_char c) (parse_template_from None s')
      end
  end.

Definition parse_template (s : string) : option template :=
  parse_template_from None s.

(** The default of [batch_capture]'s [name_template], as read from
    ["{domain}_{timestamp}"]. *)
Definition default_name_template : template := [Domain; Text "_"; Timestamp].

Fixpoint format_template (t : template) (domain timestamp : string) (index : nat)
  : string :=
  match t with
  | [] => ""
  | Text s :: t' => s ++ format_template t' domain timestamp index
  | Domain :: t' => domain ++ format_template t' domain timestamp index
  | Timestamp :: t' => timestamp ++ format_template t' domain timestamp index
  | Index :: t' => PyStr.of_nat index ++ format_template t' domain timestamp index
  end.

(** The two scripts handed to the page. *)
Definition no_animation_script : string :=
"// Disable CSS animations and transitions
const style = document.createElement('style');
style.innerHTML = `
    *, *::before, *::after {
        animation-duration: 0.01ms !important;
        animation-delay: -0.01ms !important;
        animation-iteration-count: 1 !important;
        background-attachment: initial !important;
        scroll-behavior: auto !important;
        transition-duration: 0ms !important;
        transition-delay: 0ms !important;
    }
`;
document.head.appendChild(style);".

Definition scroll_script : string :=
"const scrollStep = () => {
    window.scrollBy(0, window.innerHeight);
    if (window.scrollY + window.innerHeight < document.body.scrollHeight) {
        setTimeout(scrollStep, 100);
    }
};
scrollStep();".

Definition launch_args : list string :=
  [ "--no-sandbox"; "--disable-setuid-sandbox"; "--disable-dev-shm-usage";
    "--disable-accelerated-2d-canvas"; "--no-first-run"; "--no-zygote";
    "--disable-gpu"; "--hide-scrollbars";
    "--disable-background-timer-throttling";
    "--disable-backgrounding-occluded-windows";
    "--disable-renderer-backgrounding"; "--mute-audio" ].

(** ** The command line *)

(** [args], the namespace [parser.parse_args()] returns. *)
Module Args.
Record Namespace := {
  url : option string;
  file : option string;
  output : string;
  format : string;
  quality : Z;
  width : Z;
  height : Z;
  scale : float_text;
  mobile : bool;
  wait_timeout : Z;
  wait_selector : option string;
  wait_state : string;
  no_animations : bool;
  no_ads : bool
}.
End Args.
Import Args (Namespace).

(** The defaults of the [add_argument] calls. *)
Definition default_namespace : Namespace := {|
  Args.url := None;
  Args.file := None;
  Args.output := "./screenshots";
  Args.format := "png";
  Args.quality := 90;
  Args.width := 1920;
  Args.height := 1080;
  Args.scale := "2.0";
  Args.mobile := false;
  Args.wait_timeout := 30000;
  Args.wait_selector := None;
  Args.wait_state := "networkidle";
  Args.no_animations := true;
  Args.no_ads := true
|}.

(** One occurrence of an option on the command line, after its value has been
    converted: a [store] action carries the value, a [store_true] action has
    none. *)
Inductive action :=
| StoreUrl (v : string)
| StoreFile (v : string)
| StoreOutput (v : string)
| StoreFormat (v : string)
| StoreQuality (n : Z)
| StoreWidth (n : Z)
| StoreHeight (n : Z)
| StoreScale (x : float_text)
| StoreTrueMobile
| StoreWaitTimeout (n : Z)
| StoreWaitSelector (v : string)
| StoreWaitState (v : string)
| StoreTrueNoAnimations
| StoreTrueNoAds.

(** What an action does to the namespace: [setattr(namespace, dest, value)],
    the value of a [store_true] action being [True]. *)
Definition run_action (ns : Namespace) (a : action) : Namespace :=
  let set url file output format quality width height scale mobile
          wait_timeout wait_selector wait_state no_animations no_ads :=
    {| Args.url := url; Args.file := file; Args.output := output;
       Args.format := format; Args.quality := quality; Args.width := width;
       Args.height := height; Args.scale := scale; Args.mobile := mobile;
       Args.wait_timeout := wait_timeout; Args.wait_selector := wait_selector;
       Args.wait_state := wait_state; Args.no_animations := no_animations;
       Args.no_ads := no_ads |} in
  let '(Args.Build_Namespace url file output format quality width height scale
          mobile wait_timeout wait_selector wait_state no_animations no_ads) := ns in
  match a with
  | StoreUrl v =>
      set (Some v) file output format quality width height scale mobile
          wait_timeout wait_selector wait_state no_animations no_ads
  | StoreFile v =>
      set url (Some v) output format quality width height scale mobile
          wait_timeout wait_selector wait_state no_animations no_ads
  | StoreOutput v =>
      set url file v format quality width height scale mobile
          wait_timeout wait_selector wait_state no_animations no_ads
  | StoreFormat v =>
      set url file output v quality width height scale mobile
          wait_timeout wait_selector wait_state no_animations no_ads
  | StoreQuality n =>
      set url file output format n width height scale mobile
          wait_timeout wait_selector wait_state no_animations no_ads
  | StoreWidth n =>
      set url file output format quality n height scale mobile
          wait_timeout wait_selector wait_state no_animations no_ads
  | StoreHeight n =>
      set url file output format quality width n scale mobile
          wait_timeout wait_selector wait_state no_animations no_ads
  | StoreScale x =>
      set url file output format quality width height x mobile
          wait_timeout wait_selector wait_state no_animations no_ads
  | StoreTrueMobile =>
      set url file output format quality width height scale true
          wait_timeout wait_selector wait_state no_animations no_ads
  | StoreWaitTimeout n =>
      set url file output format quality width height scale mobile
          n wait_selector wait_state no_animations no_ads
  | StoreWaitSelector v =>
      set url file output format quality width height scale mobile
          wait_timeout (Some v) wait_state no_animations no_ads
  | StoreWaitState v =>
      set url file output format quality width height scale mobile
          wait_timeout wait_selector v no_animations no_ads
  | StoreTrueNoAnimations =>
      set url file output format quality width height scale mobile
          wait_timeout wait_selector wait_state true no_ads
  | StoreTrueNoAds =>
      set url file output format quality width height scale mobile
          wait_timeout wait_selector wait_state no_animations true
  end.

(** [type=int]: decimal digits with an optional sign. *)
Definition digit_of (c : ascii) : option Z :=
  let n := nat_of_ascii c in
  if ((48 <=? n) && (n <=? 57))%nat then Some (Z.of_nat (n - 48)) else None.

Fixpoint parse_digits (acc : Z) (s : string) : option Z :=
  match s with
  | "" => Some acc
  | String c s' =>
      match digit_of c with
      | Some d => parse_digits (10 * acc + d) s'
      | None => None
      end
  end.

Definition parse_unsigned (s : string) : option Z :=
  match s with "" => None | _ => parse_digits 0 s end.

Definition parse_int (s : string) : option Z :=
  match s with
  | String "-" r => option_map Z.opp (parse_unsigned r)
  | String "+" r => parse_unsigned r
  | _ => parse_unsigned s
  end.

(** [type=float]: accepted here when the text is a signed decimal with at
    least one digit and at most one point. *)
Fixpoint decimal_shape (digits points : nat) (s : string) : bool :=
  match s with
  | "" => ((0 <? digits) && (points <=? 1))%nat
  | String c s' =>
      if Ascii.eqb c "." then decimal_shape digits (S points) s'
      else match digit_of c with
           | Some _ => decimal_shape (S digits) points s'
           | None => false
           end
  end.

Definition parse_float (s : string) : option float_text :=
  let body := match s with
              | String "-" r => r
              | String "+" r => r
              | _ => s
              end in
  if decimal_shape 0 0 body then Some s else None.

Definition one_of (choices : list string) (v : string) : option string :=
  if existsb (String.eqb v) choices then Some v else None.

Definition is_flag (names : list string) (opt : string) : bool :=
  existsb (String.eqb opt) names.

(** The [store_true] options. *)
Definition flag_action (opt : string) : option action :=
  if is_flag ["--mobile"] opt then Some StoreTrueMobile
  else if is_flag ["--no-animations"] opt then Some StoreTrueNoAnimations
  else if is_flag ["--no-ads"] opt then Some StoreTrueNoAds
  else None.

(** The options that take a value, with [type] and [choices] applied. *)
Definition store_action (opt value : string) : option action :=
  if is_flag ["-u"; "--url"] opt then Some (StoreUrl value)
  else if is_flag ["-f"; "--file"] opt then Some (StoreFile value)
  else if is_flag ["-o"; "--output"] opt then Some (StoreOutput value)
  else if is_flag ["--format"] opt
       then option_map StoreFormat (one_of ["png"; "jpeg"] value)
  else if is_flag ["--quality"] opt then option_map StoreQuality (parse_int value)
  else if is_flag ["--width"] opt then option_map StoreWidth (parse_int value)
  else if is_flag ["--height"] opt then option_map StoreHeight (parse_int value)
  else if is_flag ["--scale"] opt then option_map StoreScale (parse_float value)
  else if is_flag ["--wait-timeout"] opt
       then option_map StoreWaitTimeout (parse_int value)
  else if is_flag ["--wait-selector"] opt then Some (StoreWaitSelector value)
  else if is_flag ["--wait-state"] opt
       then option_map StoreWaitState
              (one_of ["load"; "domcontentloaded"; "networkidle"] value)
  else None.

(** Either the parsed value or argparse leaving the process ([-h] with code
    0, a usage error with code 2). *)
Inductive parsed (A : Type) := Parsed (a : A) | UsageExit (code : Z).
Arguments Parsed {A} a.
Arguments UsageExit {A} code.

Definition and_then (a : action) (r : parsed (list action))
  : parsed (list action) :=
  match r with
  | Parsed acts => Parsed (a :: acts)
  | UsageExit code => UsageExit code
  end.

(** Reads the arguments left to right, for command lines written with
    the option names in full and each value as the next argument; [seen_u]
    and [seen_f] record the members of the required, mutually exclusive group
    met so far.  What argparse accepts beyond that (abbreviated long options,
    [--option=value], [-uVALUE], the further spellings of numbers that [int]
    and [float] read) is refused here, and a value that starts with a dash is
    taken as a value; the statements on every command line are therefore made
    on the lists of actions, which cover these too. *)
Fixpoint recognise (seen_u seen_f : bool) (argv : list string)
  : parsed (list action) :=
  match argv with
  | [] => if seen_u || seen_f then Parsed [] else UsageExit 2
  | opt :: rest =>
      if is_flag ["-h"; "--help"] opt then UsageExit 0
      else
        match flag_action opt with
        | Some a => and_then a (recognise seen_u seen_f rest)
        | None =>
            match rest with
            | value :: rest' =>
                match store_action opt value with
                | Some (StoreUrl v) =>
                    if seen_f then UsageExit 2
                    else and_then (StoreUrl v) (recognise true seen_f rest')
                | Some (StoreFile v) =>
                    if seen_u then UsageExit 2
                    else and_then (StoreFile v) (recognise seen_u true rest')
                | Some a => and_then a (recognise seen_u seen_f rest')
                | None => UsageExit 2
                end
            | [] => UsageExit 2
            end
        end
  end.

(** [parser.parse_args()] *)
Definition parse_args (argv : list string) : parsed Namespace :=
  match recognise false false argv with
  | Parsed acts => Parsed (fold_left run_action acts default_namespace)
  | UsageExit code => UsageExit code
  end.

(** The configuration [main] builds from [args]. *)
Definition make_config (args : Namespace) : ScreenshotConfig := {|
  viewport_width := Args.width args;
  viewport_height := Args.height args;
  device_scale_factor := Args.scale args;
  full_page := full_page default_config;
  wait_timeout := Args.wait_timeout args;
  wait_for_selector := Args.wait_selector args;
  wait_for_load_state := Args.wait_state args;
  disable_animations := Args.no_animations args;
  block_ads := Args.no_ads args;
  output_format := Args.format args;
  output_quality :=
    if String.eqb (Args.format args) "jpeg" then Some (Args.quality args)
    else output_quality default_config;
  mobile := Args.mobile args;
  user_agent := user_agent default_config
|}.

(** ** Reading the output *)

(** The verdict lines of the captures, in order: saved or error. *)
Definition verdicts_of (l : list message) : list bool :=
  flat_map (fun m => match m with
                     | MsgSaved _ _ => [true]
                     | MsgErrorCapturing _ _ => [false]
                     | _ => []
                     end) l.

(** The URLs of the error lines of the captures. *)
Definition errors_of (l : list message) : list string :=
  flat_map (fun m => match m with MsgErrorCapturing u _ => [u] | _ => [] end) l.

(** The URLs listed as failed by the summary. *)
Definition listed_of (l : list message) : list string :=
  flat_map (fun m => match m with MsgFailedUrl u => [u] | _ => [] end) l.

(** The [Successful: s/t] lines. *)
Definition summaries_of (l : list message) : list (nat * nat) :=
  flat_map (fun m => match m with MsgSuccessful s t => [(s, t)] | _ => [] end) l.

(** The [Processing i/n: url] lines. *)
Definition processing_of (l : list message) : list (nat * nat * string) :=
  flat_map (fun m => match m with MsgProcessing i n u => [(i, n, u)] | _ => [] end) l.

(** What the loop of [batch_capture] announces for [urls] from index [i]. *)
Fixpoint numbered (n i : nat) (urls : list string) : list (nat * nat * string) :=
  match urls with
  | [] => []
  | u :: rest => (i, n, u) :: numbered n (S i) rest
  end.

(** First cells of the non-empty rows. *)
Definition column0 (rows : list (list string)) : list string :=
  flat_map (fun row => match row with cell :: _ => [cell] | [] => [] end) rows.

(** The URLs whose capture failed, and the last result recorded for a URL,
    in a list of captures with their results. *)
Definition failed_of (outcomes : list (string * bool)) : list string :=
  map fst (filter (fun o => negb (snd o)) outcomes).

Definition last_result (u : string) (outcomes : list (string * bool))
  : option bool :=
  dict_get u (rev outcomes).

(** Output with none of the lines read above. *)
Definition silent (l : list message) : Prop :=
  verdicts_of l = [] /\ errors_of l = [] /\ listed_of l = []
  /\ summaries_of l = [] /\ processing_of l = [].

(** Recording a capture and its result in the dictionary. *)
Definition set_outcome (d : dict) (o : string * bool) : dict :=
  dict_set (fst o) (snd o) d.

(** What the [try] block of [capture_screenshot] prints: a saved line when
    it returns, and no verdict when it raises. *)
Definition try_log (r : result bool) (l : list message) : Prop :=
  errors_of l = [] /\ listed_of l = [] /\ summaries_of l = []
  /\ processing_of l = []
  /\ match r with
     | inr b => b = true /\ verdicts_of l = [true]
     | inl _ => verdicts_of l = []
     end.

(** What one call of [capture_screenshot] for [url] prints when it returns
    [b]: one verdict, an error line for [url] exactly when [b] is [False]. *)
Definition capture_log (url : string) (b : bool) (l : list message) : Prop :=
  verdicts_of l = [b] /\ errors_of l = (if b then [] else [url])
  /\ listed_of l = [] /\ summaries_of l = [] /\ processing_of l = [].

(** What the loop of [batch_capture] prints for the captures [outcomes],
    numbered from [i]. *)
Definition batch_log (n i : nat) (outcomes : list (string * bool))
           (l : list message) : Prop :=
  verdicts_of l = map snd outcomes /\ errors_of l = failed_of outcomes
  /\ listed_of l = [] /\ summaries_of l = []
  /\ processing_of l = numbered n i (map fst outcomes).

(** What a batch run of [main] prints for [urls] when the captures give
    [outcomes]: the lines of the loop, then the summary of the dictionary
    these results leave. *)
Definition batch_run_log (urls : list string) (outcomes : list (string * bool))
           (l : list message) : Prop :=
  verdicts_of l = map snd outcomes
  /\ errors_of l = failed_of outcomes
  /\ processing_of l = numbered (length urls) 1 urls
  /\ summaries_of l
     = [(sum_bools (values (fold_left set_outcome outcomes [])),
         length (fold_left set_outcome outcomes []))]
  /\ listed_of l = failed_of (fold_left set_outcome outcomes []).

(** What the loop of [batch_capture] prints when [urlparse] raises on
    [url], after the captures [outcomes]. *)
Definition aborted_log (n i : nat) (outcomes : list (string * bool))
           (url : string) (l : list message) : Prop :=
  verdicts_of l = map snd outcomes /\ errors_of l = failed_of outcomes
  /\ listed_of l = [] /\ summaries_of l = []
  /\ processing_of l = numbered n i (map fst outcomes ++ [url]).

(** The summary as the batch is expected to report it: with [N] URLs given
    and [K] error lines, [N - K] successful out of [N], and the failed URLs
    listed being those of the error lines, in their order. *)
Definition summary_reports (urls : list string) (l : list message) : Prop :=
  let N := length urls in
  let K := length (errors_of l) in
  summaries_of l = [(N - K, N)] /\ listed_of l = errors_of l.

(** The lines of the summary of a batch with the dictionary [results]. *)
Definition summary_lines (results : dict) : list message :=
  [MsgBatchResults;
   MsgSuccessful (sum_bools (values results)) (length results);
   MsgFailed (length results - sum_bools (values results)) (length results)]
  ++ (if (sum_bools (values results) <? length results)%nat
      then MsgFailedUrls :: map MsgFailedUrl (failed_of results)
      else []).

(** ** The script over a runtime *)

Section Script.

Context {W P : Type} {RT : Runtime W P}.

(** Code that cannot raise: a state transformer with a value. *)
Definition M (A : Type) : Type := state W -> state W * A.

Definition ret {A} (a : A) : M A := fun s => (s, a).

Definition bind {A B} (c : M A) (k : A -> M B) : M B :=
  fun s => let (s', a) := c s in k a s'.

(** Code inside a [try] block: the value is a [result]. *)
Definition T (A : Type) : Type := M (result A).

Definition retT {A} (a : A) : T A := ret (inr a).

Definition bindT {A B} (c : T A) (k : A -> T B) : T B :=
  fun s =>
    match c s with
    | (s', inl e) => (s', inl e)
    | (s', inr a) => k a s'
    end.

Notation "x <- c ;; k" := (bind c (fun x => k))
  (at level 61, c at next level, right associativity).
Notation "c ;; k" := (bind c (fun _ => k))
  (at level 61, right associativity).
Notation "x <-? c ;;? k" := (bindT c (fun x => k))
  (at level 61, c at next level, right associativity).
Notation "c ;;? k" := (bindT c (fun _ => k))
  (at level 61, right associativity).

Definition print (m : message) : M unit :=
  fun s => ({| world := world s; stdout := stdout s ++ [m] |}, tt).

(** A runtime call that returns. *)
Definition act (f : W -> W) : M unit :=
  fun s => ({| world := f (world s); stdout := stdout s |}, tt).

Definition ask {A} (f : W -> A) : M A := fun s => (s, f (world s)).

(** A runtime call that may raise. *)
Definition call {A} (f : W -> W * result A) : T A :=
  fun s => let (w', r) := f (world s) in
           ({| world := w'; stdout := stdout s |}, r).

Definition say (m : message) : T unit := fun s => (fst (print m s), inr tt).

Definition when (b : bool) (c : T unit) : T unit := if b then c else retT tt.

(** Code that cannot raise, where code that can is expected. *)
Definition ok {A} (c : M A) : T A := fun s => let (s', a) := c s in (s', inr a).

(** A pure call that may raise. *)
Definition raise_if (raised : option exn) : T unit :=
  fun s => (s, match raised with Some e => inl e | None => inr tt end).

(** [emits c Q]: from any state, [c] only adds lines to the output, and
    its value and the lines it adds satisfy [Q]. *)
Definition emits {A} (c : M A) (Q : A -> list message -> Prop) : Prop :=
  forall s, exists l,
    stdout (fst (c s)) = (stdout s ++ l)%list /\ Q (snd (c s)) l.

Definition quiet {A} (c : M A) : Prop := emits c (fun _ l => silent l).

(** *** [Screeny] *)

(** [Screeny.__aenter__] and [Screeny.__aexit__] *)
Definition screeny_enter : M unit :=
  act playwright_start ;; act (chromium_launch launch_args).

Definition screeny_exit : M unit :=
  act browser_close ;; act playwright_stop.

(** The [try] block of [capture_screenshot]. *)
Definition capture_try (config : ScreenshotConfig) (url output_path : string)
  : T bool :=
  page <-? call (new_page {|
             viewport := (viewport_width config, viewport_height config);
             opt_device_scale_factor := device_scale_factor config;
             opt_user_agent := user_agent config;
             is_mobile := mobile config |}) ;;?
  when (block_ads config) (call (page_route page "**/*" _block_ads_handler)) ;;?
  when (disable_animations config)
       (call (add_init_script page no_animation_script)) ;;?
  say (MsgLoadingUrl url) ;;?
  call (page_goto page url (wait_for_load_state config) (wait_timeout config)) ;;?
  when (truthy_str (wait_for_selector config))
       (call (page_wait_for_selector page
                (match wait_for_selector config with Some sel => sel | None => "" end)
                (wait_timeout config))) ;;?
  call (page_wait_for_timeout page 2000) ;;?
  call (page_evaluate page scroll_script) ;;?
  call (page_wait_for_load_state page "networkidle") ;;?
  call (page_evaluate page "window.scrollTo(0, 0)") ;;?
  call (page_wait_for_timeout page 500) ;;?
  say MsgCapturing ;;?
  call (page_screenshot page (screenshot_options config output_path)) ;;?
  call (page_close page) ;;?
  file_size <-? call (fun w => (w, getsize output_path w)) ;;?
  say (MsgSaved output_path file_size) ;;?
  retT true.

(** [Screeny.capture_screenshot]: the [try] block and its
    [except Exception] handler. *)
Definition capture_screenshot (config : ScreenshotConfig)
           (url output_path : string) : M bool :=
  r <- capture_try config url output_path ;;
  match r with
  | inr success => ret success
  | inl e => print (MsgErrorCapturing url (exn_text e)) ;; ret false
  end.

(** [urlparse(url).netloc.replace('www.', '').replace('.', '_')] *)
Definition domain_of (url : string) : string :=
  PyStr.replace (PyStr.replace (urlparse_netloc url) "www." "") "." "_".

Definition timestamp_now : M string :=
  ask (fun w => strftime_stamp (datetime_now w)).

(** The extension is added unless the name already ends with it. *)
Definition with_extension (config : ScreenshotConfig) (filename : string)
  : string :=
  if negb (PyStr.endswith filename ("." ++ output_format config))
  then filename ++ "." ++ output_format config
  else filename.

(** The [for] loop of [batch_capture], at index [i] of [n].  [urlparse]
    is called outside any [try] block: what it raises leaves the loop. *)
Fixpoint batch_loop (config : ScreenshotConfig) (output_dir : string)
         (name_template : template) (n i : nat) (urls : list string)
         (results : dict) : T dict :=
  match urls with
  | [] => retT results
  | url :: rest =>
      say (MsgProcessing i n url) ;;?
      raise_if (urlparse_raises url) ;;?
      let domain := domain_of url in
      timestamp <-? ok timestamp_now ;;?
      let filename :=
        with_extension config (format_template name_template domain timestamp i) in
      let output_path := path_join output_dir filename in
      success <-? ok (capture_screenshot config url output_path) ;;?
      let results := dict_set url success results in
      (if (i <? n)%nat then ok (act (asyncio_sleep 1)) else retT tt) ;;?
      batch_loop config output_dir name_template n (S i) rest results
  end.

(** [Screeny.batch_capture]; what [os.makedirs] raises leaves it. *)
Definition batch_capture (config : ScreenshotConfig) (urls : list string)
           (output_dir : string) (name_template : template) : T dict :=
  call (makedirs output_dir) ;;?
  batch_loop config output_dir name_template (length urls) 1 urls [].

(** *** [load_urls_from_file] *)

(** The argument is [None] when [main] passes an unset [args.file];
    [Path(None)] raises.  The message for a missing file is formatted with
    the [Path], whose text is [path_str file_path]. *)
Definition load_urls_from_file (file_path : option string) (w : W)
  : result (list string) :=
  match file_path with
  | None =>
      inl (Exception "TypeError"
             "expected str, bytes or os.PathLike object, not NoneType")
  | Some file_path =>
      if negb (path_exists file_path w)
      then inl (Exception "FileNotFoundError"
                  ("File not found: " ++ path_str file_path))
      else
        match read_text file_path w with
        | inl e => inl e
        | inr content =>
            if String.eqb (PyStr.lower (suffix file_path)) ".csv"
            then
              match csv_reader (text_lines content) with
              | inl e => inl e
              | inr rows => inr (load_csv_loop rows [])
              end
            else inr (load_text_loop (text_lines content) [])
        end
  end.

(** The URLs [main] works on: the single [--url], or the file's. *)
Definition loaded_urls (args : Namespace) (w : W) : result (list string) :=
  if truthy_str (Args.url args)
  then inr (match Args.url args with Some u => [u] | None => [] end)
  else load_urls_from_file (Args.file args) w.

(** *** [main] *)

(** The file name of the single-URL branch. *)
Definition single_filename (config : ScreenshotConfig)
           (domain timestamp : string) : string :=
  domain ++ "_" ++ timestamp ++ "." ++ output_format config.

(** The summary printed after a batch. *)
Fixpoint print_failed (items : dict) : M unit :=
  match items with
  | [] => ret tt
  | (url, success) :: rest =>
      (if negb success then print (MsgFailedUrl url) else ret tt) ;;
      print_failed rest
  end.

Definition print_summary (results : dict) : M unit :=
  let successful := sum_bools (values results) in
  let total := length results in
  print MsgBatchResults ;;
  print (MsgSuccessful successful total) ;;
  print (MsgFailed (total - successful) total) ;;
  if (successful <? total)%nat
  then print MsgFailedUrls ;; print_failed results
  else ret tt.

(** [async with Screeny(config) as screeny: body]: [__aexit__] runs
    whether [body] returns or raises, and lets the exception through. *)
Definition async_with_screeny {A} (body : T A) : T A :=
  screeny_enter ;;
  r <- body ;;
  screeny_exit ;;
  ret r.

(** The part of [main] from [async with] on, for a non-empty list of URLs.
    The value of the block is the code of the [return] reached inside it, if
    one is.  [urlparse] and [os.makedirs] are called outside any [try]
    block. *)
Definition capture_all (args : Namespace) (config : ScreenshotConfig)
           (urls : list string) : T Z :=
  returned <-?
    async_with_screeny
      (match urls with
       | [url] =>
           raise_if (urlparse_raises url) ;;?
           let domain := domain_of url in
           timestamp <-? ok timestamp_now ;;?
           let filename := single_filename config domain timestamp in
           let output_path := path_join (Args.output args) filename in
           call (makedirs (Args.output args)) ;;?
           success <-? ok (capture_screenshot config url output_path) ;;?
           if success
           then say MsgCompleted ;;? retT (@None Z)
           else say MsgScreenshotFailed ;;? retT (Some 1%Z)
       | _ =>
           results <-? batch_capture config urls (Args.output args)
                         default_name_template ;;?
           ok (print_summary results) ;;?
           retT (@None Z)
       end) ;;?
  match returned with
  | Some code => retT code
  | None => say MsgTotalTime ;;? retT 0%Z
  end.

(** The coroutine [main] from the parsed [args] on: the code it returns, or
    the exception it lets through. *)
Definition main_from (args : Namespace) : T Z :=
  let config := make_config args in
  loaded <-
    (if truthy_str (Args.url args)
     then ret (Some (match Args.url args with Some u => [u] | None => [] end))
     else
       r <- ask (load_urls_from_file (Args.file args)) ;;
       match r with
       | inr urls =>
           print (MsgLoaded (length urls) (Args.file args)) ;; ret (Some urls)
       | inl e => print (MsgErrorLoading (exn_text e)) ;; ret None
       end) ;;
  match loaded with
  | None => retT 1%Z
  | Some [] => say MsgNoValidUrls ;;? retT 1%Z
  | Some urls => capture_all args config urls
  end.

(** [sys.exit(asyncio.run(main()))] from the parsed [args] on.  The value
    is the exit code of the process: the code [main] returns, or 1 after the
    traceback of an exception that [main] lets through. *)
Definition run (args : Namespace) : M Z :=
  r <- main_from args ;;
  match r with
  | inr code => ret code
  | inl e => print (MsgTraceback e) ;; ret 1%Z
  end.

(** The script from the command line on. *)
Definition main (argv : list string) : M Z :=
  match parse_args argv with
  | UsageExit code => ret code
  | Parsed args => run args
  end.

(** The world in which the block under [async with] starts, and the world
    it leaves after a block that ended in [w]. *)
Definition launched (w : W) : W :=
  chromium_launch launch_args (playwright_start w).

Definition closed (w : W) : W := playwright_stop (browser_close w).

(** [urlparse] returns on each of [urls]. *)
Definition all_parse (urls : list string) : Prop :=
  Forall (fun url => urlparse_raises url = None) urls.

(** [captures config urls w outcomes w']: from the world [w], the URLs are
    captured one after the other by [capture_screenshot], each for some
    output path, with the results [outcomes]; at most a sleep of one second
    comes between a capture and the next, and [w'] is the world after the
    last. *)
Inductive captures (config : ScreenshotConfig)
  : list string -> W -> list (string * bool) -> W -> Prop :=
| captures_none (w : W) : captures config [] w [] w
| captures_next (url : string) (urls : list string) (w : W)
    (out : list message) (output_path : string) (s : state W) (b : bool)
    (w_next : W) (outcomes : list (string * bool)) (w_end : W) :
    capture_screenshot config url output_path {| world := w; stdout := out |}
    = (s, b) ->
    w_next = world s \/ w_next = asyncio_sleep 1 (world s) ->
    captures config urls w_next outcomes w_end ->
    captures config (url :: urls) w ((url, b) :: outcomes) w_end.

(** The two ways the loop of [batch_capture] ends, from the world [w] to
    the world [w']: it returns the dictionary of the results of the captures
    of all the URLs; or [urlparse] raises [e] on the first URL it refuses,
    after the captures of the URLs before it. *)
Definition loop_returned (config : ScreenshotConfig) (n i : nat)
           (urls : list string) (d : dict) (w w' : W) (results : dict)
           (l : list message) : Prop :=
  all_parse urls
  /\ exists outcomes,
       map fst outcomes = urls
       /\ captures config urls w outcomes w'
       /\ results = fold_left set_outcome outcomes d
       /\ batch_log n i outcomes l.

Definition loop_raised (config : ScreenshotConfig) (n i : nat)
           (urls : list string) (w w' : W) (e : exn) (l : list message)
  : Prop :=
  exists before url after outcomes,
    urls = (before ++ url :: after)%list
    /\ all_parse before
    /\ urlparse_raises url = Some e
    /\ map fst outcomes = before
    /\ captures config before w outcomes w'
    /\ aborted_log n i outcomes url l.

(** The statement that a run of [main] on [urls], two or more, reports
    the summary of [summary_reports]. *)
Definition batch_summary_claim (args : Namespace) (s : state W)
           (urls : list string) : Prop :=
  loaded_urls args (world s) = inr urls ->
  2 <= length urls ->
  exists l,
    stdout (fst (run args s)) = (stdout s ++ l)%list
    /\ summary_reports urls l.

End Script.

(** ** A small runtime to run the script on

    Files are a table from path to content; the browser follows a script of
    navigation outcomes, one per [page.goto], and navigates successfully once
    the script is used up; the clock stands still. *)

Module Demo.

Record machine := {
  files : list (string * string);
  goto_script : list bool;
  visited : list string
}.

Fixpoint lookup (path : string) (table : list (string * string))
  : option string :=
  match table with
  | [] => None
  | (p, c) :: rest => if String.eqb p path then Some c else lookup path rest
  end.

(** The text between the first [//] and the next [/], [?] or [#]: the
    netloc of a URL written [scheme://host/path]. *)
Fixpoint until_delimiter (s : string) : string :=
  match s with
  | "" => ""
  | String c s' =>
      if existsb (Ascii.eqb c) ["/"; "?"; "#"]%char then ""
      else String c (until_delimiter s')
  end.

Fixpoint netloc (s : string) : string :=
  match s with
  | "" => ""
  | String c s' =>
      if PyStr.startswith s "//"
      then until_delimiter (match s' with String _ r => r | "" => "" end)
      else netloc s'
  end.

(** Rows of comma-separated cells, without quoting; an empty line is an
    empty row. *)
Definition cells (line : string) : list string :=
  let text := PyStr.rstrip line in
  if PyStr.nonempty text then PyStr.split_on "," "" text else [].

Definition goto (url : string) (w : machine) : machine * result unit :=
  let w' := {| files := files w;
               goto_script := tl (goto_script w);
               visited := visited w ++ [url] |} in
  match goto_script w with
  | false :: _ => (w', inl (Exception "TimeoutError" "Timeout 30000ms exceeded."))
  | _ => (w', inr tt)
  end.

Definition step (w : machine) : machine * result unit := (w, inr tt).

(** [urlparse] refuses a netloc with one square bracket and not the
    other. *)
Definition raises (url : string) : option exn :=
  if xorb (PyStr.contains "[" (netloc url)) (PyStr.contains "]" (netloc url))
  then Some (Exception "ValueError" "Invalid IPv6 URL")
  else None.

(** [os.makedirs] refuses the empty path. *)
Definition mkdir (dir : string) (w : machine) : machine * result unit :=
  if PyStr.nonempty dir then (w, inr tt)
  else (w, inl (Exception "FileNotFoundError"
                  "[Errno 2] No such file or directory: ''")).

#[global] Instance runtime : Runtime machine nat := {|
  urlparse_raises := raises;
  urlparse_netloc := netloc;
  csv_reader := fun lines => inr (map cells lines);
  path_exists := fun path w =>
    match lookup path (files w) with Some _ => true | None => false end;
  read_text := fun path w =>
    match lookup path (files w) with
    | Some content => inr content
    | None => inl (Exception "FileNotFoundError" path)
    end;
  getsize := fun _ _ => inr 2048%Z;
  makedirs := mkdir;
  datetime_now := fun _ =>
    {| year := 2024; month := 1; day := 2; hour := 3; minute := 4; second := 5 |};
  asyncio_sleep := fun _ w => w;
  playwright_start := fun w => w;
  chromium_launch := fun _ w => w;
  browser_close := fun w => w;
  playwright_stop := fun w => w;
  new_page := fun _ w => (w, inr 0);
  page_route := fun _ _ _ => step;
  add_init_script := fun _ _ => step;
  page_goto := fun _ url _ _ => goto url;
  page_wait_for_selector := fun _ _ _ => step;
  page_wait_for_timeout := fun _ _ => step;
  page_evaluate := fun _ _ => step;
  page_wait_for_load_state := fun _ _ => step;
  page_screenshot := fun _ _ => step;
  page_close := fun _ => step
|}.

Definition start (fs : list (string * string)) (script : list bool)
  : state machine :=
  {| world := {| files := fs; goto_script := script; visited := [] |};
     stdout := [] |}.

Definition urls_txt : string :=
"# sites to capture

https://example.com/a
ftp://example.com/b
  http://www.example.org  
".

Definition urls_csv : string :=
"url,name
https://example.com/a,first
second,https://example.com/hidden

 http://www.example.org ,third
".

Definition twice_txt : string :=
"https://example.com/a
https://example.com/a
".

Definition refused_txt : string :=
"https://example.com/a
http://[::1
https://example.com/b
".

Definition disk : list (string * string) :=
  [ ("urls.txt", urls_txt); ("urls.csv", urls_csv); ("twice.txt", twice_txt);
    ("refused.txt", refused_txt) ].

(** The namespace of [screeny.py -f path] and of [screeny.py -u url]. *)
Definition file_args (path : string) : Namespace :=
  run_action default_namespace (StoreFile path).

Definition url_args (url : string) : Namespace :=
  run_action default_namespace (StoreUrl url).

End Demo.

(** ** Further readings of the results and of the output *)

(** The elements of a list in the order of their first occurrence. *)
Fixpoint first_occurrences (l : list string) : list string :=
  match l with
  | [] => []
  | x :: rest =>
      x :: filter (fun y => negb (String.eqb y x)) (first_occurrences rest)
  end.

(** Whether the last capture of [u] in [outcomes] succeeded, or failed. *)
Definition succeeded_last (outcomes : list (string * bool)) (u : string) : bool :=
  match last_result u outcomes with Some true => true | _ => false end.

Definition failed_last (outcomes : list (string * bool)) (u : string) : bool :=
  match last_result u outcomes with Some false => true | _ => false end.

(** The lines with which a run of exit code 1 ends: the message before
    [return 1], or the traceback. *)
Definition is_failure_line (m : message) : bool :=
  match m with
  | MsgErrorLoading _ | MsgNoValidUrls | MsgScreenshotFailed | MsgTraceback _ =>
      true
  | _ => false
  end.

(** ** Recording the calls to the runtime

    To say which calls the script makes, any runtime is wrapped into one
    that behaves the same and keeps, beside the world, the list of the calls
    made so far, each with its arguments (the page handle apart) and with
    how it ended. *)

Inductive invocation :=
| CallNewPage (options : PageOptions)
| CallRoute (pattern : string) (handler : Request -> list RouteCall)
| CallAddInitScript (script : string)
| CallGoto (url wait_until : string) (timeout : Z)
| CallWaitForSelector (selector : string) (timeout : Z)
| CallWaitForTimeout (ms : Z)
| CallEvaluate (script : string)
| CallWaitForLoadState (load_state : string)
| CallScreenshot (options : ScreenshotOptions)
| CallPageClose
| CallMakedirs (dir : string)
| CallSleep (seconds : Z)
| CallPlaywrightStart
| CallLaunch (args : list string)
| CallBrowserClose
| CallPlaywrightStop.

(** How a call ended. *)
Inductive ending := Returned | Raised (e : exn).

Definition ending_of {A} (r : result A) : ending :=
  match r with inr _ => Returned | inl e => Raised e end.

(** The calls made so far, oldest first. *)
Definition trace := list (invocation * ending).

(** The record of calls that all returned. *)
Definition returned (calls : list invocation) : trace :=
  map (fun c => (c, Returned)) calls.

(** The calls that start and stop Playwright and the browser. *)
Definition is_lifecycle (c : invocation) : bool :=
  match c with
  | CallPlaywrightStart | CallLaunch _ | CallBrowserClose | CallPlaywrightStop =>
      true
  | _ => false
  end.

Definition is_page_close (c : invocation) : bool :=
  match c with CallPageClose => true | _ => false end.

Section Recording.

Context {W P : Type} (RT : Runtime W P).

(** A call that may raise, and a call that returns, with their record. *)
Definition recorded {A} (c : invocation) (f : W -> W * result A)
           (wt : W * trace) : (W * trace) * result A :=
  let (w', r) := f (fst wt) in ((w', (snd wt ++ [(c, ending_of r)])%list), r).

Definition recorded_act (c : invocation) (f : W -> W) (wt : W * trace)
  : W * trace :=
  (f (fst wt), (snd wt ++ [(c, Returned)])%list).

Definition recording : Runtime (W * trace) P := {|
  urlparse_raises := @urlparse_raises W P RT;
  urlparse_netloc := @urlparse_netloc W P RT;
  csv_reader := @csv_reader W P RT;
  path_exists := fun path wt => @path_exists W P RT path (fst wt);
  read_text := fun path wt => @read_text W P RT path (fst wt);
  getsize := fun path wt => @getsize W P RT path (fst wt);
  makedirs := fun dir => recorded (CallMakedirs dir) (@makedirs W P RT dir);
  datetime_now := fun wt => @datetime_now W P RT (fst wt);
  asyncio_sleep := fun seconds =>
    recorded_act (CallSleep seconds) (@asyncio_sleep W P RT seconds);
  playwright_start := recorded_act CallPlaywrightStart (@playwright_start W P RT);
  chromium_launch := fun args =>
    recorded_act (CallLaunch args) (@chromium_launch W P RT args);
  browser_close := recorded_act CallBrowserClose (@browser_close W P RT);
  playwright_stop := recorded_act CallPlaywrightStop (@playwright_stop W P RT);
  new_page := fun options =>
    recorded (CallNewPage options) (@new_page W P RT options);
  page_route := fun page pattern handler =>
    recorded (CallRoute pattern handler) (@page_route W P RT page pattern handler);
  add_init_script := fun page script =>
    recorded (CallAddInitScript script) (@add_init_script W P RT page script);
  page_goto := fun page url wait_until timeout =>
    recorded (CallGoto url wait_until timeout)
             (@page_goto W P RT page url wait_until timeout);
  page_wait_for_selector := fun page selector timeout =>
    recorded (CallWaitForSelector selector timeout)
             (@page_wait_for_selector W P RT page selector timeout);
  page_wait_for_timeout := fun page ms =>
    recorded (CallWaitForTimeout ms) (@page_wait_for_timeout W P RT page ms);
  page_evaluate := fun page script =>
    recorded (CallEvaluate script) (@page_evaluate W P RT page script);
  page_wait_for_load_state := fun page load_state =>
    recorded (CallWaitForLoadState load_state)
             (@page_wait_for_load_state W P RT page load_state);
  page_screenshot := fun page options =>
    recorded (CallScreenshot options) (@page_screenshot W P RT page options);
  page_close := fun page => recorded CallPageClose (@page_close W P RT page)
|}.

(** The calls recorded so far, and the state without the record. *)
Definition calls_of (s : state (W * trace)) : trace := snd (world s).

Definition erase (s : state (W * trace)) : state W :=
  {| world := fst (world s); stdout := stdout s |}.

(** [c'], on the recording runtime, does what [c] does on the runtime that
    is recorded. *)
Definition mirrors {A} (c' : M (W := W * trace) A) (c : M (W := W) A)
  : Prop :=
  forall s, (erase (fst (c' s)), snd (c' s)) = c (erase s).

End Recording.

(** The record of the calls [e], attempted in this order, when one of them
    raised [x]: those before it returned, and none was made after it. *)
Definition cut_short (e : list invocation) (x : exn) (t : trace) : Prop :=
  exists front c rest,
    e = (front ++ c :: rest)%list
    /\ t = (returned front ++ [(c, Raised x)])%list.

(** [tries e c tail]: on the recording runtime, [c], inside a [try] block,
    attempts the calls [e] in this order and no other.  Either one of them
    raises: [c] raises the same exception, and no call is made after that
    one; or all of them return, and [c] goes on as [tail]. *)
Definition tries {W A : Type} (e : list invocation)
           (c tail : T (W := W * trace) A) : Prop :=
  forall s,
    (exists x front call rest,
        e = (front ++ call :: rest)%list
        /\ snd (c s) = inl x
        /\ calls_of (fst (c s))
           = (calls_of s ++ returned front ++ [(call, Raised x)])%list)
    \/ (exists s_mid l,
           calls_of s_mid = (calls_of s ++ returned e)%list
           /\ stdout s_mid = (stdout s ++ l)%list
           /\ c s = tail s_mid).

(** The options [capture_screenshot] opens its page with. *)
Definition page_options (config : ScreenshotConfig) : PageOptions := {|
  viewport := (viewport_width config, viewport_height config);
  opt_device_scale_factor := device_scale_factor config;
  opt_user_agent := user_agent config;
  is_mobile := mobile config
|}.

(** The calls [capture_screenshot] makes on the page, in their order, when
    none of them raises. *)
Definition page_calls (config : ScreenshotConfig) (url output_path : string)
  : list invocation :=
  ((if block_ads config then [CallRoute "**/*" _block_ads_handler] else [])
   ++ (if disable_animations config
       then [CallAddInitScript no_animation_script] else [])
   ++ CallGoto url (wait_for_load_state config) (wait_timeout config)
   :: (if truthy_str (wait_for_selector config)
       then [CallWaitForSelector
               (match wait_for_selector config with Some sel => sel | None => "" end)
               (wait_timeout config)]
       else [])
   ++ [CallWaitForTimeout 2000; CallEvaluate scroll_script;
       CallWaitForLoadState "networkidle";
       CallEvaluate "window.scrollTo(0, 0)"; CallWaitForTimeout 500;
       CallScreenshot (screenshot_options config output_path);
       CallPageClose])%list.

Definition capture_calls (config : ScreenshotConfig) (url output_path : string)
  : list invocation :=
  CallNewPage (page_options config) :: page_calls config url output_path.

(** The record of one capture of [url], for some output path: all its
    calls, returning, or the calls up to the first that raised. *)
Definition capture_record (config : ScreenshotConfig) (url : string)
           (t : trace) : Prop :=
  exists output_path,
    t = returned (capture_calls config url output_path)
    \/ exists x, cut_short (capture_calls config url output_path) x t.

(** The records of successive captures with a one-second sleep between
    them. *)
Fixpoint with_sleeps (segments : list trace) : trace :=
  match segments with
  | [] => []
  | segment :: rest =>
      match rest with
      | [] => segment
      | _ => (segment ++ (CallSleep 1, Returned) :: with_sleeps rest)%list
      end
  end.

(** The same with a sleep after each of them. *)
Definition each_then_sleep (segments : list trace) : trace :=
  flat_map (fun segment => (segment ++ [(CallSleep 1, Returned)])%list) segments.

(** The options that choose the input and the output directory. *)
Definition is_io_action (a : action) : bool :=
  match a with
  | StoreUrl _ | StoreFile _ | StoreOutput _ => true
  | _ => false
  end.

(** * Properties *)

(** ** Strings *)

Module PyStrFacts.
Import PyStr.

Lemma startswith_refl_app (p s : string) : startswith (p ++ s) p = true.
Proof.
  induction p as [|a p IH]; simpl.
  - reflexivity.
  - rewrite Ascii.eqb_refl. exact IH.
Qed.

Lemma startswith_split (s p : string) :
  startswith s p = true -> exists t, s = p ++ t.
Proof.
  revert s. induction p as [|a p IH]; intros s H.
  - exists s. reflexivity.
  - destruct s as [|b s]; simpl in H; [discriminate|].
    apply andb_true_iff in H. destruct H as [Hab Hs].
    apply Ascii.eqb_eq in Hab. subst b.
    destruct (IH _ Hs) as [t ->]. exists t. reflexivity.
Qed.

Lemma contains_here (needle hay : string) :
  startswith hay needle = true -> contains needle hay = true.
Proof. intro H. destruct hay; simpl; rewrite H; reflexivity. Qed.

(** [needle in hay] holds exactly when [hay] splits around [needle]. *)
Lemma contains_iff (needle hay : string) :
  contains needle hay = true <-> exists a b, hay = a ++ needle ++ b.
Proof.
  split.
  - induction hay as [|c hay IH]; simpl; intro H.
    + rewrite orb_false_r in H. apply startswith_split in H.
      destruct H as [t Ht]. exists "", t. exact Ht.
    + apply orb_true_iff in H. destruct H as [H|H].
      * apply startswith_split in H. destruct H as [t Ht].
        exists "", t. exact Ht.
      * destruct (IH H) as (a & b & ->). exists (String c a), b. reflexivity.
  - intros (a & b & ->). induction a as [|c a IH].
    + apply contains_here. exact (startswith_refl_app needle b).
    + simpl. rewrite IH. apply orb_true_r.
Qed.



Lemma contains_char_nil (c : ascii) : contains (String c "") "" = false.
Proof. reflexivity. Qed.








End PyStrFacts.




(** ** The loops of the loader *)

Lemma load_text_loop_filter (lines urls : list string) :
  load_text_loop lines urls
  = (urls ++ filter has_url_prefix (map PyStr.strip lines))%list.
Proof.
  revert urls. induction lines as [|line rest IH]; intro urls; simpl.
  - now rewrite app_nil_r.
  - destruct (has_url_prefix (PyStr.strip line)) eqn:E.
    + assert (N : PyStr.nonempty (PyStr.strip line) = true).
      { destruct (PyStr.strip line); [discriminate | reflexivity]. }
      rewrite N, IH, <- app_assoc. reflexivity.
    + rewrite andb_false_r. apply IH.
Qed.

Lemma load_csv_loop_filter (rows : list (list string)) (urls : list string) :
  load_csv_loop rows urls
  = (urls ++ filter has_url_prefix (map PyStr.strip (column0 rows)))%list.
Proof.
  revert urls. induction rows as [|row rest IH]; intro urls; simpl.
  - now rewrite app_nil_r.
  - destruct row as [|cell others]; simpl.
    + apply IH.
    + destruct (has_url_prefix (PyStr.strip cell)) eqn:E.
      * assert (N : PyStr.nonempty (PyStr.strip cell) = true).
        { destruct (PyStr.strip cell); [discriminate | reflexivity]. }
        rewrite N, IH, <- app_assoc. reflexivity.
      * destruct (PyStr.nonempty (PyStr.strip cell)); apply IH.
Qed.

(** ** The command line *)

Lemma run_action_keeps_flags (ns : Namespace) (a : action) :
  Args.no_animations ns = true -> Args.no_ads ns = true ->
  Args.no_animations (run_action ns a) = true
  /\ Args.no_ads (run_action ns a) = true.
Proof. destruct ns, a; simpl; intros; subst; split; reflexivity. Qed.

Lemma actions_keep_flags (acts : list action) (ns : Namespace) :
  Args.no_animations ns = true -> Args.no_ads ns = true ->
  Args.no_animations (fold_left run_action acts ns) = true
  /\ Args.no_ads (fold_left run_action acts ns) = true.
Proof.
  revert ns. induction acts as [|a acts IH]; intros ns H1 H2; simpl.
  - split; assumption.
  - destruct (run_action_keeps_flags ns a H1 H2) as [H1' H2'].
    apply IH; assumption.
Qed.

(** C3: whatever the command line, the configuration [main] builds has
    [disable_animations] and [block_ads] set: both options are [store_true]
    with default [True], so every sequence of option occurrences, and hence
    every argument list argparse accepts, leaves both attributes [True]. *)
Theorem cli_cannot_disable_animations_or_ads :
  (forall acts : list action,
      let config := make_config (fold_left run_action acts default_namespace) in
      disable_animations config = true /\ block_ads config = true)
  /\ (forall (argv : list string) (args : Namespace),
         parse_args argv = Parsed args ->
         disable_animations (make_config args) = true
         /\ block_ads (make_config args) = true).
Proof.
  assert (A : forall acts : list action,
             let config := make_config (fold_left run_action acts default_namespace) in
             disable_animations config = true /\ block_ads config = true).
  { intros acts. simpl. apply actions_keep_flags; reflexivity. }
  split; [exact A|].
  intros argv args H. unfold parse_args in H.
  destruct (recognise false false argv) as [acts|code]; [|discriminate].
  injection H as <-. apply A.
Qed.

Lemma cli_cannot_disable_animations_or_ads_witness :
  parse_args ["-u"; "https://example.com"; "--no-ads"; "--no-animations"]
  = Parsed (fold_left run_action
              [StoreUrl "https://example.com"; StoreTrueNoAds; StoreTrueNoAnimations]
              default_namespace)
  /\ disable_animations
       (make_config (fold_left run_action
                       [StoreUrl "https://example.com"; StoreTrueNoAds;
                        StoreTrueNoAnimations] default_namespace)) = true
  /\ block_ads
       (make_config (fold_left run_action
                       [StoreUrl "https://example.com"; StoreTrueNoAds;
                        StoreTrueNoAnimations] default_namespace)) = true.
Proof.
  split; [reflexivity|].
  apply (proj2 cli_cannot_disable_animations_or_ads
           ["-u"; "https://example.com"; "--no-ads"; "--no-animations"]).
  reflexivity.
Defined.

(** ** The request-interception handler *)

Lemma any_blocked_iff (url : string) :
  any_blocked url = true
  <-> exists domain a b, In domain blocked_domains /\ url = a ++ domain ++ b.
Proof.
  unfold any_blocked. rewrite existsb_exists. split.
  - intros (domain & Hin & Hc). apply PyStrFacts.contains_iff in Hc.
    destruct Hc as (a & b & E). exists domain, a, b. split; assumption.
  - intros (domain & a & b & Hin & E). exists domain. split; [assumption|].
    apply PyStrFacts.contains_iff. exists a, b. exact E.
Qed.

(** C5: the handler makes exactly the call the deny-list policy makes: it
    aborts a request whose URL contains a deny-listed domain and continues
    every other request; the resource type of the request has no influence. *)
Theorem block_ads_handler_is_deny_list_policy :
  forall request : Request,
    _block_ads_handler request = deny_list_policy request
    /\ (_block_ads_handler request = [Abort]
        <-> exists domain a b,
              In domain blocked_domains
              /\ request_url request = a ++ domain ++ b)
    /\ (_block_ads_handler request = [Continue]
        <-> ~ exists domain a b,
                In domain blocked_domains
                /\ request_url request = a ++ domain ++ b)
    /\ (forall kind : string,
           _block_ads_handler
             {| request_url := request_url request; resource_type := kind |}
           = _block_ads_handler request).
Proof.
  intros [url kind]. unfold _block_ads_handler, deny_list_policy.
  cbn [request_url resource_type].
  pose proof (any_blocked_iff url) as B.
  destruct (any_blocked url) eqn:E.
  - split; [reflexivity|]. split; [|split].
    + split; [intros _; apply B; reflexivity | reflexivity].
    + split; [discriminate | intros H; exfalso; apply H, B; reflexivity].
    + reflexivity.
  - assert (N : ~ exists domain a b,
                   In domain blocked_domains /\ url = a ++ domain ++ b).
    { intro H. apply B in H. discriminate. }
    split; [|split; [|split]].
    + match goal with |- context [existsb ?f ?l] => destruct (existsb f l) end;
        reflexivity.
    + match goal with |- context [existsb ?f ?l] => destruct (existsb f l) end;
        (split; [discriminate | intro H; contradiction]).
    + match goal with |- context [existsb ?f ?l] => destruct (existsb f l) end;
        (split; [intros _; exact N | reflexivity]).
    + intros kind'.
      repeat match goal with
             | |- context [existsb ?f ?l] => destruct (existsb f l)
             end; reflexivity.
Qed.

(** ** The quality option *)

Lemma screenshot_quality (config : ScreenshotConfig) (path : string) :
  opt_quality (screenshot_options config path)
  = if String.eqb (output_format config) "jpeg" && truthy_int (output_quality config)
    then output_quality config else None.
Proof.
  unfold screenshot_options.
  destruct (String.eqb (output_format config) "jpeg" && truthy_int (output_quality config));
    reflexivity.
Qed.

(** C10: [page.screenshot] is given a quality exactly when the format is
    jpeg and the configured quality is a non-zero number.  A configuration
    built for format png has no quality whatever [--quality] says, and with
    format jpeg and quality 0 the option is left out. *)
Theorem quality_only_for_jpeg_and_nonzero :
  (forall (config : ScreenshotConfig) (path : string) (q : Z),
      opt_quality (screenshot_options config path) = Some q
      <-> output_format config = "jpeg"
          /\ output_quality config = Some q /\ q <> 0%Z)
  /\ (forall (config : ScreenshotConfig) (path : string),
         opt_quality (screenshot_options config path) = None
         <-> output_format config <> "jpeg"
             \/ output_quality config = None
             \/ output_quality config = Some 0%Z)
  /\ (forall (args : Namespace) (path : string),
         Args.format args = "png" ->
         output_quality (make_config args) = None
         /\ opt_quality (screenshot_options (make_config args) path) = None)
  /\ (forall (args : Namespace) (path : string),
         Args.format args = "jpeg" -> Args.quality args = 0%Z ->
         output_quality (make_config args) = Some 0%Z
         /\ opt_quality (screenshot_options (make_config args) path) = None).
Proof.
  split; [|split; [|split]].
  - intros config path q. rewrite screenshot_quality.
    destruct (String.eqb_spec (output_format config) "jpeg") as [F|F];
      cbn [andb].
    + destruct (output_quality config) as [q'|]; cbn [truthy_int].
      * destruct (Z.eqb_spec q' 0) as [Z0|Z0]; cbn [negb].
        -- subst q'. split; [discriminate|]. intros (_ & Q & N).
           injection Q as <-. contradiction.
        -- split.
           ++ intros Q. injection Q as <-. repeat split; assumption.
           ++ intros (_ & Q & _). exact Q.
      * split; [discriminate|]. intros (_ & Q & _). discriminate.
    + split; [discriminate|]. intros (F' & _). contradiction.
  - intros config path. rewrite screenshot_quality.
    destruct (String.eqb_spec (output_format config) "jpeg") as [F|F];
      cbn [andb].
    + destruct (output_quality config) as [q'|]; cbn [truthy_int].
      * destruct (Z.eqb_spec q' 0) as [Z0|Z0]; cbn [negb].
        -- subst q'. split; [intros _; right; right; reflexivity | reflexivity].
        -- split; [discriminate|].
           intros [F' | [Q | Q]]; [contradiction | discriminate | congruence].
      * split; [intros _; right; left; reflexivity | reflexivity].
    + split; [intros _; left; exact F | reflexivity].
  - intros args path F.
    assert (Q : output_quality (make_config args) = None).
    { unfold make_config. cbn [output_quality]. rewrite F. reflexivity. }
    split; [exact Q|]. rewrite screenshot_quality, Q.
    cbn [truthy_int]. rewrite andb_false_r. reflexivity.
  - intros args path F Q0.
    assert (Q : output_quality (make_config args) = Some 0%Z).
    { unfold make_config. cbn [output_quality]. rewrite F, Q0. reflexivity. }
    split; [exact Q|]. rewrite screenshot_quality, Q.
    cbn [truthy_int Z.eqb negb]. rewrite andb_false_r. reflexivity.
Qed.

Lemma quality_only_for_jpeg_and_nonzero_witness :
  (exists args,
      parse_args ["-u"; "https://example.com"; "--format"; "png"; "--quality"; "50"]
      = Parsed args
      /\ Args.format args = "png" /\ Args.quality args = 50%Z
      /\ output_quality (make_config args) = None
      /\ opt_quality (screenshot_options (make_config args) "shot.png") = None)
  /\ (exists args,
         parse_args ["-u"; "https://example.com"; "--format"; "jpeg"; "--quality"; "0"]
         = Parsed args
         /\ Args.format args = "jpeg" /\ Args.quality args = 0%Z
         /\ output_quality (make_config args) = Some 0%Z
         /\ opt_quality (screenshot_options (make_config args) "shot.jpeg") = None)
  /\ (output_format
        {| viewport_width := 1920; viewport_height := 1080;
           device_scale_factor := "2.0"; full_page := true;
           wait_timeout := 30000; wait_for_selector := None;
           wait_for_load_state := "networkidle"; disable_animations := true;
           block_ads := true; output_format := "jpeg";
           output_quality := Some 80%Z; mobile := false; user_agent := None |}
      = "jpeg"
      /\ opt_quality
           (screenshot_options
              {| viewport_width := 1920; viewport_height := 1080;
                 device_scale_factor := "2.0"; full_page := true;
                 wait_timeout := 30000; wait_for_selector := None;
                 wait_for_load_state := "networkidle"; disable_animations := true;
                 block_ads := true; output_format := "jpeg";
                 output_quality := Some 80%Z; mobile := false; user_agent := None |}
              "shot.jpeg")
         = Some 80%Z).
Proof.
  destruct quality_only_for_jpeg_and_nonzero as (Hsome & _ & Hpng & Hzero).
  split; [|split].
  - eexists. split; [reflexivity|]. split; [reflexivity|]. split; [reflexivity|].
    apply Hpng. reflexivity.
  - eexists. split; [reflexivity|]. split; [reflexivity|]. split; [reflexivity|].
    apply Hzero; reflexivity.
  - split; [reflexivity|]. apply Hsome.
    split; [reflexivity|]. split; [reflexivity|]. discriminate.
Defined.

(** ** Reading the output of a sequence *)

Lemma verdicts_of_app (l1 l2 : list message) :
  verdicts_of (l1 ++ l2) = (verdicts_of l1 ++ verdicts_of l2)%list.
Proof. apply flat_map_app. Qed.

Lemma errors_of_app (l1 l2 : list message) :
  errors_of (l1 ++ l2) = (errors_of l1 ++ errors_of l2)%list.
Proof. apply flat_map_app. Qed.

Lemma listed_of_app (l1 l2 : list message) :
  listed_of (l1 ++ l2) = (listed_of l1 ++ listed_of l2)%list.
Proof. apply flat_map_app. Qed.

Lemma summaries_of_app (l1 l2 : list message) :
  summaries_of (l1 ++ l2) = (summaries_of l1 ++ summaries_of l2)%list.
Proof. apply flat_map_app. Qed.

Lemma processing_of_app (l1 l2 : list message) :
  processing_of (l1 ++ l2) = (processing_of l1 ++ processing_of l2)%list.
Proof. apply flat_map_app. Qed.

Create Rewrite HintDb log.
#[local] Hint Rewrite verdicts_of_app errors_of_app listed_of_app
  summaries_of_app processing_of_app @app_nil_r @app_nil_l : log.

Lemma silent_nil : silent [].
Proof. repeat split. Qed.

Lemma silent_app (l1 l2 : list message) :
  silent l1 -> silent l2 -> silent (l1 ++ l2)%list.
Proof.
  unfold silent. intros (A1 & A2 & A3 & A4 & A5) (B1 & B2 & B3 & B4 & B5).
  autorewrite with log.
  rewrite A1, A2, A3, A4, A5, B1, B2, B3, B4, B5. repeat split.
Qed.

Section Output.

Context {W P : Type} {RT : Runtime W P}.

Local Abbreviation prog := (M (W:=W)).
Local Abbreviation tried := (T (W:=W)).

Lemma emits_ret {A} (a : A) (Q : A -> list message -> Prop) :
  Q a [] -> emits (W:=W) (ret a) Q.
Proof. intros H s. exists []. simpl. rewrite app_nil_r. split; [reflexivity | exact H]. Qed.

Lemma emits_bind {A B} (c : prog A) (k : A -> prog B)
      (Q1 : A -> list message -> Prop) (Q2 : A -> B -> list message -> Prop)
      (Q : B -> list message -> Prop) :
  emits c Q1 ->
  (forall a, emits (k a) (Q2 a)) ->
  (forall a b l1 l2, Q1 a l1 -> Q2 a b l2 -> Q b (l1 ++ l2)%list) ->
  emits (bind c k) Q.
Proof.
  intros Hc Hk HQ s. unfold bind.
  destruct (Hc s) as (l1 & E1 & H1).
  destruct (c s) as [s1 a] eqn:Ec. simpl in E1, H1.
  destruct (Hk a s1) as (l2 & E2 & H2).
  exists (l1 ++ l2)%list. split.
  - rewrite E2, E1, app_assoc. reflexivity.
  - apply HQ with (a := a); assumption.
Qed.

Lemma emits_weaken {A} (c : prog A) (Q Q' : A -> list message -> Prop) :
  emits c Q -> (forall a l, Q a l -> Q' a l) -> emits c Q'.
Proof.
  intros H I s. destruct (H s) as (l & E & HQ). exists l. split; auto.
Qed.

Lemma emits_print (m : message) :
  emits (W:=W) (print m) (fun _ l => l = [m]).
Proof. intro s. exists [m]. split; reflexivity. Qed.

Lemma quiet_ret {A} (a : A) : quiet (W:=W) (ret a).
Proof. apply emits_ret, silent_nil. Qed.

Lemma quiet_bind {A B} (c : prog A) (k : A -> prog B) :
  quiet c -> (forall a, quiet (k a)) -> quiet (bind c k).
Proof.
  intros Hc Hk.
  apply emits_bind with (Q1 := fun _ l => silent l) (Q2 := fun _ _ l => silent l);
    auto using silent_app.
Qed.

Lemma quiet_act (f : W -> W) : quiet (W:=W) (act f).
Proof. intro s. exists []. simpl. rewrite app_nil_r. split; [reflexivity | apply silent_nil]. Qed.

Lemma quiet_ask {A} (f : W -> A) : quiet (W:=W) (ask f).
Proof. intro s. exists []. simpl. rewrite app_nil_r. split; [reflexivity | apply silent_nil]. Qed.

Lemma quiet_call {A} (f : W -> W * result A) : quiet (W:=W) (call f).
Proof.
  intro s. exists []. unfold call. destruct (f (world s)). simpl.
  rewrite app_nil_r. split; [reflexivity | apply silent_nil].
Qed.

Lemma quiet_retT {A} (a : A) : quiet (W:=W) (retT a).
Proof. apply quiet_ret. Qed.

Lemma quiet_bindT {A B} (c : tried A) (k : A -> tried B) :
  quiet c -> (forall a, quiet (k a)) -> quiet (bindT c k).
Proof.
  intros Hc Hk s. unfold bindT.
  destruct (Hc s) as (l1 & E1 & H1).
  destruct (c s) as [s1 [e|a]] eqn:Ec; simpl in E1.
  - exists l1. split; assumption.
  - destruct (Hk a s1) as (l2 & E2 & H2).
    exists (l1 ++ l2)%list. split.
    + rewrite E2, E1, app_assoc. reflexivity.
    + apply silent_app; assumption.
Qed.

Lemma quiet_when (b : bool) (c : tried unit) : quiet c -> quiet (when b c).
Proof. intro H. destruct b; [exact H | apply quiet_retT]. Qed.

Lemma quiet_say_loading (url : string) : quiet (W:=W) (say (MsgLoadingUrl url)).
Proof. intro s. exists [MsgLoadingUrl url]. split; [reflexivity | repeat split]. Qed.

Lemma quiet_say_capturing : quiet (W:=W) (say MsgCapturing).
Proof. intro s. exists [MsgCapturing]. split; [reflexivity | repeat split]. Qed.

Lemma quiet_print_plain (m : message) :
  silent [m] -> quiet (W:=W) (print m).
Proof. intros H s. exists [m]. split; [reflexivity | exact H]. Qed.

Lemma quiet_screeny_enter : quiet (W:=W) screeny_enter.
Proof. apply quiet_bind; intros; apply quiet_act. Qed.

Lemma quiet_screeny_exit : quiet (W:=W) screeny_exit.
Proof. apply quiet_bind; intros; apply quiet_act. Qed.

Lemma quiet_timestamp_now : quiet (W:=W) timestamp_now.
Proof. apply quiet_ask. Qed.

End Output.

Create HintDb quiet.
#[local] Hint Resolve quiet_ret quiet_act quiet_ask quiet_call quiet_retT
  quiet_when quiet_say_loading quiet_say_capturing quiet_screeny_enter
  quiet_screeny_exit quiet_timestamp_now silent_nil : quiet.

(** ** [capture_screenshot] *)

Section Capture.

Context {W P : Type} {RT : Runtime W P}.

Local Abbreviation tried := (T (W:=W)).

Lemma try_log_bind {A} (c : tried A) (k : A -> tried bool) :
  quiet c -> (forall a, emits (k a) try_log) -> emits (bindT c k) try_log.
Proof.
  intros Hc Hk s. unfold bindT.
  destruct (Hc s) as (l1 & E1 & (S1 & S2 & S3 & S4 & S5)).
  destruct (c s) as [s1 [e|a]] eqn:Ec; simpl in E1.
  - exists l1. split; [exact E1|]. repeat split; assumption.
  - destruct (Hk a s1) as (l2 & E2 & (T2 & T3 & T4 & T5 & T1)).
    exists (l1 ++ l2)%list. split.
    + rewrite E2, E1, app_assoc. reflexivity.
    + unfold try_log. autorewrite with log.
      rewrite S1, S2, S3, S4, S5, T2, T3, T4, T5. simpl.
      repeat split. exact T1.
Qed.

Lemma try_log_saved (path : string) (size : Z) :
  emits (W:=W) (bindT (say (MsgSaved path size)) (fun _ => retT true)) try_log.
Proof.
  intro s. exists [MsgSaved path size]. split; [reflexivity|].
  repeat split.
Qed.

Lemma capture_try_log (config : ScreenshotConfig) (url output_path : string) :
  emits (capture_try config url output_path) try_log.
Proof.
  unfold capture_try.
  repeat (apply try_log_bind; [solve [auto with quiet] | intro]).
  apply try_log_saved.
Qed.

(** The handler of [capture_screenshot] turns an exception of the [try]
    block into [False] and an error line; a block that returns, returns
    [True]. *)
Lemma capture_screenshot_cases (config : ScreenshotConfig)
      (url output_path : string) (s : state W) :
  match capture_try config url output_path s with
  | (s1, inl e) =>
      capture_screenshot config url output_path s
      = ({| world := world s1;
            stdout := stdout s1 ++ [MsgErrorCapturing url (exn_text e)] |},
         false)
  | (s1, inr b) =>
      b = true /\ capture_screenshot config url output_path s = (s1, true)
  end.
Proof.
  unfold capture_screenshot, bind.
  destruct (capture_try_log config url output_path s) as (l & _ & H).
  destruct (capture_try config url output_path s) as [s1 [e|b]]; simpl in H.
  - reflexivity.
  - destruct H as (_ & _ & _ & _ & -> & _). split; reflexivity.
Qed.

Lemma capture_screenshot_log (config : ScreenshotConfig)
      (url output_path : string) :
  emits (capture_screenshot config url output_path) (capture_log url).
Proof.
  intro s.
  destruct (capture_try_log config url output_path s) as (l & E & H).
  pose proof (capture_screenshot_cases config url output_path s) as C.
  destruct (capture_try config url output_path s) as [s1 [e|b]];
    simpl in E, H.
  - rewrite C. simpl. exists (l ++ [MsgErrorCapturing url (exn_text e)])%list.
    split; [rewrite E, app_assoc; reflexivity|].
    destruct H as (H2 & H3 & H4 & H5 & H1).
    unfold capture_log. autorewrite with log.
    rewrite H1, H2, H3, H4, H5. repeat split.
  - destruct C as [-> C]. rewrite C. simpl. exists l.
    split; [exact E|].
    destruct H as (H2 & H3 & H4 & H5 & _ & H1).
    unfold capture_log. rewrite H1, H2, H3, H4, H5. repeat split.
Qed.

End Capture.

(** ** The result dictionary *)

Module DictFacts.

Lemma in_keys_set (u key : string) (value : bool) (d : dict) :
  In u (keys (dict_set key value d)) <-> u = key \/ In u (keys d).
Proof.
  induction d as [|[k v] d IH]; simpl.
  - intuition.
  - destruct (String.eqb_spec k key) as [E|E]; simpl.
    + subst k. intuition.
    + rewrite IH. intuition.
Qed.

Lemma nodup_keys_set (key : string) (value : bool) (d : dict) :
  NoDup (keys d) -> NoDup (keys (dict_set key value d)).
Proof.
  induction d as [|[k v] d IH]; simpl; intro H.
  - constructor; [intros [] | constructor].
  - inversion H as [|? ? Hk Hd]; subst.
    destruct (String.eqb_spec k key) as [E|E]; simpl.
    + constructor; assumption.
    + constructor; [|apply IH; assumption].
      intro Hin. fold (keys (dict_set key value d)) in Hin.
      apply in_keys_set in Hin. destruct Hin as [->|Hin]; contradiction.
Qed.

Lemma get_set (u key : string) (value : bool) (d : dict) :
  dict_get u (dict_set key value d)
  = if String.eqb key u then Some value else dict_get u d.
Proof.
  induction d as [|[k v] d IH]; simpl.
  - reflexivity.
  - destruct (String.eqb_spec k key) as [E|E]; simpl.
    + subst k. destruct (String.eqb key u); reflexivity.
    + destruct (String.eqb_spec k u) as [F|F].
      * subst k. destruct (String.eqb_spec key u); congruence.
      * exact IH.
Qed.

Lemma get_none (u : string) (d : dict) :
  dict_get u d = None -> ~ In u (keys d).
Proof.
  induction d as [|[k v] d IH]; simpl; intros H K.
  - exact K.
  - destruct (String.eqb_spec k u) as [Q|Q]; [discriminate|].
    destruct K as [K|K]; [contradiction | exact (IH H K)].
Qed.

Lemma get_app (u : string) (d1 d2 : dict) :
  dict_get u (d1 ++ d2)%list
  = match dict_get u d1 with Some b => Some b | None => dict_get u d2 end.
Proof.
  induction d1 as [|[k v] d1 IH]; simpl.
  - reflexivity.
  - destruct (String.eqb k u); [reflexivity | exact IH].
Qed.

(** A key that is absent is added at the end. *)
Lemma set_fresh (key : string) (value : bool) (d : dict) :
  ~ In key (keys d) -> dict_set key value d = (d ++ [(key, value)])%list.
Proof.
  induction d as [|[k v] d IH]; simpl; intro H.
  - reflexivity.
  - destruct (String.eqb_spec k key) as [E|E].
    + exfalso. apply H. left. exact E.
    + rewrite IH; [reflexivity|]. intro Hin. apply H. right. exact Hin.
Qed.

Lemma in_keys_fold (u : string) (outcomes : list (string * bool)) (d : dict) :
  In u (keys (fold_left set_outcome outcomes d))
  <-> In u (keys d) \/ In u (map fst outcomes).
Proof.
  revert d. induction outcomes as [|[k v] os IH]; intro d; simpl.
  - intuition.
  - rewrite IH. unfold set_outcome. simpl. rewrite in_keys_set. intuition.
Qed.

Lemma nodup_keys_fold (outcomes : list (string * bool)) (d : dict) :
  NoDup (keys d) -> NoDup (keys (fold_left set_outcome outcomes d)).
Proof.
  revert d. induction outcomes as [|o os IH]; intros d H; simpl.
  - exact H.
  - apply IH. apply nodup_keys_set. exact H.
Qed.

(** The value under a key is the result of its last capture. *)
Lemma get_fold (u : string) (outcomes : list (string * bool)) (d : dict) :
  dict_get u (fold_left set_outcome outcomes d)
  = match last_result u outcomes with
    | Some b => Some b
    | None => dict_get u d
    end.
Proof.
  revert d. induction outcomes as [|[k v] os IH]; intro d.
  - reflexivity.
  - cbn [fold_left]. rewrite IH. unfold last_result. cbn [rev].
    rewrite get_app. destruct (dict_get u (rev os)); [reflexivity|].
    unfold set_outcome. cbn [fst snd dict_get]. rewrite get_set.
    destruct (String.eqb k u); reflexivity.
Qed.

(** Distinct new keys are added in order. *)
Lemma fold_fresh (outcomes : list (string * bool)) (d : dict) :
  NoDup (map fst outcomes) ->
  (forall u, In u (map fst outcomes) -> ~ In u (keys d)) ->
  fold_left set_outcome outcomes d = (d ++ outcomes)%list.
Proof.
  revert d. induction outcomes as [|[k v] os IH]; intros d N F.
  - simpl. now rewrite app_nil_r.
  - cbn [fold_left]. inversion N as [|? ? Hk Hos]; subst.
    unfold set_outcome at 2. cbn [fst snd].
    rewrite set_fresh by (apply F; left; reflexivity).
    rewrite IH.
    + rewrite <- app_assoc. reflexivity.
    + exact Hos.
    + intros u Hu Hin. unfold keys in Hin. rewrite map_app in Hin.
      apply in_app_or in Hin. destruct Hin as [Hin|Hin].
      * apply (F u); [right; exact Hu | exact Hin].
      * simpl in Hin. destruct Hin as [<-|[]]. contradiction.
Qed.

Lemma sum_bools_le (l : list bool) : sum_bools l <= length l.
Proof. apply filter_length_le. Qed.

(** [sum(values)] and the failed entries add up to the length. *)
Lemma sum_bools_failed (d : dict) :
  sum_bools (values d) + length (failed_of d) = length d.
Proof.
  unfold sum_bools, values, failed_of.
  induction d as [|[k v] d IH]; simpl; [reflexivity|].
  destruct v; simpl; lia.
Qed.

(** The dictionary is no longer than the list of captures, and shorter
    exactly when a URL was captured twice. *)
Lemma fold_length (outcomes : list (string * bool)) :
  length (fold_left set_outcome outcomes []) <= length outcomes
  /\ (length (fold_left set_outcome outcomes []) < length outcomes
      <-> ~ NoDup (map fst outcomes)).
Proof.
  set (results := fold_left set_outcome outcomes []).
  assert (ND : NoDup (keys results)).
  { apply nodup_keys_fold. constructor. }
  assert (IN : forall u, In u (keys results) <-> In u (map fst outcomes)).
  { intro u. unfold results. rewrite in_keys_fold. simpl. intuition. }
  assert (LK : length (keys results) = length results) by apply length_map.
  assert (LM : length (map fst outcomes) = length outcomes) by apply length_map.
  assert (LE : length results <= length outcomes).
  { rewrite <- LK, <- LM. apply NoDup_incl_length; [exact ND|].
    intros u Hin. apply IN. exact Hin. }
  split; [exact LE|]. split.
  - intros Lt N.
    assert (F : results = outcomes).
    { unfold results. apply (fold_fresh outcomes []); [exact N|].
      intros u _ []. }
    rewrite F in Lt. lia.
  - intros N.
    destruct (Nat.lt_ge_cases (length results) (length outcomes)) as [Lt|Ge];
      [exact Lt|].
    exfalso. apply N.
    apply NoDup_incl_NoDup with (l := keys results); [exact ND | lia |].
    intros u Hin. apply IN. exact Hin.
Qed.

End DictFacts.

(** ** [batch_capture] and the summary *)

Section Batch.

Context {W P : Type} {RT : Runtime W P}.

Lemma all_parse_refused (before after : list string) (url : string) (e : exn) :
  all_parse (W:=W) (before ++ url :: after) -> urlparse_raises url <> Some e.
Proof.
  intros H U. apply Forall_app in H. destruct H as [_ H].
  apply Forall_inv in H. congruence.
Qed.

(** The loop captures the URLs in order and records every result, until
    [urlparse] raises or the list is used up. *)
Lemma batch_loop_run (config : ScreenshotConfig) (output_dir : string)
      (name_template : template) (n : nat) :
  forall (urls : list string) (i : nat) (d : dict) (s s' : state W)
         (r : result dict),
    batch_loop config output_dir name_template n i urls d s = (s', r) ->
    exists l,
      stdout s' = (stdout s ++ l)%list
      /\ match r with
         | inr results =>
             loop_returned config n i urls d (world s) (world s') results l
         | inl e => loop_raised config n i urls (world s) (world s') e l
         end.
Proof.
  induction urls as [|url rest IH]; intros i d s s' r Run.
  - injection Run as <- <-. exists []. rewrite app_nil_r. split; [reflexivity|].
    split; [constructor|]. exists []. repeat split. constructor.
  - cbn [batch_loop] in Run.
    unfold bindT, say, print, raise_if, timestamp_now, ask in Run.
    unfold ok at 1 2 in Run.
    cbn [fst snd world stdout] in Run.
    destruct (urlparse_raises url) as [e|] eqn:U.
    + injection Run as <- <-. exists [MsgProcessing i n url].
      split; [reflexivity|].
      exists [], url, rest, []. repeat split; try constructor. exact U.
    + match type of Run with
      | context [capture_screenshot ?c ?u ?p ?s1] =>
          destruct (capture_screenshot_log c u p s1) as (lc & Ec & Hc);
          destruct (capture_screenshot c u p s1) as [s2 b] eqn:Cap
      end.
      cbn [fst snd stdout] in Ec, Hc.
      assert (Es : exists s3,
                 (if (i <? n)%nat then ok (act (asyncio_sleep 1)) else retT tt) s2
                 = (s3, inr tt)
                 /\ stdout s3 = stdout s2
                 /\ (world s3 = world s2
                     \/ world s3 = asyncio_sleep 1 (world s2))).
      { destruct (i <? n)%nat; eexists; (split; [reflexivity|]);
          (split; [reflexivity|]); [right | left]; reflexivity. }
      destruct Es as (s3 & Es & E3 & W3). rewrite Es in Run.
      destruct (IH (S i) (dict_set url b d) s3 s' r Run) as (l' & E' & H').
      exists ([MsgProcessing i n url] ++ lc ++ l')%list. split.
      { rewrite E', E3, Ec. rewrite <- !app_assoc. reflexivity. }
      assert (Next : forall os w',
                 captures config rest (world s3) os w' ->
                 captures config (url :: rest) (world s) ((url, b) :: os) w').
      { intros os w' Hc'. eapply captures_next; [exact Cap | | exact Hc'].
        destruct W3 as [-> | ->]; [left | right]; reflexivity. }
      destruct Hc as (C1 & C2 & C3 & C4 & C5).
      destruct r as [e|results].
      * destruct H' as (before & bad & after & os & -> & A & R & Hu & Hc' & Hl).
        exists (url :: before), bad, after, ((url, b) :: os).
        split; [reflexivity|].
        split; [constructor; assumption|].
        split; [exact R|].
        split; [simpl; now rewrite Hu|].
        destruct Hl as (L1 & L2 & L3 & L4 & L5).
        split.
        { eapply captures_next; [exact Cap | | exact Hc'].
          destruct W3 as [-> | ->]; [left | right]; reflexivity. }
        unfold aborted_log. autorewrite with log.
        rewrite C1, C2, C3, C4, C5, L1, L2, L3, L4, L5.
        unfold failed_of. cbn [map snd fst numbered filter app].
        destruct b; repeat split.
      * destruct H' as (A & os & Hu & Hc' & Hr & Hl).
        split; [constructor; assumption|].
        exists ((url, b) :: os).
        split; [simpl; now rewrite Hu|].
        split; [apply Next; exact Hc'|].
        split; [exact Hr|].
        destruct Hl as (L1 & L2 & L3 & L4 & L5).
        unfold batch_log. autorewrite with log.
        rewrite C1, C2, C3, C4, C5, L1, L2, L3, L4, L5.
        unfold failed_of. cbn [map snd fst numbered filter].
        destruct b; repeat split.
Qed.

(** [batch_capture] is its loop, from the world [os.makedirs] leaves,
    unless [os.makedirs] raises. *)
Lemma batch_capture_cases (config : ScreenshotConfig) (urls : list string)
      (output_dir : string) (name_template : template) (s : state W) :
  batch_capture config urls output_dir name_template s
  = match snd (makedirs output_dir (world s)) with
    | inl e =>
        ({| world := fst (makedirs output_dir (world s)); stdout := stdout s |},
         inl e)
    | inr _ =>
        batch_loop config output_dir name_template (length urls) 1 urls []
          {| world := fst (makedirs output_dir (world s)); stdout := stdout s |}
    end.
Proof.
  unfold batch_capture, bindT, call.
  destruct (makedirs output_dir (world s)) as [w1 [e|[]]]; reflexivity.
Qed.

(** A batch in which [os.makedirs] and [urlparse] return captures every
    URL and returns the dictionary of the results. *)
Lemma batch_capture_returns (config : ScreenshotConfig) (urls : list string)
      (output_dir : string) (name_template : template) (s : state W) :
  snd (makedirs output_dir (world s)) = inr tt ->
  all_parse urls ->
  exists l outcomes,
    stdout (fst (batch_capture config urls output_dir name_template s))
    = (stdout s ++ l)%list
    /\ map fst outcomes = urls
    /\ captures config urls (fst (makedirs output_dir (world s))) outcomes
         (world (fst (batch_capture config urls output_dir name_template s)))
    /\ snd (batch_capture config urls output_dir name_template s)
       = inr (fold_left set_outcome outcomes [])
    /\ batch_log (length urls) 1 outcomes l.
Proof.
  intros Hm Hp. rewrite batch_capture_cases, Hm.
  match goal with
  | |- context [batch_loop ?c ?o ?t ?n ?i ?u ?d ?s1] =>
      destruct (batch_loop c o t n i u d s1) as [s2 r] eqn:Run;
      destruct (batch_loop_run c o t n u i d s1 s2 r Run) as (l & E & H)
  end.
  cbn [fst snd world stdout] in E, H |- *.
  destruct r as [e|results].
  - destruct H as (before & bad & after & os & -> & _ & R & _).
    exfalso. exact (all_parse_refused before after bad e Hp R).
  - destruct H as (_ & os & Hu & Hc & -> & Hl).
    exists l, os. split; [exact E|]. split; [exact Hu|]. split; [exact Hc|].
    split; [reflexivity | exact Hl].
Qed.

(** The three ways [batch_capture] ends. *)
Lemma batch_capture_run (config : ScreenshotConfig) (urls : list string)
      (output_dir : string) (name_template : template) (s s' : state W)
      (r : result dict) :
  batch_capture config urls output_dir name_template s = (s', r) ->
  exists l,
    stdout s' = (stdout s ++ l)%list
    /\ match r with
       | inr results =>
           snd (makedirs output_dir (world s)) = inr tt
           /\ loop_returned config (length urls) 1 urls []
                (fst (makedirs output_dir (world s))) (world s') results l
       | inl e =>
           (snd (makedirs output_dir (world s)) = inl e
            /\ l = [] /\ world s' = fst (makedirs output_dir (world s)))
           \/ (snd (makedirs output_dir (world s)) = inr tt
               /\ loop_raised config (length urls) 1 urls
                    (fst (makedirs output_dir (world s))) (world s') e l)
       end.
Proof.
  rewrite batch_capture_cases.
  destruct (snd (makedirs output_dir (world s))) as [e|[]] eqn:Hm.
  - intro H. injection H as <- <-. exists []. rewrite app_nil_r.
    split; [reflexivity|]. left. repeat split.
  - intro Run. destruct (batch_loop_run _ _ _ _ _ _ _ _ _ _ Run) as (l & E & H).
    cbn [world stdout] in E, H. exists l. split; [exact E|].
    destruct r as [e|results]; [right|]; split; (reflexivity || exact H).
Qed.

Lemma print_failed_log (items : dict) :
  emits (W:=W) (print_failed items)
        (fun _ l =>
           listed_of l = failed_of items /\ verdicts_of l = []
           /\ errors_of l = [] /\ summaries_of l = [] /\ processing_of l = []).
Proof.
  induction items as [|[url success] rest IH]; intro s.
  - exists []. simpl. rewrite app_nil_r. repeat split.
  - cbn [print_failed]. unfold bind.
    destruct success; cbn [negb ret print fst snd].
    + destruct (IH s) as (l & E & H). exists l. split; [exact E|].
      exact H.
    + match goal with
      | |- context [print_failed rest ?s1] =>
          destruct (IH s1) as (l & E & (H1 & H2 & H3 & H4 & H5))
      end.
      exists ([MsgFailedUrl url] ++ l)%list. split.
      * rewrite E. cbn [stdout]. rewrite <- app_assoc. reflexivity.
      * autorewrite with log. rewrite H1, H2, H3, H4, H5. repeat split.
Qed.

Lemma print_summary_log (results : dict) :
  emits (W:=W) (print_summary results)
        (fun _ l =>
           summaries_of l = [(sum_bools (values results), length results)]
           /\ listed_of l = failed_of results /\ verdicts_of l = []
           /\ errors_of l = [] /\ processing_of l = []).
Proof.
  intro s. unfold print_summary, bind, print. cbn [fst snd stdout world].
  pose proof (DictFacts.sum_bools_failed results) as F.
  destruct (Nat.ltb_spec (sum_bools (values results)) (length results)) as [L|L].
  - match goal with
    | |- context [print_failed results ?s1] =>
        destruct (print_failed_log results s1) as (l & E & (H1 & H2 & H3 & H4 & H5))
    end.
    exists ([MsgBatchResults;
             MsgSuccessful (sum_bools (values results)) (length results);
             MsgFailed (length results - sum_bools (values results))
                       (length results);
             MsgFailedUrls] ++ l)%list.
    split.
    + rewrite E. cbn [stdout]. rewrite <- !app_assoc. reflexivity.
    + autorewrite with log. rewrite H1, H2, H3, H4, H5. repeat split.
  - exists [MsgBatchResults;
            MsgSuccessful (sum_bools (values results)) (length results);
            MsgFailed (length results - sum_bools (values results))
                      (length results)].
    split.
    + cbn [ret fst stdout]. rewrite <- !app_assoc. reflexivity.
    + assert (Z0 : failed_of results = []).
      { apply length_zero_iff_nil. lia. }
      rewrite Z0. repeat split.
Qed.

End Batch.

(** ** [main] *)

Section Main.

Context {W P : Type} {RT : Runtime W P}.

Lemma print_failed_lines (items : dict) (s : state W) :
  print_failed items s
  = ({| world := world s;
        stdout := stdout s ++ map MsgFailedUrl (failed_of items) |}, tt).
Proof.
  revert s. induction items as [|[url success] rest IH]; intro s.
  - cbn. rewrite app_nil_r. destruct s; reflexivity.
  - cbn [print_failed]. unfold bind.
    destruct success; cbn [negb ret print fst snd]; rewrite IH.
    + reflexivity.
    + cbn [world stdout]. unfold failed_of. cbn [filter snd negb map fst].
      rewrite <- app_assoc. reflexivity.
Qed.

(** The summary only prints. *)
Lemma print_summary_world (results : dict) (s : state W) :
  world (fst (print_summary results s)) = world s.
Proof.
  unfold print_summary, bind, print. cbn [fst snd world stdout].
  destruct (_ <? _)%nat; [|reflexivity].
  rewrite print_failed_lines. reflexivity.
Qed.

Lemma print_summary_out (results : dict) (s : state W) :
  print_summary results s
  = ({| world := world s; stdout := stdout s ++ summary_lines results |}, tt).
Proof.
  unfold print_summary, summary_lines, bind, print.
  cbn [fst snd world stdout].
  destruct (_ <? _)%nat.
  - rewrite print_failed_lines. cbn [world stdout].
    rewrite <- !app_assoc. reflexivity.
  - cbn [ret]. rewrite <- !app_assoc. reflexivity.
Qed.

Lemma summary_lines_log (results : dict) :
  summaries_of (summary_lines results)
  = [(sum_bools (values results), length results)]
  /\ listed_of (summary_lines results) = failed_of results
  /\ verdicts_of (summary_lines results) = []
  /\ errors_of (summary_lines results) = []
  /\ processing_of (summary_lines results) = [].
Proof.
  assert (F : forall us,
             listed_of (map MsgFailedUrl us) = us
             /\ summaries_of (map MsgFailedUrl us) = []
             /\ verdicts_of (map MsgFailedUrl us) = []
             /\ errors_of (map MsgFailedUrl us) = []
             /\ processing_of (map MsgFailedUrl us) = []).
  { induction us as [|u us (I1 & I2 & I3 & I4 & I5)]; [repeat split|].
    cbn [map]. change (MsgFailedUrl u :: map MsgFailedUrl us)
      with ([MsgFailedUrl u] ++ map MsgFailedUrl us)%list.
    autorewrite with log. rewrite I1, I2, I3, I4, I5. repeat split. }
  unfold summary_lines.
  pose proof (DictFacts.sum_bools_failed results) as S.
  destruct (Nat.ltb_spec (sum_bools (values results)) (length results)) as [L|L].
  - destruct (F (failed_of results)) as (F1 & F2 & F3 & F4 & F5).
    change (MsgFailedUrls :: map MsgFailedUrl (failed_of results))
      with ([MsgFailedUrls] ++ map MsgFailedUrl (failed_of results))%list.
    autorewrite with log. rewrite F1, F2, F3, F4, F5. repeat split.
  - assert (Z0 : failed_of results = []).
    { apply length_zero_iff_nil. lia. }
    rewrite Z0. repeat split.
Qed.

(** [async with]: the block runs between the launch and the shutdown. *)
Lemma async_with_screeny_cases {A} (body : T (W:=W) A) (s : state W) :
  async_with_screeny body s
  = ({| world :=
          closed (world (fst (body {| world := launched (world s);
                                      stdout := stdout s |})));
        stdout :=
          stdout (fst (body {| world := launched (world s);
                               stdout := stdout s |})) |},
     snd (body {| world := launched (world s); stdout := stdout s |})).
Proof.
  unfold async_with_screeny, screeny_enter, screeny_exit, launched, closed.
  unfold bind, act, ret. cbn [fst snd world stdout].
  destruct (body _) as [s2 r]. reflexivity.
Qed.

(** The single-URL branch, step by step. *)
Lemma capture_all_single (args : Namespace) (config : ScreenshotConfig)
      (url : string) (s : state W) :
  capture_all args config [url] s
  = match urlparse_raises url with
    | Some e =>
        ({| world := closed (launched (world s)); stdout := stdout s |}, inl e)
    | None =>
        match makedirs (Args.output args) (launched (world s)) with
        | (w2, inl e) => ({| world := closed w2; stdout := stdout s |}, inl e)
        | (w2, inr _) =>
            match
              capture_screenshot config url
                (path_join (Args.output args)
                   (single_filename config (domain_of url)
                      (strftime_stamp (datetime_now (launched (world s))))))
                {| world := w2; stdout := stdout s |}
            with
            | (s3, true) =>
                ({| world := closed (world s3);
                    stdout := stdout s3 ++ [MsgCompleted; MsgTotalTime] |},
                 inr 0%Z)
            | (s3, false) =>
                ({| world := closed (world s3);
                    stdout := stdout s3 ++ [MsgScreenshotFailed] |},
                 inr 1%Z)
            end
        end
    end.
Proof.
  unfold capture_all. unfold bindT at 1. rewrite async_with_screeny_cases.
  unfold bindT, raise_if, ok, timestamp_now, ask, call, say, print, retT, ret.
  cbn [fst snd world stdout].
  destruct (urlparse_raises url); [reflexivity|].
  destruct (makedirs (Args.output args) (launched (world s))) as [w2 [e|[]]];
    [reflexivity|].
  destruct (capture_screenshot _ _ _ _) as [s3 [|]]; cbn [fst snd world stdout].
  - rewrite <- app_assoc. reflexivity.
  - reflexivity.
Qed.

(** The batch branch, step by step. *)
Lemma capture_all_batch (args : Namespace) (config : ScreenshotConfig)
      (urls : list string) (s : state W) :
  2 <= length urls ->
  capture_all args config urls s
  = match batch_capture config urls (Args.output args) default_name_template
            {| world := launched (world s); stdout := stdout s |} with
    | (s2, inl e) => ({| world := closed (world s2); stdout := stdout s2 |}, inl e)
    | (s2, inr results) =>
        ({| world := closed (world s2);
            stdout := stdout s2 ++ summary_lines results ++ [MsgTotalTime] |},
         inr 0%Z)
    end.
Proof.
  intro L. destruct urls as [|u1 [|u2 rest]]; [simpl in L; lia | simpl in L; lia |].
  unfold capture_all. unfold bindT at 1. rewrite async_with_screeny_cases.
  unfold bindT, ok, say, print, retT, ret.
  destruct (batch_capture _ _ _ _ _) as [s2 [e|results]]; [reflexivity|].
  rewrite print_summary_out.
  cbn [fst snd world stdout]. rewrite <- app_assoc. reflexivity.
Qed.

(** The process and the coroutine. *)
Lemma run_of_main (args : Namespace) (s : state W) :
  run args s
  = match main_from args s with
    | (s', inr code) => (s', code)
    | (s', inl e) =>
        ({| world := world s'; stdout := stdout s' ++ [MsgTraceback e] |}, 1%Z)
    end.
Proof.
  unfold run, bind. destruct (main_from args s) as [s' [e|code]]; reflexivity.
Qed.

(** [main] when the URLs cannot be loaded. *)
Lemma main_load_fails (args : Namespace) (s : state W) (e : exn) :
  loaded_urls args (world s) = inl e ->
  main_from args s
  = ({| world := world s; stdout := stdout s ++ [MsgErrorLoading (exn_text e)] |},
     inr 1%Z).
Proof.
  intro H. unfold loaded_urls in H. unfold main_from, bind, ask.
  destruct (truthy_str (Args.url args)); [discriminate|].
  cbn [fst snd]. rewrite H. reflexivity.
Qed.

(** [main] once the URLs are loaded, with what has been printed by then. *)
Lemma main_after_load (args : Namespace) (s : state W) (urls : list string) :
  loaded_urls args (world s) = inr urls ->
  exists pre,
    silent pre
    /\ main_from args s
       = match urls with
         | [] => ({| world := world s;
                     stdout := (stdout s ++ pre) ++ [MsgNoValidUrls] |}, inr 1%Z)
         | _ => capture_all args (make_config args) urls
                  {| world := world s; stdout := stdout s ++ pre |}
         end.
Proof.
  intro H. unfold loaded_urls in H. unfold main_from, bind, ask.
  destruct (truthy_str (Args.url args)).
  - injection H as <-. exists []. split; [apply silent_nil|].
    rewrite app_nil_r.
    destruct s as [w out]. destruct (Args.url args); reflexivity.
  - cbn [fst snd]. rewrite H. cbn [print ret fst snd].
    exists [MsgLoaded (length urls) (Args.file args)].
    split; [repeat split|]. destruct urls; reflexivity.
Qed.

(** A batch run in which [os.makedirs] and [urlparse] return: every URL is
    captured, the summary of the dictionary is printed, the browser is shut
    down and the exit code is 0. *)
Lemma run_batch (args : Namespace) (s : state W) (urls : list string) :
  loaded_urls args (world s) = inr urls ->
  2 <= length urls ->
  snd (makedirs (Args.output args) (launched (world s))) = inr tt ->
  all_parse urls ->
  exists l outcomes w_end,
    run args s = ({| world := closed w_end; stdout := stdout s ++ l |}, 0%Z)
    /\ map fst outcomes = urls
    /\ captures (make_config args) urls
         (fst (makedirs (Args.output args) (launched (world s)))) outcomes w_end
    /\ batch_run_log urls outcomes l
    /\ exists l', l = (l' ++ [MsgTotalTime])%list.
Proof.
  intros Hload L Hm Hp. rewrite run_of_main.
  destruct (main_after_load args s urls Hload) as (pre & Sp & ->).
  destruct urls as [|u1 rest]; [simpl in L; lia|].
  set (urls := u1 :: rest) in *.
  rewrite (capture_all_batch args (make_config args) urls _ L).
  cbn [world stdout].
  set (s1 := {| world := launched (world s); stdout := stdout s ++ pre |}).
  destruct (batch_capture_returns (make_config args) urls (Args.output args)
              default_name_template s1 Hm Hp)
    as (l & os & E & Hu & Hc & Hr & Hl).
  destruct (batch_capture (make_config args) urls (Args.output args)
              default_name_template s1) as [s2 r].
  cbn [fst snd world stdout] in E, Hc, Hr. subst r.
  set (results := fold_left set_outcome os []) in *.
  exists (pre ++ l ++ summary_lines results ++ [MsgTotalTime])%list, os, (world s2).
  split; [|split; [exact Hu|split; [exact Hc|split]]].
  - rewrite E. subst s1. cbn [stdout]. rewrite <- !app_assoc. reflexivity.
  - destruct Sp as (A1 & A2 & A3 & A4 & A5).
    destruct Hl as (L1 & L2 & L3 & L4 & L5).
    destruct (summary_lines_log results) as (P1 & P2 & P3 & P4 & P5).
    unfold batch_run_log. autorewrite with log.
    rewrite A1, A2, A3, A4, A5, L1, L2, L3, L4, L5, P1, P2, P3, P4, P5, Hu.
    cbn [app]. rewrite ?app_nil_r. repeat split.
  - exists (pre ++ l ++ summary_lines results)%list.
    rewrite <- !app_assoc. reflexivity.
Qed.

End Main.

(** ** The loader, the file names and the exit code *)

Lemma has_url_prefix_iff (url : string) :
  has_url_prefix url = true
  <-> exists rest, url = "http://" ++ rest \/ url = "https://" ++ rest.
Proof.
  unfold has_url_prefix. rewrite orb_true_iff. split.
  - intros [H|H]; apply PyStrFacts.startswith_split in H;
      destruct H as [t ->]; exists t; [left | right]; reflexivity.
  - intros (t & [-> | ->]); [left | right]; apply PyStrFacts.startswith_refl_app.
Qed.

Section MainClaims.

Context {W P : Type} {RT : Runtime W P}.

(** C1: for a file that exists and can be read, [load_urls_from_file]
    returns the stripped entries that start with [http://] or [https://],
    in the order of the file: the entries are the lines of the file, or,
    when the suffix of the path is [.csv] (in any case of letters), the
    first cells of the non-empty rows. *)
Theorem load_urls_from_file_returns_the_prefixed_entries :
  forall (file_path : string) (w : W) (content : string),
    path_exists file_path w = true ->
    read_text file_path w = inr content ->
    (PyStr.lower (suffix file_path) <> ".csv" ->
     load_urls_from_file (Some file_path) w
     = inr (filter has_url_prefix (map PyStr.strip (text_lines content))))
    /\ (PyStr.lower (suffix file_path) = ".csv" ->
        forall rows,
          csv_reader (text_lines content) = inr rows ->
          load_urls_from_file (Some file_path) w
          = inr (filter has_url_prefix (map PyStr.strip (column0 rows))))
    /\ (forall urls url,
           load_urls_from_file (Some file_path) w = inr urls ->
           In url urls ->
           exists rest, url = "http://" ++ rest \/ url = "https://" ++ rest).
Proof.
  intros file_path w content He Hr.
  assert (A : PyStr.lower (suffix file_path) <> ".csv" ->
              load_urls_from_file (Some file_path) w
              = inr (filter has_url_prefix (map PyStr.strip (text_lines content)))).
  { intro Hs. unfold load_urls_from_file. rewrite He, Hr. cbn [negb].
    apply String.eqb_neq in Hs. rewrite Hs.
    rewrite load_text_loop_filter. reflexivity. }
  assert (B : PyStr.lower (suffix file_path) = ".csv" ->
              forall rows,
                csv_reader (text_lines content) = inr rows ->
                load_urls_from_file (Some file_path) w
                = inr (filter has_url_prefix (map PyStr.strip (column0 rows)))).
  { intros Hs rows Hc. unfold load_urls_from_file. rewrite He, Hr. cbn [negb].
    apply String.eqb_eq in Hs. rewrite Hs, Hc.
    rewrite load_csv_loop_filter. reflexivity. }
  split; [exact A|]. split; [exact B|].
  intros urls url Hl Hin. apply has_url_prefix_iff.
  destruct (String.eqb_spec (PyStr.lower (suffix file_path)) ".csv") as [Hs|Hs].
  - unfold load_urls_from_file in Hl. rewrite He, Hr in Hl. cbn [negb] in Hl.
    apply String.eqb_eq in Hs. rewrite Hs in Hl.
    destruct (csv_reader (text_lines content)) as [e|rows]; [discriminate|].
    injection Hl as <-. rewrite load_csv_loop_filter in Hin.
    apply filter_In in Hin. apply Hin.
  - rewrite (A Hs) in Hl. injection Hl as <-.
    apply filter_In in Hin. apply Hin.
Qed.

(** C8: for a path that does not exist, [load_urls_from_file] raises
    [FileNotFoundError], with the path in its message as [Path] writes it,
    and returns nothing; [main], given that file and no URL, prints the
    error and ends with exit code 1, without touching the browser. *)
Theorem missing_file_ends_the_run_with_1 :
  forall (args : Namespace) (file_path : string) (s : state W),
    path_exists file_path (world s) = false ->
    truthy_str (Args.url args) = false ->
    Args.file args = Some file_path ->
    load_urls_from_file (Some file_path) (world s)
    = inl (Exception "FileNotFoundError"
             ("File not found: " ++ path_str file_path))
    /\ run args s
       = ({| world := world s;
             stdout := stdout s
                       ++ [MsgErrorLoading
                             ("File not found: " ++ path_str file_path)] |},
          1%Z).
Proof.
  intros args file_path s He Hu Hf.
  assert (L : load_urls_from_file (Some file_path) (world s)
              = inl (Exception "FileNotFoundError"
                       ("File not found: " ++ path_str file_path))).
  { unfold load_urls_from_file. rewrite He. reflexivity. }
  split; [exact L|].
  rewrite run_of_main, (main_load_fails args s (Exception "FileNotFoundError"
                          ("File not found: " ++ path_str file_path))).
  - reflexivity.
  - unfold loaded_urls. rewrite Hu, Hf. exact L.
Qed.


(** C4: the exit code is 1 when loading the URLs fails and when no URL is
    loaded.  With one URL, in a run in which [urlparse] and [os.makedirs]
    return, the URL is captured from the world [os.makedirs] leaves, and the
    exit code is 0 when that capture succeeds and 1 when it fails.  With two
    or more URLs, in a run in which [urlparse] and [os.makedirs] return,
    every URL is captured and the exit code is 0 whatever the captures
    return. *)
Theorem exit_code_of_run :
  forall (args : Namespace) (s : state W),
    match loaded_urls args (world s) with
    | inl _ => snd (run args s) = 1%Z
    | inr [] => snd (run args s) = 1%Z
    | inr [url] =>
        urlparse_raises url = None ->
        snd (makedirs (Args.output args) (launched (world s))) = inr tt ->
        exists s1 output_path,
          world s1 = fst (makedirs (Args.output args) (launched (world s)))
          /\ ((snd (capture_screenshot (make_config args) url output_path s1) = true
               /\ snd (run args s) = 0%Z)
              \/ (snd (capture_screenshot (make_config args) url output_path s1) = false
                  /\ snd (run args s) = 1%Z))
    | inr urls =>
        all_parse urls ->
        snd (makedirs (Args.output args) (launched (world s))) = inr tt ->
        exists outcomes w_end,
          map fst outcomes = urls
          /\ captures (make_config args) urls
               (fst (makedirs (Args.output args) (launched (world s))))
               outcomes w_end
          /\ snd (run args s) = 0%Z
    end.
Proof.
  intros args s.
  destruct (loaded_urls args (world s)) as [e|urls] eqn:H.
  - rewrite run_of_main, (main_load_fails args s e H). reflexivity.
  - destruct urls as [|url [|url' rest]].
    + rewrite run_of_main.
      destruct (main_after_load args s [] H) as (pre & _ & ->). reflexivity.
    + intros Hp Hm. rewrite run_of_main.
      destruct (main_after_load args s [url] H) as (pre & _ & ->).
      rewrite capture_all_single, Hp. cbn [world stdout].
      destruct (makedirs (Args.output args) (launched (world s)))
        as [w2 [e|[]]]; [discriminate Hm|].
      match goal with
      | |- context [capture_screenshot ?c ?u ?p ?s1] =>
          exists s1, p; destruct (capture_screenshot c u p s1) as [s3 b]
      end.
      split; [reflexivity|].
      destruct b; [left | right]; split; reflexivity.
    + intros Hp Hm.
      destruct (run_batch args s (url :: url' :: rest) H) as
        (l & os & w_end & R & Hu & Hc & _); [simpl; lia | exact Hm | exact Hp |].
      exists os, w_end. split; [exact Hu|]. split; [exact Hc|].
      rewrite R. reflexivity.
Qed.

End MainClaims.

(** ** The batch and its summary *)

Section BatchClaims.

Context {W P : Type} {RT : Runtime W P}.

(** C2, amended: when the URLs given to a batch run are pairwise distinct,
    in a run in which [os.makedirs] and [urlparse] return, every URL is
    captured and the summary reports [N - K] successful out of [N], for [N]
    URLs and [K] captures that returned [False], and lists exactly the URLs
    of these captures, in the order of the input. *)
Theorem batch_summary_for_distinct_urls :
  forall (args : Namespace) (s : state W) (urls : list string),
    loaded_urls args (world s) = inr urls ->
    2 <= length urls ->
    NoDup urls ->
    snd (makedirs (Args.output args) (launched (world s))) = inr tt ->
    all_parse urls ->
    exists l outcomes w_end,
      stdout (fst (run args s)) = (stdout s ++ l)%list
      /\ summary_reports urls l
      /\ map fst outcomes = urls
      /\ captures (make_config args) urls
           (fst (makedirs (Args.output args) (launched (world s))))
           outcomes w_end
      /\ verdicts_of l = map snd outcomes
      /\ errors_of l = failed_of outcomes
      /\ summaries_of l
         = [(length urls - length (failed_of outcomes), length urls)]
      /\ listed_of l = failed_of outcomes.
Proof.
  intros args s urls Hload L N Hm Hp.
  destruct (run_batch args s urls Hload L Hm Hp)
    as (l & os & w_end & R & Hu & Hc & (Hv & He & _ & Hs & Hl) & _).
  assert (F : fold_left set_outcome os [] = os).
  { apply (DictFacts.fold_fresh os []).
    - rewrite Hu. exact N.
    - intros u _ []. }
  rewrite F in Hs, Hl.
  assert (Len : length urls = length os).
  { rewrite <- Hu. apply length_map. }
  assert (Sum : summaries_of l
                = [(length urls - length (failed_of os), length urls)]).
  { rewrite Hs. pose proof (DictFacts.sum_bools_failed os) as A.
    rewrite Len. f_equal. f_equal. lia. }
  exists l, os, w_end. rewrite R. cbn [fst stdout].
  split; [reflexivity|]. split.
  { unfold summary_reports. rewrite He. split; [exact Sum | exact Hl]. }
  repeat (split; [assumption|]). exact Hl.
Qed.

(** C9: whenever [batch_capture] returns a dictionary, every URL of the
    input has been captured, in order; the keys of the dictionary are the
    distinct URLs of the input, and the value under a URL is what the last
    capture of that URL returned; so the dictionary is shorter than the input
    exactly when a URL is repeated.  It returns one when [os.makedirs] and
    [urlparse] return.  The total of the summary [main] then prints is the
    length of that dictionary. *)
Theorem batch_capture_keys_are_the_distinct_urls :
  (forall (config : ScreenshotConfig) (urls : list string) (output_dir : string)
          (name_template : template) (s : state W),
      let ran := batch_capture config urls output_dir name_template s in
      (forall results,
          snd ran = inr results ->
          exists outcomes l,
            stdout (fst ran) = (stdout s ++ l)%list
            /\ map fst outcomes = urls
            /\ captures config urls (fst (makedirs output_dir (world s)))
                 outcomes (world (fst ran))
            /\ verdicts_of l = map snd outcomes
            /\ NoDup (keys results)
            /\ (forall u, In u (keys results) <-> In u urls)
            /\ (forall u, dict_get u results = last_result u outcomes)
            /\ length results <= length urls
            /\ (length results < length urls <-> ~ NoDup urls))
      /\ (snd (makedirs output_dir (world s)) = inr tt ->
          all_parse urls ->
          exists results, snd ran = inr results))
  /\ (forall (args : Namespace) (s : state W) (urls : list string),
         loaded_urls args (world s) = inr urls ->
         2 <= length urls ->
         snd (makedirs (Args.output args) (launched (world s))) = inr tt ->
         all_parse urls ->
         exists l outcomes w_end,
           stdout (fst (run args s)) = (stdout s ++ l)%list
           /\ map fst outcomes = urls
           /\ captures (make_config args) urls
                (fst (makedirs (Args.output args) (launched (world s))))
                outcomes w_end
           /\ length (verdicts_of l) = length urls
           /\ summaries_of l
              = [(sum_bools (values (fold_left set_outcome outcomes [])),
                  length (fold_left set_outcome outcomes []))]
           /\ length (fold_left set_outcome outcomes []) <= length urls
           /\ (length (fold_left set_outcome outcomes []) < length urls
               <-> ~ NoDup urls)).
Proof.
  split.
  - intros config urls output_dir name_template s ran. split.
    + intros results R.
      destruct (batch_capture config urls output_dir name_template s)
        as [s' r] eqn:Run.
      subst ran. cbn [fst snd] in R |- *. subst r.
      destruct (batch_capture_run _ _ _ _ _ _ _ Run)
        as (l & E & _ & _ & os & Hu & Hc & -> & Hl).
      destruct (DictFacts.fold_length os) as [LE LT].
      assert (Len : length os = length urls).
      { rewrite <- Hu. symmetry. apply length_map. }
      rewrite Hu in LT. rewrite Len in LE, LT.
      exists os, l.
      split; [exact E|]. split; [exact Hu|].
      split; [exact Hc|]. split; [apply Hl|].
      split; [apply DictFacts.nodup_keys_fold; constructor|].
      split.
      { intro u. rewrite DictFacts.in_keys_fold, Hu. simpl. intuition. }
      split; [|split; [exact LE | exact LT]].
      intro u. rewrite DictFacts.get_fold.
      destruct (last_result u os); reflexivity.
    + intros Hm Hp.
      destruct (batch_capture_returns config urls output_dir name_template s
                  Hm Hp) as (l & os & _ & _ & _ & R & _).
      eexists. exact R.
  - intros args s urls Hload L Hm Hp.
    destruct (run_batch args s urls Hload L Hm Hp)
      as (l & os & w_end & R & Hu & Hc & (Hv & _ & _ & Hs & _) & _).
    destruct (DictFacts.fold_length os) as [LE LT].
    assert (Len : length os = length urls).
    { rewrite <- Hu. symmetry. apply length_map. }
    rewrite Hu in LT. rewrite Len in LE, LT.
    exists l, os, w_end. rewrite R. cbn [fst stdout].
    split; [reflexivity|]. split; [exact Hu|]. split; [exact Hc|].
    split; [rewrite Hv, length_map; exact Len|].
    split; [exact Hs|]. split; [exact LE | exact LT].
Qed.

End BatchClaims.

(** ** The script on the small runtime *)

Example startswith_example : PyStr.startswith "https://a.b" "https://" = true.
Proof. reflexivity. Qed.

Example strip_example : PyStr.strip "  http://x y
" = "http://x y".
Proof. reflexivity. Qed.

Example replace_example :
  PyStr.replace "www.a.www.b.c" "www." "" = "a.b.c"
  /\ PyStr.replace "aaa" "aa" "b" = "ba"
  /\ PyStr.replace "ab" "" "-" = "-a-b-".
Proof. repeat split. Qed.

Example suffix_example :
  suffix "lists/urls.CSV" = ".CSV" /\ suffix ".csv" = "" /\ suffix "a.b/c" = "".
Proof. repeat split. Qed.

Example path_join_example :
  path_join "out" "f.png" = "out/f.png" /\ path_join "out/" "f.png" = "out/f.png"
  /\ path_join "" "f.png" = "f.png" /\ path_join "out" "/f.png" = "/f.png".
Proof. repeat split. Qed.

Example default_name_template_example :
  parse_template "{domain}_{timestamp}" = Some default_name_template.
Proof. reflexivity. Qed.

Example parse_args_example :
  parse_args ["--width"; "-5"; "-f"; "urls.txt"; "--mobile"]
  = Parsed (fold_left run_action
              [StoreWidth (-5); StoreFile "urls.txt"; StoreTrueMobile]
              default_namespace)
  /\ parse_args ["-u"; "https://a.b"; "-f"; "urls.txt"] = UsageExit 2
  /\ parse_args ["--mobile"] = UsageExit 2
  /\ parse_args ["--no-ads=false"; "-u"; "https://a.b"] = UsageExit 2
  /\ parse_args ["-h"] = UsageExit 0.
Proof. repeat split. Qed.

Example domain_of_example :
  domain_of (RT := Demo.runtime) "https://www.example.co.uk/page.html"
  = "example_co_uk".
Proof. reflexivity. Qed.

Example main_single_example :
  let ran := main ["-u"; "https://www.example.org/"] (Demo.start Demo.disk []) in
  stdout (fst ran)
  = [MsgLoadingUrl "https://www.example.org/"; MsgCapturing;
     MsgSaved "./screenshots/example_org_20240102_030405.png" 2048;
     MsgCompleted; MsgTotalTime]
  /\ snd ran = 0%Z.
Proof. split; reflexivity. Qed.

Example main_empty_url_example :
  let ran := main ["-u"; ""] (Demo.start Demo.disk []) in
  stdout (fst ran)
  = [MsgErrorLoading "expected str, bytes or os.PathLike object, not NoneType"]
  /\ snd ran = 1%Z.
Proof. split; reflexivity. Qed.

Lemma load_urls_from_file_returns_the_prefixed_entries_witness :
  (path_exists "urls.txt" (world (Demo.start Demo.disk [])) = true
   /\ read_text "urls.txt" (world (Demo.start Demo.disk [])) = inr Demo.urls_txt
   /\ PyStr.lower (suffix "urls.txt") <> ".csv"
   /\ load_urls_from_file (Some "urls.txt") (world (Demo.start Demo.disk []))
      = inr ["https://example.com/a"; "http://www.example.org"])
  /\ (path_exists "urls.csv" (world (Demo.start Demo.disk [])) = true
      /\ read_text "urls.csv" (world (Demo.start Demo.disk [])) = inr Demo.urls_csv
      /\ PyStr.lower (suffix "urls.csv") = ".csv"
      /\ csv_reader (text_lines Demo.urls_csv)
         = inr [ ["url"; "name"]; ["https://example.com/a"; "first"];
                 ["second"; "https://example.com/hidden"]; [];
                 [" http://www.example.org "; "third"] ]
      /\ load_urls_from_file (Some "urls.csv") (world (Demo.start Demo.disk []))
         = inr ["https://example.com/a"; "http://www.example.org"]).
Proof.
  split.
  - split; [reflexivity|]. split; [reflexivity|].
    split; [vm_compute; discriminate|].
    refine (proj1 (load_urls_from_file_returns_the_prefixed_entries
                     (RT := Demo.runtime) "urls.txt" (world (Demo.start Demo.disk [])) Demo.urls_txt
                     eq_refl eq_refl) _).
    vm_compute. discriminate.
  - split; [reflexivity|]. split; [reflexivity|]. split; [reflexivity|].
    split; [reflexivity|].
    refine (proj1 (proj2 (load_urls_from_file_returns_the_prefixed_entries
                            (RT := Demo.runtime) "urls.csv" (world (Demo.start Demo.disk []))
                            Demo.urls_csv eq_refl eq_refl)) eq_refl _ eq_refl).
Defined.

Lemma missing_file_ends_the_run_with_1_witness :
  path_exists "./missing.txt" (world (Demo.start Demo.disk [])) = false
  /\ truthy_str (Args.url (Demo.file_args "./missing.txt")) = false
  /\ Args.file (Demo.file_args "./missing.txt") = Some "./missing.txt"
  /\ load_urls_from_file (Some "./missing.txt") (world (Demo.start Demo.disk []))
     = inl (Exception "FileNotFoundError" "File not found: missing.txt")
  /\ stdout (fst (run (Demo.file_args "./missing.txt") (Demo.start Demo.disk [])))
     = [MsgErrorLoading "File not found: missing.txt"]
  /\ snd (run (Demo.file_args "./missing.txt") (Demo.start Demo.disk [])) = 1%Z.
Proof.
  split; [reflexivity|]. split; [reflexivity|]. split; [reflexivity|].
  destruct (missing_file_ends_the_run_with_1 (RT := Demo.runtime)
              (Demo.file_args "./missing.txt") "./missing.txt"
              (Demo.start Demo.disk []) eq_refl eq_refl eq_refl) as [L R].
  split; [exact L|]. rewrite R. split; reflexivity.
Defined.

Example path_str_example :
  path_str "./missing.txt" = "missing.txt" /\ path_str "lists//urls.txt" = "lists/urls.txt"
  /\ path_str "" = "." /\ path_str "//srv/urls.txt/" = "//srv/urls.txt"
  /\ path_str "///srv/./urls.txt" = "/srv/urls.txt" /\ path_str "../urls.txt" = "../urls.txt".
Proof. repeat split. Qed.

Lemma batch_summary_for_distinct_urls_witness :
  loaded_urls (Demo.file_args "urls.txt") (world (Demo.start Demo.disk [false; true]))
  = inr ["https://example.com/a"; "http://www.example.org"]
  /\ 2 <= length ["https://example.com/a"; "http://www.example.org"]
  /\ NoDup ["https://example.com/a"; "http://www.example.org"]
  /\ snd (makedirs (Args.output (Demo.file_args "urls.txt"))
            (launched (world (Demo.start Demo.disk [false; true]))))
     = inr tt
  /\ all_parse (RT := Demo.runtime)
       ["https://example.com/a"; "http://www.example.org"]
  /\ exists l outcomes w_end,
       stdout (fst (run (Demo.file_args "urls.txt")
                        (Demo.start Demo.disk [false; true])))
       = (stdout (Demo.start Demo.disk [false; true]) ++ l)%list
       /\ summary_reports ["https://example.com/a"; "http://www.example.org"] l
       /\ map fst outcomes = ["https://example.com/a"; "http://www.example.org"]
       /\ captures (make_config (Demo.file_args "urls.txt"))
            ["https://example.com/a"; "http://www.example.org"]
            (fst (makedirs (Args.output (Demo.file_args "urls.txt"))
                    (launched (world (Demo.start Demo.disk [false; true])))))
            outcomes w_end
       /\ verdicts_of l = map snd outcomes
       /\ errors_of l = failed_of outcomes
       /\ summaries_of l
          = [(length ["https://example.com/a"; "http://www.example.org"]
              - length (failed_of outcomes),
              length ["https://example.com/a"; "http://www.example.org"])]
       /\ listed_of l = failed_of outcomes.
Proof.
  assert (N : NoDup ["https://example.com/a"; "http://www.example.org"]).
  { constructor.
    - intros [H|[]]. discriminate H.
    - constructor; [intros [] | constructor]. }
  assert (A : all_parse (RT := Demo.runtime)
                ["https://example.com/a"; "http://www.example.org"]).
  { constructor; [reflexivity|]. constructor; [reflexivity|]. constructor. }
  split; [reflexivity|]. split; [apply le_n|]. split; [exact N|].
  split; [reflexivity|]. split; [exact A|].
  exact (batch_summary_for_distinct_urls (RT := Demo.runtime)
           (Demo.file_args "urls.txt") (Demo.start Demo.disk [false; true])
           ["https://example.com/a"; "http://www.example.org"]
           eq_refl (le_n 2) N eq_refl A).
Defined.

Example batch_summary_example :
  let l := stdout (fst (run (Demo.file_args "urls.txt")
                            (Demo.start Demo.disk [false; true]))) in
  errors_of l = ["https://example.com/a"]
  /\ summaries_of l = [(1, 2)]
  /\ listed_of l = ["https://example.com/a"].
Proof. repeat split. Qed.

(** The summary of C2 as first stated fails when a URL is given twice: of
    the two captures of the same URL the first fails and the second succeeds,
    and the summary reports 1 successful out of 1 and lists no failed URL,
    where [summary_reports] asks for 1 out of 2 and the failed URL. *)
Lemma batch_summary_claim_fails_on_a_repeated_url :
  ~ batch_summary_claim (Demo.file_args "twice.txt")
      (Demo.start Demo.disk [false; true])
      ["https://example.com/a"; "https://example.com/a"].
Proof.
  intro H. destruct H as (l & E & S & _).
  - reflexivity.
  - apply le_n.
  - vm_compute in E. subst l. vm_compute in S. discriminate S.
Qed.

Example repeated_url_example :
  let ran := run (Demo.file_args "twice.txt") (Demo.start Demo.disk [false; true]) in
  Demo.visited (world (fst ran)) = ["https://example.com/a"; "https://example.com/a"]
  /\ verdicts_of (stdout (fst ran)) = [false; true]
  /\ summaries_of (stdout (fst ran)) = [(1, 1)]
  /\ listed_of (stdout (fst ran)) = []
  /\ snd ran = 0%Z.
Proof. repeat split. Qed.

Lemma batch_capture_keys_are_the_distinct_urls_witness :
  loaded_urls (Demo.file_args "twice.txt")
    (world (Demo.start Demo.disk [false; true]))
  = inr ["https://example.com/a"; "https://example.com/a"]
  /\ 2 <= length ["https://example.com/a"; "https://example.com/a"]
  /\ snd (makedirs (Args.output (Demo.file_args "twice.txt"))
            (launched (world (Demo.start Demo.disk [false; true]))))
     = inr tt
  /\ snd (makedirs "shots" (world (Demo.start Demo.disk [false; true]))) = inr tt
  /\ all_parse (RT := Demo.runtime)
       ["https://example.com/a"; "https://example.com/a"]
  /\ ~ NoDup ["https://example.com/a"; "https://example.com/a"]
  /\ (exists l outcomes w_end,
         stdout (fst (run (Demo.file_args "twice.txt")
                          (Demo.start Demo.disk [false; true])))
         = (stdout (Demo.start Demo.disk [false; true]) ++ l)%list
         /\ map fst outcomes = ["https://example.com/a"; "https://example.com/a"]
         /\ captures (make_config (Demo.file_args "twice.txt"))
              ["https://example.com/a"; "https://example.com/a"]
              (fst (makedirs (Args.output (Demo.file_args "twice.txt"))
                      (launched (world (Demo.start Demo.disk [false; true])))))
              outcomes w_end
         /\ length (verdicts_of l) = 2
         /\ summaries_of l
            = [(sum_bools (values (fold_left set_outcome outcomes [])),
                length (fold_left set_outcome outcomes []))]
         /\ length (fold_left set_outcome outcomes []) <= 2
         /\ (length (fold_left set_outcome outcomes []) < 2
             <-> ~ NoDup ["https://example.com/a"; "https://example.com/a"]))
  /\ (exists results,
         snd (batch_capture default_config
                ["https://example.com/a"; "https://example.com/a"]
                "shots" default_name_template
                (Demo.start Demo.disk [false; true]))
         = inr results
         /\ length results < 2).
Proof.
  assert (D : ~ NoDup ["https://example.com/a"; "https://example.com/a"]).
  { intro N. inversion N as [|? ? Hn _]. apply Hn. left. reflexivity. }
  assert (A : all_parse (RT := Demo.runtime)
                ["https://example.com/a"; "https://example.com/a"]).
  { constructor; [reflexivity|]. constructor; [reflexivity|]. constructor. }
  split; [reflexivity|]. split; [apply le_n|]. split; [reflexivity|].
  split; [reflexivity|]. split; [exact A|].
  split; [exact D|]. split.
  - exact (proj2 (batch_capture_keys_are_the_distinct_urls (RT := Demo.runtime))
             (Demo.file_args "twice.txt") (Demo.start Demo.disk [false; true])
             ["https://example.com/a"; "https://example.com/a"]
             eq_refl (le_n 2) eq_refl A).
  - destruct (proj1 (batch_capture_keys_are_the_distinct_urls (RT := Demo.runtime))
                default_config ["https://example.com/a"; "https://example.com/a"]
                "shots" default_name_template (Demo.start Demo.disk [false; true]))
      as [K Ret].
    destruct (Ret eq_refl A) as [results R].
    destruct (K results R)
      as (outcomes & l & _ & _ & _ & _ & _ & _ & _ & _ & LT).
    exists results. split; [exact R|]. apply LT. exact D.
Defined.

Lemma exit_code_of_run_witness :
  (urlparse_raises (Runtime := Demo.runtime) "https://example.com/a" = None
   /\ snd (makedirs (Args.output (Demo.url_args "https://example.com/a"))
             (launched (world (Demo.start Demo.disk [false]))))
      = inr tt
   /\ exists s1 output_path,
        world s1
        = fst (makedirs (Args.output (Demo.url_args "https://example.com/a"))
                 (launched (world (Demo.start Demo.disk [false]))))
        /\ ((snd (capture_screenshot
                    (make_config (Demo.url_args "https://example.com/a"))
                    "https://example.com/a" output_path s1) = true
             /\ snd (run (Demo.url_args "https://example.com/a")
                         (Demo.start Demo.disk [false])) = 0%Z)
            \/ (snd (capture_screenshot
                       (make_config (Demo.url_args "https://example.com/a"))
                       "https://example.com/a" output_path s1) = false
                /\ snd (run (Demo.url_args "https://example.com/a")
                            (Demo.start Demo.disk [false])) = 1%Z)))
  /\ (all_parse (RT := Demo.runtime)
        ["https://example.com/a"; "http://www.example.org"]
      /\ snd (makedirs (Args.output (Demo.file_args "urls.txt"))
                (launched (world (Demo.start Demo.disk [false; false]))))
         = inr tt
      /\ exists outcomes w_end,
           map fst outcomes = ["https://example.com/a"; "http://www.example.org"]
           /\ captures (make_config (Demo.file_args "urls.txt"))
                ["https://example.com/a"; "http://www.example.org"]
                (fst (makedirs (Args.output (Demo.file_args "urls.txt"))
                        (launched (world (Demo.start Demo.disk [false; false])))))
                outcomes w_end
           /\ snd (run (Demo.file_args "urls.txt")
                       (Demo.start Demo.disk [false; false])) = 0%Z).
Proof.
  assert (A : all_parse (RT := Demo.runtime)
                ["https://example.com/a"; "http://www.example.org"]).
  { constructor; [reflexivity|]. constructor; [reflexivity|]. constructor. }
  split.
  - split; [reflexivity|]. split; [reflexivity|].
    exact (exit_code_of_run (RT := Demo.runtime)
             (Demo.url_args "https://example.com/a")
             (Demo.start Demo.disk [false]) eq_refl eq_refl).
  - split; [exact A|]. split; [reflexivity|].
    exact (exit_code_of_run (RT := Demo.runtime)
             (Demo.file_args "urls.txt")
             (Demo.start Demo.disk [false; false]) A eq_refl).
Defined.

Example exit_codes_example :
  snd (main ["-f"; "missing.txt"] (Demo.start Demo.disk [])) = 1%Z
  /\ snd (main ["-u"; "https://example.com/a"] (Demo.start Demo.disk [false])) = 1%Z
  /\ snd (main ["-u"; "https://example.com/a"] (Demo.start Demo.disk [true])) = 0%Z
  /\ snd (main ["-f"; "urls.txt"] (Demo.start Demo.disk [false; false])) = 0%Z
  /\ snd (main ["--format"; "gif"; "-f"; "urls.txt"] (Demo.start Demo.disk [])) = 2%Z.
Proof. repeat split. Qed.


(** * Further properties of the script *)

(** ** Stripping *)

Module StripFacts.
Import PyStr.

Lemma rstrip_keeps_head (c : ascii) (s : string) :
  is_space c = false -> rstrip (String c s) = String c (rstrip s).
Proof. intro H. cbn [rstrip]. rewrite H. reflexivity. Qed.

(** [lstrip] leaves nothing or a text that starts with a character that is
    not white space. *)
Lemma lstrip_head (s : string) :
  lstrip s = ""
  \/ exists c r, lstrip s = String c r /\ is_space c = false.
Proof.
  induction s as [|c s IH]; [left; reflexivity|].
  cbn [lstrip]. destruct (is_space c) eqn:E; [exact IH|].
  right. exists c, s. split; [reflexivity | exact E].
Qed.

Lemma lstrip_fixed (c : ascii) (r : string) :
  is_space c = false -> lstrip (String c r) = String c r.
Proof. intro H. cbn [lstrip]. rewrite H. reflexivity. Qed.

Lemma rstrip_idempotent (s : string) : rstrip (rstrip s) = rstrip s.
Proof.
  induction s as [|c s IH]; [reflexivity|].
  cbn [rstrip].
  destruct (is_space c && String.eqb (rstrip s) "") eqn:E; [reflexivity|].
  cbn [rstrip]. rewrite IH, E. reflexivity.
Qed.

(** [strip] is idempotent. *)
Lemma strip_idempotent (s : string) : strip (strip s) = strip s.
Proof.
  unfold strip. destruct (lstrip_head s) as [E | (c & r & E & Hc)].
  - rewrite E. reflexivity.
  - rewrite E, (rstrip_keeps_head c r Hc).
    rewrite (lstrip_fixed c (rstrip r) Hc).
    rewrite <- (rstrip_keeps_head c r Hc). apply rstrip_idempotent.
Qed.

End StripFacts.

(** ** More on strings and paths *)

Module PathFacts.
Import PyStr.

Lemma endswith_self (s : string) : endswith s s = true.
Proof. destruct s; cbn [endswith]; rewrite String.eqb_refl; reflexivity. Qed.



(** Dropping the characters of a match that is under way. *)
Lemma replace_from_skip (old new t s : string) :
  replace_from old new (String.length t) (t ++ s) = replace_from old new 0 s.
Proof.
  induction t as [|c t IH]; [reflexivity|].
  change (String c t ++ s) with (String c (t ++ s)).
  cbn [String.length replace_from]. exact IH.
Qed.

(** A text that starts with [old] has this occurrence replaced. *)
Lemma replace_head (a : ascii) (o new s : string) :
  replace (String a o ++ s) (String a o) new
  = new ++ replace s (String a o) new.
Proof.
  unfold replace.
  change (String a o ++ s) with (String a (o ++ s)).
  cbn [replace_from].
  pose proof (PyStrFacts.startswith_refl_app (String a o) s) as H.
  change (String a o ++ s) with (String a (o ++ s)) in H. rewrite H.
  replace (String.length (String a o) - 1) with (String.length o)
    by (cbn [String.length]; lia).
  rewrite replace_from_skip. reflexivity.
Qed.

End PathFacts.

(** ** Names of the output files *)



Section Names.

Context {W P : Type} {RT : Runtime W P}.

(** X8: a leading [www.] of the network location does not show in the
    domain part of a file name: two URLs whose network locations differ only
    by it get the same domain, hence, at the same time stamp, the same file
    name in the single-URL branch and under the default template. *)
Theorem leading_www_is_dropped_from_domain :
  forall u1 u2 : string,
    urlparse_netloc u1 = "www." ++ urlparse_netloc u2 ->
    domain_of u1 = domain_of u2
    /\ (forall config timestamp,
           single_filename config (domain_of u1) timestamp
           = single_filename config (domain_of u2) timestamp)
    /\ (forall config timestamp i j,
           with_extension config
             (format_template default_name_template (domain_of u1) timestamp i)
           = with_extension config
               (format_template default_name_template (domain_of u2) timestamp j)).
Proof.
  intros u1 u2 H.
  assert (D : domain_of u1 = domain_of u2).
  { unfold domain_of. rewrite H.
    rewrite (PathFacts.replace_head "w" "ww." "" (urlparse_netloc u2)).
    reflexivity. }
  split; [exact D|]. split; intros; rewrite D; reflexivity.
Qed.

End Names.

Lemma leading_www_is_dropped_from_domain_witness :
  urlparse_netloc (Runtime := Demo.runtime) "https://www.example.org/a"
  = "www." ++ urlparse_netloc (Runtime := Demo.runtime) "http://example.org/b"
  /\ domain_of (RT := Demo.runtime) "https://www.example.org/a" = "example_org"
  /\ domain_of (RT := Demo.runtime) "https://www.example.org/a"
     = domain_of (RT := Demo.runtime) "http://example.org/b".
Proof.
  split; [reflexivity|]. split; [reflexivity|].
  apply (leading_www_is_dropped_from_domain (RT := Demo.runtime)
           "https://www.example.org/a" "http://example.org/b").
  reflexivity.
Defined.

(** ** More on the loader and on the end of a run *)

Section RunFacts.

Context {W P : Type} {RT : Runtime W P}.

(** The loader returns what one of its two loops computes. *)
Lemma load_urls_from_file_inr (file_path : option string) (w : W)
      (urls : list string) :
  load_urls_from_file file_path w = inr urls ->
  exists entries, urls = filter has_url_prefix (map PyStr.strip entries).
Proof.
  unfold load_urls_from_file. destruct file_path as [path|]; [|discriminate].
  destruct (path_exists path w); cbn [negb]; [|discriminate].
  destruct (read_text path w) as [e|content]; [discriminate|].
  destruct (String.eqb (PyStr.lower (suffix path)) ".csv").
  - destruct (csv_reader (text_lines content)) as [e|rows]; [discriminate|].
    intro H. injection H as <-. exists (column0 rows).
    apply load_csv_loop_filter.
  - intro H. injection H as <-. exists (text_lines content).
    apply load_text_loop_filter.
Qed.

(** X1: every URL the loader returns is free of surrounding white space
    (stripping it again changes nothing), starts with one of the two
    prefixes, and so has at least seven characters. *)
Theorem loaded_urls_are_stripped :
  forall (file_path : option string) (w : W) (urls : list string) (u : string),
    load_urls_from_file file_path w = inr urls ->
    In u urls ->
    PyStr.strip u = u /\ has_url_prefix u = true /\ 7 <= String.length u.
Proof.
  intros file_path w urls u H Hin.
  destruct (load_urls_from_file_inr file_path w urls H) as [entries ->].
  apply filter_In in Hin. destruct Hin as [Hm Hp].
  apply in_map_iff in Hm. destruct Hm as (x & <- & _).
  split; [apply StripFacts.strip_idempotent|]. split; [exact Hp|].
  apply has_url_prefix_iff in Hp. destruct Hp as (rest & [-> | ->]);
    cbn [String.append String.length]; lia.
Qed.

(** X2: an empty [--url] counts as no URL; with no file either, the loader
    is called on [None], the [TypeError] of [Path(None)] is caught, and [main]
    prints the error and returns 1 without touching anything else. *)
Theorem empty_url_without_file_exits_with_1 :
  forall (args : Namespace) (s : state W),
    truthy_str (Args.url args) = false ->
    Args.file args = None ->
    run args s
    = ({| world := world s;
          stdout := stdout s
                    ++ [MsgErrorLoading
                          "expected str, bytes or os.PathLike object, not NoneType"] |},
       1%Z).
Proof.
  intros args s Hu Hf. rewrite run_of_main.
  rewrite (main_load_fails args s
             (Exception "TypeError"
                "expected str, bytes or os.PathLike object, not NoneType")).
  - reflexivity.
  - unfold loaded_urls. rewrite Hu, Hf. reflexivity.
Qed.

(** X3: when loading fails or yields no URL, [main] returns 1 and leaves
    the world as it found it: no browser is started and no directory is
    made. *)
Theorem nothing_to_capture_leaves_the_world :
  forall (args : Namespace) (s : state W),
    match loaded_urls args (world s) with
    | inr (_ :: _) => True
    | _ => world (fst (run args s)) = world s /\ snd (run args s) = 1%Z
    end.
Proof.
  intros args s.
  destruct (loaded_urls args (world s)) as [e|[|u urls]] eqn:H; [| |exact I].
  - rewrite run_of_main, (main_load_fails args s e H). split; reflexivity.
  - rewrite run_of_main.
    destruct (main_after_load args s [] H) as (pre & _ & ->). split; reflexivity.
Qed.

(** X9: the summary is the header, the line of the successful captures,
    the line of the failed ones and, when there are failed entries, the list
    of their URLs in the order of the dictionary; the two counts add up to the
    total and the second is the number of URLs listed; the world is not
    touched. *)
Theorem print_summary_lines :
  forall (results : dict) (s : state W),
    let successful := sum_bools (values results) in
    let failed := failed_of results in
    fst (print_summary results s)
    = {| world := world s;
         stdout := stdout s
                   ++ [MsgBatchResults;
                       MsgSuccessful successful (length results);
                       MsgFailed (length failed) (length results)]
                   ++ match failed with
                      | [] => []
                      | _ => MsgFailedUrls :: map MsgFailedUrl failed
                      end |}
    /\ successful + length failed = length results.
Proof.
  intros results s successful failed.
  pose proof (DictFacts.sum_bools_failed results) as F.
  fold successful in F. fold failed in F.
  split; [|exact F].
  unfold print_summary, bind, print. cbn [fst snd world stdout].
  fold successful.
  replace (length results - successful) with (length failed) by lia.
  destruct (Nat.ltb_spec successful (length results)) as [L|L].
  - rewrite print_failed_lines. cbn [fst world stdout]. fold failed.
    destruct failed as [|f fs] eqn:E; [simpl in F; lia|].
    rewrite <- !app_assoc. reflexivity.
  - cbn [ret fst].
    destruct failed as [|f fs] eqn:E; [|simpl in F; lia].
    rewrite <- !app_assoc. reflexivity.
Qed.

End RunFacts.

Lemma loaded_urls_are_stripped_witness :
  load_urls_from_file (Some "urls.txt") (world (Demo.start Demo.disk []))
  = inr ["https://example.com/a"; "http://www.example.org"]
  /\ In "http://www.example.org" ["https://example.com/a"; "http://www.example.org"]
  /\ PyStr.strip "http://www.example.org" = "http://www.example.org"
  /\ has_url_prefix "http://www.example.org" = true
  /\ 7 <= String.length "http://www.example.org".
Proof.
  assert (I : In "http://www.example.org"
                 ["https://example.com/a"; "http://www.example.org"]).
  { right. left. reflexivity. }
  split; [reflexivity|]. split; [exact I|].
  exact (loaded_urls_are_stripped (RT := Demo.runtime) (Some "urls.txt")
           (world (Demo.start Demo.disk []))
           ["https://example.com/a"; "http://www.example.org"]
           "http://www.example.org" eq_refl I).
Defined.

Lemma empty_url_without_file_exits_with_1_witness :
  parse_args ["--url"; ""] = Parsed (Demo.url_args "")
  /\ truthy_str (Args.url (Demo.url_args "")) = false
  /\ Args.file (Demo.url_args "") = None
  /\ snd (run (Demo.url_args "") (Demo.start Demo.disk [])) = 1%Z.
Proof.
  split; [reflexivity|]. split; [reflexivity|]. split; [reflexivity|].
  rewrite (empty_url_without_file_exits_with_1 (RT := Demo.runtime)
             (Demo.url_args "") (Demo.start Demo.disk []) eq_refl eq_refl).
  reflexivity.
Defined.

(** ** The last line of a run *)

Section LastLine.

Context {W P : Type} {RT : Runtime W P}.

(** What the part of [main] under [async with] prints last when it
    returns. *)
Lemma capture_all_ends (args : Namespace) (config : ScreenshotConfig)
      (urls : list string) (s : state W) :
  urls <> [] ->
  exists l,
    stdout (fst (capture_all args config urls s)) = (stdout s ++ l)%list
    /\ match snd (capture_all args config urls s) with
       | inr code =>
           exists l' m,
             l = (l' ++ [m])%list
             /\ ((code = 0%Z /\ m = MsgTotalTime)
                 \/ (code = 1%Z /\ m = MsgScreenshotFailed))
       | inl _ => True
       end.
Proof.
  intro N. destruct urls as [|u [|u2 rest]]; [contradiction| |].
  - rewrite capture_all_single.
    destruct (urlparse_raises u).
    { exists []. cbn. rewrite app_nil_r. split; [reflexivity | exact I]. }
    destruct (makedirs (Args.output args) (launched (world s))) as [w2 [e|[]]].
    { exists []. cbn. rewrite app_nil_r. split; [reflexivity | exact I]. }
    match goal with
    | |- context [capture_screenshot ?c ?x ?p ?s1] =>
        destruct (capture_screenshot_log c x p s1) as (lc & Ec & _);
        destruct (capture_screenshot c x p s1) as [s3 b]
    end.
    cbn [fst stdout] in Ec.
    destruct b; cbn [fst snd stdout].
    + exists (lc ++ [MsgCompleted; MsgTotalTime])%list. split.
      * rewrite Ec, <- !app_assoc. reflexivity.
      * exists (lc ++ [MsgCompleted])%list, MsgTotalTime.
        split; [rewrite <- app_assoc; reflexivity|]. left. split; reflexivity.
    + exists (lc ++ [MsgScreenshotFailed])%list. split.
      * rewrite Ec, <- !app_assoc. reflexivity.
      * exists lc, MsgScreenshotFailed.
        split; [reflexivity|]. right. split; reflexivity.
  - rewrite capture_all_batch by (simpl; lia).
    match goal with
    | |- context [batch_capture ?c ?us ?o ?t ?s1] =>
        destruct (batch_capture c us o t s1) as [s2 r] eqn:Run;
        destruct (batch_capture_run c us o t s1 s2 r Run) as (l & E & _)
    end.
    cbn [stdout] in E.
    destruct r as [e|results]; cbn [fst snd stdout].
    + exists l. split; [exact E | exact I].
    + exists (l ++ summary_lines results ++ [MsgTotalTime])%list. split.
      * rewrite E, <- !app_assoc. reflexivity.
      * exists (l ++ summary_lines results)%list, MsgTotalTime.
        split; [rewrite <- app_assoc; reflexivity|]. left. split; reflexivity.
Qed.

(** X4: every run on parsed arguments ends with exit code 0 or 1, and its
    last line tells which: the total time for 0; for 1 the loading error, the
    notice that no valid URL was found, the notice that the screenshot
    failed, or the traceback of the exception that [main] let through.  The
    last line is the traceback of [e] exactly when [main] raised [e]. *)
Theorem run_ends_with_its_outcome :
  forall (args : Namespace) (s : state W),
    exists l m,
      stdout (fst (run args s)) = (stdout s ++ l ++ [m])%list
      /\ ((snd (run args s) = 0%Z /\ m = MsgTotalTime)
          \/ (snd (run args s) = 1%Z /\ is_failure_line m = true))
      /\ (forall e, m = MsgTraceback e <-> snd (main_from args s) = inl e).
Proof.
  intros args s. rewrite run_of_main.
  destruct (loaded_urls args (world s)) as [e|urls] eqn:H.
  - rewrite (main_load_fails args s e H). cbn [fst snd stdout].
    exists [], (MsgErrorLoading (exn_text e)).
    split; [reflexivity|]. split; [right; split; reflexivity|].
    intro x. split; discriminate.
  - destruct (main_after_load args s urls H) as (pre & _ & ->).
    destruct urls as [|u urls].
    + cbn [fst snd stdout]. exists pre, MsgNoValidUrls.
      split; [rewrite <- app_assoc; reflexivity|].
      split; [right; split; reflexivity|].
      intro x. split; discriminate.
    + match goal with
      | |- context [capture_all ?a ?c ?us ?s1] =>
          destruct (capture_all_ends a c us s1) as (l & E & Hl);
          [discriminate|];
          destruct (capture_all a c us s1) as [s2 [x|code]]
      end; cbn [fst snd stdout] in E, Hl |- *.
      * exists (pre ++ l)%list, (MsgTraceback x).
        split; [rewrite E, <- !app_assoc; reflexivity|].
        split; [right; split; reflexivity|].
        intro e. split; intro I; injection I as ->; reflexivity.
      * destruct Hl as (l' & m & -> & Hm).
        exists (pre ++ l')%list, m.
        split; [rewrite E, <- !app_assoc; reflexivity|].
        destruct Hm as [[-> ->] | [-> ->]].
        { split; [left; split; reflexivity|]. intro e. split; discriminate. }
        { split; [right; split; reflexivity|]. intro e. split; discriminate. }
Qed.

End LastLine.

(** ** The order of the dictionary *)

Module DictOrder.

Lemma filter_filter {A} (f g : A -> bool) (l : list A) :
  filter f (filter g l) = filter (fun x => f x && g x) l.
Proof.
  induction l as [|x l IH]; [reflexivity|].
  cbn [filter]. destruct (g x); cbn [filter].
  - rewrite andb_true_r. destruct (f x); rewrite IH; reflexivity.
  - rewrite andb_false_r. exact IH.
Qed.

Lemma existsb_app_last (y k : string) (l : list string) :
  existsb (String.eqb y) (l ++ [k]) = existsb (String.eqb y) l || String.eqb y k.
Proof. rewrite existsb_app. cbn [existsb]. rewrite orb_false_r. reflexivity. Qed.

(** Assigning to a key adds it at the end unless it is present. *)
Lemma keys_set (k : string) (v : bool) (d : dict) :
  keys (dict_set k v d)
  = if existsb (String.eqb k) (keys d) then keys d else (keys d ++ [k])%list.
Proof.
  induction d as [|[k' v'] d IH]; [reflexivity|].
  cbn [dict_set keys map fst existsb].
  rewrite (String.eqb_sym k k').
  destruct (String.eqb k' k); cbn [orb map fst]; [reflexivity|].
  fold (keys (dict_set k v d)). fold (keys d). rewrite IH.
  destruct (existsb (String.eqb k) (keys d)); reflexivity.
Qed.

Lemma keys_fold (outcomes : list (string * bool)) (d : dict) :
  keys (fold_left set_outcome outcomes d)
  = (keys d
     ++ filter (fun u => negb (existsb (String.eqb u) (keys d)))
               (first_occurrences (map fst outcomes)))%list.
Proof.
  revert d. induction outcomes as [|[k v] os IH]; intro d.
  - cbn. now rewrite app_nil_r.
  - cbn [fold_left map fst first_occurrences]. rewrite IH.
    unfold set_outcome. cbn [fst snd]. rewrite keys_set.
    cbn [filter].
    destruct (existsb (String.eqb k) (keys d)) eqn:M; cbn [negb].
    + f_equal. rewrite filter_filter. apply filter_ext. intro y.
      destruct (String.eqb_spec y k) as [->|N]; cbn [negb].
      * rewrite M. reflexivity.
      * rewrite andb_true_r. reflexivity.
    + rewrite <- app_assoc. cbn [app]. f_equal. f_equal.
      rewrite filter_filter. apply filter_ext. intro y.
      rewrite existsb_app_last, negb_orb. reflexivity.
Qed.

Lemma get_outside (u k : string) (v : bool) (d : dict) :
  u <> k -> dict_get u ((k, v) :: d) = dict_get u d.
Proof.
  intro N. cbn [dict_get]. destruct (String.eqb_spec k u); [congruence|].
  reflexivity.
Qed.

(** With distinct keys, the successful and the failed entries are the keys
    whose value is [True], respectively [False]. *)
Lemma successful_by_key (d : dict) :
  NoDup (keys d) ->
  sum_bools (values d)
  = length (filter (fun u => match dict_get u d with
                             | Some true => true
                             | _ => false
                             end) (keys d))
  /\ failed_of d
     = filter (fun u => match dict_get u d with
                        | Some false => true
                        | _ => false
                        end) (keys d).
Proof.
  induction d as [|[k v] d IH]; intro N; [split; reflexivity|].
  cbn [keys map fst] in N. inversion N as [|? ? Hk Hd]; subst.
  destruct (IH Hd) as [S F].
  assert (E1 : filter (fun u => match dict_get u ((k, v) :: d) with
                                | Some true => true | _ => false end) (keys d)
               = filter (fun u => match dict_get u d with
                                  | Some true => true | _ => false end) (keys d)).
  { apply filter_ext_in. intros u Hu. rewrite get_outside; [reflexivity|].
    intros ->. contradiction. }
  assert (E2 : filter (fun u => match dict_get u ((k, v) :: d) with
                                | Some false => true | _ => false end) (keys d)
               = filter (fun u => match dict_get u d with
                                  | Some false => true | _ => false end) (keys d)).
  { apply filter_ext_in. intros u Hu. rewrite get_outside; [reflexivity|].
    intros ->. contradiction. }
  unfold sum_bools, values, failed_of in *.
  assert (H0 : dict_get k ((k, v) :: d) = Some v).
  { cbn [dict_get]. rewrite String.eqb_refl. reflexivity. }
  cbn [keys map fst snd filter]. fold (keys d).
  rewrite E1, E2, H0.
  destruct v; cbn [negb filter map fst length]; rewrite ?S, ?F; split; reflexivity.
Qed.

End DictOrder.

Section Order.

Context {W P : Type} {RT : Runtime W P}.

Lemma keys_of_outcomes (urls : list string) (outcomes : list (string * bool)) :
  map fst outcomes = urls ->
  keys (fold_left set_outcome outcomes []) = first_occurrences urls.
Proof.
  intro Hu. rewrite DictOrder.keys_fold, Hu. cbn [keys map app existsb negb].
  induction (first_occurrences urls) as [|x xs IH]; [reflexivity|].
  cbn [filter]. rewrite IH. reflexivity.
Qed.

(** X10: the keys of the dictionary [batch_capture] returns are the URLs of
    the input in the order of their first occurrence; and it does return one
    when [os.makedirs] and [urlparse] return. *)
Theorem batch_capture_keys_in_order_of_first_occurrence :
  forall (config : ScreenshotConfig) (urls : list string) (output_dir : string)
         (name_template : template) (s : state W),
    (forall results,
        snd (batch_capture config urls output_dir name_template s) = inr results ->
        keys results = first_occurrences urls)
    /\ (snd (makedirs output_dir (world s)) = inr tt ->
        all_parse urls ->
        exists results,
          snd (batch_capture config urls output_dir name_template s)
          = inr results).
Proof.
  intros config urls output_dir name_template s. split.
  - intros results R.
    destruct (batch_capture config urls output_dir name_template s)
      as [s' r] eqn:Run.
    cbn [snd] in R. subst r.
    destruct (batch_capture_run _ _ _ _ _ _ _ Run)
      as (l & _ & _ & _ & os & Hu & _ & -> & _).
    apply keys_of_outcomes. exact Hu.
  - intros Hm Hp.
    destruct (batch_capture_returns config urls output_dir name_template s Hm Hp)
      as (l & os & _ & _ & _ & R & _).
    eexists. exact R.
Qed.

(** X11: whatever the URLs, repeated or not, in a batch run in which
    [os.makedirs] and [urlparse] return, the summary counts the distinct
    URLs: its total is their number, its successful count the number of those
    whose last capture returned [True], and the URLs it lists as failed are
    those whose last capture returned [False], in the order of their first
    occurrence in the input. *)
Theorem batch_summary_counts_distinct_urls :
  forall (args : Namespace) (s : state W) (urls : list string),
    loaded_urls args (world s) = inr urls ->
    2 <= length urls ->
    snd (makedirs (Args.output args) (launched (world s))) = inr tt ->
    all_parse urls ->
    exists l outcomes w_end,
      stdout (fst (run args s)) = (stdout s ++ l)%list
      /\ map fst outcomes = urls
      /\ captures (make_config args) urls
           (fst (makedirs (Args.output args) (launched (world s))))
           outcomes w_end
      /\ verdicts_of l = map snd outcomes
      /\ summaries_of l
         = [(length (filter (succeeded_last outcomes) (first_occurrences urls)),
             length (first_occurrences urls))]
      /\ listed_of l = filter (failed_last outcomes) (first_occurrences urls).
Proof.
  intros args s urls Hload L Hm Hp.
  destruct (run_batch args s urls Hload L Hm Hp)
    as (l & os & w_end & R & Hu & Hc & (Hv & _ & _ & Hs & Hl) & _).
  exists l, os, w_end. rewrite R. cbn [fst stdout].
  split; [reflexivity|]. split; [exact Hu|]. split; [exact Hc|].
  split; [exact Hv|].
  set (results := fold_left set_outcome os []) in *.
  assert (K : keys results = first_occurrences urls)
    by (apply keys_of_outcomes; exact Hu).
  assert (N : NoDup (keys results)).
  { unfold results. apply DictFacts.nodup_keys_fold. constructor. }
  destruct (DictOrder.successful_by_key results N) as [S F].
  assert (G : forall u, dict_get u results = last_result u os).
  { intro u. unfold results. rewrite DictFacts.get_fold.
    destruct (last_result u os); reflexivity. }
  rewrite Hs, Hl, S, F, K.
  assert (LK : length results = length (first_occurrences urls)).
  { rewrite <- K. symmetry. apply length_map. }
  rewrite LK. split.
  - f_equal. f_equal. f_equal. apply filter_ext. intro u.
    unfold succeeded_last. rewrite G. reflexivity.
  - apply filter_ext. intro u. unfold failed_last. rewrite G. reflexivity.
Qed.

End Order.

Lemma batch_capture_keys_in_order_of_first_occurrence_witness :
  snd (makedirs "shots" (world (Demo.start Demo.disk [true; false; true])))
  = inr tt
  /\ all_parse (RT := Demo.runtime)
       ["https://b.example/"; "https://a.example/"; "https://b.example/"]
  /\ exists results,
       snd (batch_capture default_config
              ["https://b.example/"; "https://a.example/"; "https://b.example/"]
              "shots" default_name_template
              (Demo.start Demo.disk [true; false; true]))
       = inr results
       /\ keys results = ["https://b.example/"; "https://a.example/"].
Proof.
  assert (A : all_parse (RT := Demo.runtime)
                ["https://b.example/"; "https://a.example/"; "https://b.example/"]).
  { constructor; [reflexivity|]. constructor; [reflexivity|].
    constructor; [reflexivity|]. constructor. }
  split; [reflexivity|]. split; [exact A|].
  destruct (batch_capture_keys_in_order_of_first_occurrence (RT := Demo.runtime)
              default_config
              ["https://b.example/"; "https://a.example/"; "https://b.example/"]
              "shots" default_name_template
              (Demo.start Demo.disk [true; false; true])) as [K R].
  destruct (R eq_refl A) as [results E].
  exists results. split; [exact E|]. exact (K results E).
Defined.

Lemma batch_summary_counts_distinct_urls_witness :
  loaded_urls (Demo.file_args "twice.txt")
    (world (Demo.start Demo.disk [true; false]))
  = inr ["https://example.com/a"; "https://example.com/a"]
  /\ 2 <= length ["https://example.com/a"; "https://example.com/a"]
  /\ snd (makedirs (Args.output (Demo.file_args "twice.txt"))
            (launched (world (Demo.start Demo.disk [true; false]))))
     = inr tt
  /\ all_parse (RT := Demo.runtime)
       ["https://example.com/a"; "https://example.com/a"]
  /\ first_occurrences ["https://example.com/a"; "https://example.com/a"]
     = ["https://example.com/a"]
  /\ exists l outcomes w_end,
       stdout (fst (run (Demo.file_args "twice.txt")
                        (Demo.start Demo.disk [true; false])))
       = (stdout (Demo.start Demo.disk [true; false]) ++ l)%list
       /\ map fst outcomes = ["https://example.com/a"; "https://example.com/a"]
       /\ captures (make_config (Demo.file_args "twice.txt"))
            ["https://example.com/a"; "https://example.com/a"]
            (fst (makedirs (Args.output (Demo.file_args "twice.txt"))
                    (launched (world (Demo.start Demo.disk [true; false])))))
            outcomes w_end
       /\ verdicts_of l = map snd outcomes
       /\ summaries_of l
          = [(length (filter (succeeded_last outcomes)
                        (first_occurrences
                           ["https://example.com/a"; "https://example.com/a"])),
              length (first_occurrences
                        ["https://example.com/a"; "https://example.com/a"]))]
       /\ listed_of l
          = filter (failed_last outcomes)
              (first_occurrences
                 ["https://example.com/a"; "https://example.com/a"]).
Proof.
  assert (A : all_parse (RT := Demo.runtime)
                ["https://example.com/a"; "https://example.com/a"]).
  { constructor; [reflexivity|]. constructor; [reflexivity|]. constructor. }
  split; [reflexivity|]. split; [apply le_n|]. split; [reflexivity|].
  split; [exact A|]. split; [reflexivity|].
  exact (batch_summary_counts_distinct_urls (RT := Demo.runtime)
           (Demo.file_args "twice.txt") (Demo.start Demo.disk [true; false])
           ["https://example.com/a"; "https://example.com/a"]
           eq_refl (le_n 2) eq_refl A).
Defined.

Example last_capture_decides_example :
  let l := stdout (fst (run (Demo.file_args "twice.txt")
                            (Demo.start Demo.disk [true; false]))) in
  verdicts_of l = [true; false]
  /\ summaries_of l = [(0, 1)]
  /\ listed_of l = ["https://example.com/a"].
Proof. repeat split. Qed.

(** ** The calls a computation makes *)

Section Calls.

Context {W P : Type} (RT : Runtime W P).

Local Abbreviation RW := (W * trace)%type.
Local Abbreviation prog := (M (W := RW)).
Local Abbreviation tried := (T (W := RW)).

Lemma returned_app (e1 e2 : list invocation) :
  returned (e1 ++ e2) = (returned e1 ++ returned e2)%list.
Proof. apply map_app. Qed.

Lemma returned_no_raise (e : list invocation) (c : invocation) (x : exn) :
  ~ In (c, Raised x) (returned e).
Proof.
  unfold returned. intro H. apply in_map_iff in H.
  destruct H as (c' & E & _). discriminate E.
Qed.

Lemma tries_nil {A} (tail : tried A) : tries [] tail tail.
Proof.
  intro s. right. exists s, []. cbn [returned map]. rewrite !app_nil_r.
  repeat split.
Qed.

Lemma tries_call {A B} (c : invocation) (f : W -> W * result A)
      (e : list invocation) (k : A -> tried B) (tail : tried B) :
  (forall a, tries e (k a) tail) ->
  tries (c :: e) (bindT (call (recorded c f)) k) tail.
Proof.
  intros H s. unfold bindT, call, recorded.
  destruct (f (fst (world s))) as [w' [x|a]]; cbn [ending_of].
  - left. exists x, [], c, e. repeat split.
  - match goal with
    | |- context [k a ?s1] =>
        destruct (H a s1) as [(x & front & c' & rest & E & R & C)
                             | (s_mid & l & C & O & E)]
    end.
    + left. exists x, (c :: front), c', rest.
      split; [rewrite E; reflexivity|]. split; [exact R|].
      rewrite C. unfold calls_of. cbn [world snd returned map app].
      rewrite <- app_assoc. reflexivity.
    + right. exists s_mid, l.
      split; [|split; [exact O | exact E]].
      rewrite C. unfold calls_of. cbn [world snd returned map app].
      rewrite <- app_assoc. reflexivity.
Qed.

Lemma tries_say {A} (m : message) (e : list invocation) (k : unit -> tried A)
      (tail : tried A) :
  tries e (k tt) tail -> tries e (bindT (say m) k) tail.
Proof.
  intros H s. unfold bindT, say, print. cbn [fst snd].
  match goal with
  | |- context [k tt ?s1] =>
      destruct (H s1) as [(x & front & c' & rest & E & R & C)
                         | (s_mid & l & C & O & E)]
  end.
  - left. exists x, front, c', rest. repeat split; assumption.
  - right. exists s_mid, ([m] ++ l)%list.
    split; [exact C|]. split; [|exact E].
    rewrite O. cbn [stdout]. rewrite <- app_assoc. reflexivity.
Qed.

Lemma tries_when {A} (b : bool) (c : invocation) (f : W -> W * result unit)
      (e : list invocation) (k : unit -> tried A) (tail : tried A) :
  (forall a, tries e (k a) tail) ->
  tries ((if b then [c] else []) ++ e)
        (bindT (when b (call (recorded c f))) k) tail.
Proof.
  intro H. destruct b.
  - apply tries_call. exact H.
  - intro s. exact (H tt s).
Qed.

Lemma tries_conv {A} (e e' : list invocation) (c tail : tried A) :
  tries e c tail -> e = e' -> tries e' c tail.
Proof. intros H <-. exact H. Qed.

(** The [try] block attempts the calls of [capture_calls]; when all of
    them have returned, only the size of the file is left to ask for. *)
Lemma capture_try_tries (config : ScreenshotConfig) (url output_path : string) :
  tries (capture_calls config url output_path)
        (capture_try (RT := recording RT) config url output_path)
        (bindT (call (fun w : RW => (w, @getsize W P RT output_path (fst w))))
               (fun file_size =>
                  bindT (say (MsgSaved output_path file_size))
                        (fun _ => retT true))).
Proof.
  unfold capture_try. eapply tries_conv.
  - apply tries_call; intro page.
    apply tries_when; intros _.
    apply tries_when; intros _.
    apply tries_say.
    apply tries_call; intros _.
    apply tries_when; intros _.
    apply tries_call; intros _.
    apply tries_call; intros _.
    apply tries_call; intros _.
    apply tries_call; intros _.
    apply tries_call; intros _.
    apply tries_say.
    apply tries_call; intros _.
    apply tries_call; intros _.
    apply tries_nil.
  - reflexivity.
Qed.

(** What one capture leaves in the record: either a call raised, it is the
    last one made, and the capture returns [False] with the error of that
    call; or all the calls were made and returned, and the capture returns
    [True] unless the size of the file cannot be read. *)
Lemma capture_screenshot_record (config : ScreenshotConfig)
      (url output_path : string) (s : state RW) :
  (exists x front c rest,
      capture_calls config url output_path = (front ++ c :: rest)%list
      /\ calls_of (fst (capture_screenshot (RT := recording RT)
                          config url output_path s))
         = (calls_of s ++ returned front ++ [(c, Raised x)])%list
      /\ snd (capture_screenshot (RT := recording RT)
                config url output_path s) = false
      /\ exists l,
           stdout (fst (capture_screenshot (RT := recording RT)
                          config url output_path s))
           = (stdout s ++ l ++ [MsgErrorCapturing url (exn_text x)])%list)
  \/ (calls_of (fst (capture_screenshot (RT := recording RT)
                       config url output_path s))
      = (calls_of s ++ returned (capture_calls config url output_path))%list
      /\ match @getsize W P RT output_path
                 (fst (world (fst (capture_screenshot (RT := recording RT)
                                     config url output_path s)))) with
         | inr size =>
             snd (capture_screenshot (RT := recording RT)
                    config url output_path s) = true
             /\ exists l,
                  stdout (fst (capture_screenshot (RT := recording RT)
                                 config url output_path s))
                  = (stdout s ++ l ++ [MsgSaved output_path size])%list
         | inl x =>
             snd (capture_screenshot (RT := recording RT)
                    config url output_path s) = false
             /\ exists l,
                  stdout (fst (capture_screenshot (RT := recording RT)
                                 config url output_path s))
                  = (stdout s ++ l ++ [MsgErrorCapturing url (exn_text x)])%list
         end).
Proof.
  unfold capture_screenshot, bind.
  destruct (capture_try_log (RT := recording RT) config url output_path s)
    as (l & E & _).
  destruct (capture_try_tries config url output_path s)
    as [(x & front & c & rest & Ecalls & R & C) | (s_mid & l' & C & O & Etail)].
  - left.
    destruct (capture_try (RT := recording RT) config url output_path s)
      as [s1 r].
    cbn [fst snd] in R, C, E. subst r. cbn [print ret fst snd].
    exists x, front, c, rest. split; [exact Ecalls|]. split; [exact C|].
    split; [reflexivity|]. exists l. cbn [stdout]. rewrite E, <- app_assoc.
    reflexivity.
  - right. rewrite Etail. unfold bindT, call, say, print, retT, ret.
    cbn [fst snd world stdout].
    destruct (@getsize W P RT output_path (fst (world s_mid))) as [x|size] eqn:G;
      cbn [fst snd world stdout]; rewrite G.
    + split; [exact C|]. split; [reflexivity|]. exists l'.
      rewrite O, <- app_assoc. reflexivity.
    + split; [exact C|]. split; [reflexivity|]. exists l'.
      rewrite O, <- app_assoc. reflexivity.
Qed.

Lemma capture_calls_end_with_close (config : ScreenshotConfig)
      (url output_path : string) :
  exists body,
    capture_calls config url output_path = (body ++ [CallPageClose])%list
    /\ existsb is_page_close body = false
    /\ forallb (fun c => negb (is_lifecycle c))
         (capture_calls config url output_path) = true.
Proof.
  unfold capture_calls, page_calls.
  exists (removelast (capture_calls config url output_path)).
  unfold capture_calls, page_calls.
  destruct (block_ads config), (disable_animations config),
    (truthy_str (wait_for_selector config)); repeat split.
Qed.

(** The record of a capture has no call that starts or stops the browser. *)
Lemma capture_record_without_lifecycle (config : ScreenshotConfig)
      (url : string) (t : trace) :
  capture_record config url t ->
  forallb (fun c => negb (is_lifecycle (fst c))) t = true.
Proof.
  intros (path & H).
  destruct (capture_calls_end_with_close config url path) as (_ & _ & _ & N).
  assert (R : forall e,
             forallb (fun c => negb (is_lifecycle c)) e = true ->
             forallb (fun c => negb (is_lifecycle (fst c))) (returned e) = true).
  { induction e as [|c e IH]; [reflexivity|]. cbn [forallb returned map fst].
    intro F. apply andb_true_iff in F. destruct F as [F1 F2].
    rewrite F1. apply IH. exact F2. }
  destruct H as [-> | (x & front & c & rest & E & ->)].
  - apply R. exact N.
  - rewrite E, forallb_app in N. apply andb_true_iff in N.
    destruct N as [N1 N2]. cbn [forallb] in N2.
    apply andb_true_iff in N2. destruct N2 as [N2 _].
    rewrite forallb_app, (R front N1). cbn [forallb fst]. rewrite N2.
    reflexivity.
Qed.

End Calls.

(** ** The recording runtime does what the recorded one does *)

Section Mirror.

Context {W P : Type} (RT : Runtime W P).

Local Abbreviation RW := (W * trace)%type.

Lemma mirrors_ret {A} (a : A) : mirrors (W := W) (ret a) (ret a).
Proof. intro s. reflexivity. Qed.

Lemma mirrors_bind {A B} (c' : M (W := RW) A) (c : M (W := W) A)
      (k' : A -> M (W := RW) B) (k : A -> M (W := W) B) :
  mirrors c' c -> (forall a, mirrors (k' a) (k a)) ->
  mirrors (bind c' k') (bind c k).
Proof.
  intros Hc Hk s. unfold bind. specialize (Hc s).
  destruct (c' s) as [s1 a]. cbn [fst snd] in Hc. rewrite <- Hc. apply Hk.
Qed.

Lemma mirrors_bindT {A B} (c' : T (W := RW) A) (c : T (W := W) A)
      (k' : A -> T (W := RW) B) (k : A -> T (W := W) B) :
  mirrors c' c -> (forall a, mirrors (k' a) (k a)) ->
  mirrors (bindT c' k') (bindT c k).
Proof.
  intros Hc Hk s. unfold bindT. specialize (Hc s).
  destruct (c' s) as [s1 [x|a]]; cbn [fst snd] in Hc; rewrite <- Hc.
  - reflexivity.
  - apply Hk.
Qed.

Lemma mirrors_print (m : message) : mirrors (W := W) (print m) (print m).
Proof. intro s. reflexivity. Qed.

Lemma mirrors_say (m : message) : mirrors (W := W) (say m) (say m).
Proof. intro s. reflexivity. Qed.

Lemma mirrors_retT {A} (a : A) : mirrors (W := W) (retT a) (retT a).
Proof. intro s. reflexivity. Qed.

Lemma mirrors_act (c : invocation) (f : W -> W) :
  mirrors (act (recorded_act c f)) (act f).
Proof. intro s. reflexivity. Qed.

Lemma mirrors_ask {A} (f : W -> A) :
  mirrors (ask (fun wt : RW => f (fst wt))) (ask f).
Proof. intro s. reflexivity. Qed.

Lemma mirrors_call {A} (c : invocation) (f : W -> W * result A) :
  mirrors (call (recorded c f)) (call f).
Proof.
  intro s. unfold call, recorded. cbn [erase world fst].
  destruct (f (fst (world s))). reflexivity.
Qed.

Lemma mirrors_call_pure {A} (g : W -> result A) :
  mirrors (call (fun wt : RW => (wt, g (fst wt)))) (call (fun w => (w, g w))).
Proof. intro s. reflexivity. Qed.

Lemma mirrors_ok {A} (c' : M (W := RW) A) (c : M (W := W) A) :
  mirrors c' c -> mirrors (ok c') (ok c).
Proof.
  intros H s. unfold ok. specialize (H s).
  destruct (c' s) as [s1 a]. cbn [fst snd] in H. rewrite <- H. reflexivity.
Qed.

Lemma mirrors_raise_if (raised : option exn) :
  mirrors (W := W) (raise_if raised) (raise_if raised).
Proof. intro s. reflexivity. Qed.

Lemma mirrors_when (b : bool) (c' : T (W := RW) unit) (c : T (W := W) unit) :
  mirrors c' c -> mirrors (when b c') (when b c).
Proof. intro H. destruct b; [exact H | apply mirrors_retT]. Qed.

Lemma capture_try_mirrors (config : ScreenshotConfig) (url output_path : string) :
  mirrors (capture_try (RT := recording RT) config url output_path)
          (capture_try (RT := RT) config url output_path).
Proof.
  unfold capture_try.
  repeat (apply mirrors_bindT;
          [ first [ apply mirrors_when; apply mirrors_call
                  | apply mirrors_call
                  | apply mirrors_say
                  | apply (mirrors_call_pure (@getsize W P RT output_path)) ]
          | intro ]).
  apply mirrors_retT.
Qed.

Lemma capture_screenshot_mirrors (config : ScreenshotConfig)
      (url output_path : string) :
  mirrors (capture_screenshot (RT := recording RT) config url output_path)
          (capture_screenshot (RT := RT) config url output_path).
Proof.
  unfold capture_screenshot. apply mirrors_bind.
  - apply capture_try_mirrors.
  - intros [e|b].
    + apply mirrors_bind; [apply mirrors_print | intro; apply mirrors_ret].
    + apply mirrors_ret.
Qed.

Lemma batch_loop_mirrors (config : ScreenshotConfig) (output_dir : string)
      (name_template : template) (n : nat) :
  forall (urls : list string) (i : nat) (d : dict),
    mirrors (batch_loop (RT := recording RT) config output_dir name_template
                        n i urls d)
            (batch_loop (RT := RT) config output_dir name_template n i urls d).
Proof.
  induction urls as [|url rest IH]; intros i d.
  - apply mirrors_retT.
  - cbn [batch_loop].
    apply mirrors_bindT; [apply mirrors_say | intros _].
    apply mirrors_bindT; [apply mirrors_raise_if | intros _].
    apply mirrors_bindT.
    { apply mirrors_ok.
      apply (mirrors_ask (fun w => strftime_stamp (@datetime_now W P RT w))). }
    intro timestamp.
    apply mirrors_bindT;
      [apply mirrors_ok, capture_screenshot_mirrors | intro success].
    apply mirrors_bindT; [|intros _; apply IH].
    destruct (i <? n)%nat; [apply mirrors_ok, mirrors_act | apply mirrors_retT].
Qed.

Lemma batch_capture_mirrors (config : ScreenshotConfig) (urls : list string)
      (output_dir : string) (name_template : template) :
  mirrors (batch_capture (RT := recording RT) config urls output_dir name_template)
          (batch_capture (RT := RT) config urls output_dir name_template).
Proof.
  unfold batch_capture.
  apply mirrors_bindT; [apply mirrors_call | intros _; apply batch_loop_mirrors].
Qed.

Lemma print_failed_mirrors (items : dict) :
  mirrors (W := W) (print_failed items) (print_failed items).
Proof.
  induction items as [|[url success] rest IH]; [apply mirrors_ret|].
  cbn [print_failed]. apply mirrors_bind; [|intros _; exact IH].
  destruct (negb success); [apply mirrors_print | apply mirrors_ret].
Qed.

Lemma print_summary_mirrors (results : dict) :
  mirrors (W := W) (print_summary results) (print_summary results).
Proof.
  unfold print_summary.
  repeat (apply mirrors_bind; [apply mirrors_print | intros _]).
  destruct (_ <? _)%nat; [|apply mirrors_ret].
  apply mirrors_bind; [apply mirrors_print | intros _; apply print_failed_mirrors].
Qed.

Lemma screeny_enter_mirrors :
  mirrors (screeny_enter (RT := recording RT)) (screeny_enter (RT := RT)).
Proof.
  unfold screeny_enter.
  apply mirrors_bind; [apply mirrors_act | intros _; apply mirrors_act].
Qed.

Lemma screeny_exit_mirrors :
  mirrors (screeny_exit (RT := recording RT)) (screeny_exit (RT := RT)).
Proof.
  unfold screeny_exit.
  apply mirrors_bind; [apply mirrors_act | intros _; apply mirrors_act].
Qed.

Lemma async_with_screeny_mirrors {A} (body' : T (W := RW) A)
      (body : T (W := W) A) :
  mirrors body' body ->
  mirrors (async_with_screeny (RT := recording RT) body')
          (async_with_screeny (RT := RT) body).
Proof.
  intro H. unfold async_with_screeny.
  apply mirrors_bind; [apply screeny_enter_mirrors | intros _].
  apply mirrors_bind; [exact H | intro r].
  apply mirrors_bind; [apply screeny_exit_mirrors | intros _; apply mirrors_ret].
Qed.

Lemma capture_all_mirrors (args : Namespace) (config : ScreenshotConfig)
      (urls : list string) :
  mirrors (capture_all (RT := recording RT) args config urls)
          (capture_all (RT := RT) args config urls).
Proof.
  assert (B : forall urls',
             mirrors
               (bindT (batch_capture (RT := recording RT) config urls'
                         (Args.output args) default_name_template)
                      (fun results =>
                         bindT (ok (print_summary results))
                               (fun _ => retT (@None Z))))
               (bindT (batch_capture (RT := RT) config urls'
                         (Args.output args) default_name_template)
                      (fun results =>
                         bindT (ok (print_summary results))
                               (fun _ => retT (@None Z))))).
  { intro urls'.
    apply mirrors_bindT; [apply batch_capture_mirrors | intro results].
    apply mirrors_bindT;
      [apply mirrors_ok, print_summary_mirrors | intros _; apply mirrors_retT]. }
  unfold capture_all. apply mirrors_bindT.
  - apply async_with_screeny_mirrors.
    destruct urls as [|u [|u2 rest]]; [apply B | | apply B].
    apply mirrors_bindT; [apply mirrors_raise_if | intros _].
    apply mirrors_bindT.
    { apply mirrors_ok.
      apply (mirrors_ask (fun w => strftime_stamp (@datetime_now W P RT w))). }
    intro timestamp.
    apply mirrors_bindT; [apply mirrors_call | intros _].
    apply mirrors_bindT;
      [apply mirrors_ok, capture_screenshot_mirrors | intros [|]].
    + apply mirrors_bindT; [apply mirrors_say | intros _; apply mirrors_retT].
    + apply mirrors_bindT; [apply mirrors_say | intros _; apply mirrors_retT].
  - intros [code|]; [apply mirrors_retT|].
    apply mirrors_bindT; [apply mirrors_say | intros _; apply mirrors_retT].
Qed.

Lemma main_from_mirrors (args : Namespace) :
  mirrors (main_from (RT := recording RT) args) (main_from (RT := RT) args).
Proof.
  unfold main_from. apply mirrors_bind.
  - destruct (truthy_str (Args.url args)); [apply mirrors_ret|].
    apply mirrors_bind.
    { apply (mirrors_ask (load_urls_from_file (RT := RT) (Args.file args))). }
    intros [e|urls].
    + apply mirrors_bind; [apply mirrors_print | intros _; apply mirrors_ret].
    + apply mirrors_bind; [apply mirrors_print | intros _; apply mirrors_ret].
  - intros [[|u urls]|].
    + apply mirrors_bindT; [apply mirrors_say | intros _; apply mirrors_retT].
    + apply capture_all_mirrors.
    + apply mirrors_retT.
Qed.

(** A run on the recording runtime is, the record apart, the run on the
    runtime that is recorded. *)
Lemma run_mirrors (args : Namespace) :
  mirrors (run (RT := recording RT) args) (run (RT := RT) args).
Proof.
  unfold run. apply mirrors_bind; [apply main_from_mirrors|].
  intros [e|code]; [|apply mirrors_ret].
  apply mirrors_bind; [apply mirrors_print | intros _; apply mirrors_ret].
Qed.

End Mirror.

(** ** The calls of a capture, of a batch and of a run *)

Section CallClaims.

Context {W P : Type} (RT : Runtime W P).

Local Abbreviation RW := (W * trace)%type.

(** X12: one call of [capture_screenshot] attempts the calls of
    [capture_calls] in their fixed order: it opens a page, makes the calls on
    the page and closes it last.  If one of the calls raises, no call is made
    after it, the capture returns [False] and its last line is the error of
    that call, so a failure of any call before the last leaves the page open.
    If all of them return, the capture returns [True] and reports the saved
    file, unless the size of the file cannot be read.  The value and the
    world are those of the run that is recorded. *)
Theorem capture_screenshot_call_sequence :
  forall (config : ScreenshotConfig) (url output_path : string) (s : state RW),
    let ran :=
      capture_screenshot (RT := recording RT) config url output_path s in
    let calls := capture_calls config url output_path in
    (erase (fst ran), snd ran)
    = capture_screenshot (RT := RT) config url output_path (erase s)
    /\ ((exists x front c rest,
            calls = (front ++ c :: rest)%list
            /\ calls_of (fst ran)
               = (calls_of s ++ returned front ++ [(c, Raised x)])%list
            /\ snd ran = false
            /\ exists l,
                 stdout (fst ran)
                 = (stdout s ++ l ++ [MsgErrorCapturing url (exn_text x)])%list)
        \/ (calls_of (fst ran) = (calls_of s ++ returned calls)%list
            /\ match @getsize W P RT output_path (fst (world (fst ran))) with
               | inr size =>
                   snd ran = true
                   /\ exists l,
                        stdout (fst ran)
                        = (stdout s ++ l ++ [MsgSaved output_path size])%list
               | inl x =>
                   snd ran = false
                   /\ exists l,
                        stdout (fst ran)
                        = (stdout s ++ l
                           ++ [MsgErrorCapturing url (exn_text x)])%list
               end))
    /\ exists body,
         calls = (CallNewPage (page_options config) :: body ++ [CallPageClose])%list
         /\ existsb is_page_close body = false.
Proof.
  intros config url output_path s ran calls.
  split; [apply capture_screenshot_mirrors|].
  split; [exact (capture_screenshot_record RT config url output_path s)|].
  unfold calls, capture_calls, page_calls.
  eexists (removelast (page_calls config url output_path)).
  unfold page_calls.
  destruct (block_ads config), (disable_animations config),
    (truthy_str (wait_for_selector config)); split; reflexivity.
Qed.

(** The record of one capture. *)
Lemma capture_screenshot_segment (config : ScreenshotConfig)
      (url output_path : string) (s : state RW) :
  exists segment,
    calls_of (fst (capture_screenshot (RT := recording RT)
                     config url output_path s))
    = (calls_of s ++ segment)%list
    /\ capture_record config url segment
    /\ (snd (capture_screenshot (RT := recording RT) config url output_path s)
        = true ->
        segment = returned (capture_calls config url output_path)).
Proof.
  destruct (capture_screenshot_record RT config url output_path s)
    as [(x & front & c & rest & E & C & R & _) | (C & _)].
  - exists (returned front ++ [(c, Raised x)])%list.
    split; [exact C|]. split.
    + exists output_path. right. exists x, front, c, rest.
      split; [exact E | reflexivity].
    + rewrite R. discriminate.
  - exists (returned (capture_calls config url output_path)).
    split; [exact C|]. split; [|reflexivity].
    exists output_path. left. reflexivity.
Qed.

Lemma with_sleeps_cons (segment : trace) (segments : list trace) :
  segments <> [] ->
  with_sleeps (segment :: segments)
  = (segment ++ (CallSleep 1, Returned) :: with_sleeps segments)%list.
Proof. destruct segments; [contradiction | reflexivity]. Qed.

(** The loop of [batch_capture]: the records of the captures, one per URL
    and in order, with a sleep between two of them; when [urlparse] raises,
    the records of the captures before, each followed by a sleep. *)
Lemma batch_loop_calls (config : ScreenshotConfig) (output_dir : string)
      (name_template : template) (n : nat) :
  forall (urls : list string) (i : nat) (d : dict) (s s' : state RW)
         (r : result dict),
    i + length urls = S n ->
    batch_loop (RT := recording RT) config output_dir name_template n i urls d s
    = (s', r) ->
    exists made,
      calls_of s' = (calls_of s ++ made)%list
      /\ match r with
         | inr _ =>
             exists segments,
               made = with_sleeps segments
               /\ Forall2 (capture_record config) urls segments
         | inl e =>
             exists before url after segments,
               urls = (before ++ url :: after)%list
               /\ @urlparse_raises W P RT url = Some e
               /\ made = each_then_sleep segments
               /\ Forall2 (capture_record config) before segments
         end.
Proof.
  induction urls as [|url rest IH]; intros i d s s' r Hi Run.
  - injection Run as <- <-. exists []. rewrite app_nil_r.
    split; [reflexivity|]. exists []. split; [reflexivity | constructor].
  - cbn [batch_loop] in Run.
    unfold bindT, say, print, raise_if, timestamp_now, ask in Run.
    unfold ok at 1 2 in Run.
    cbn [fst snd world stdout] in Run.
    change (@urlparse_raises _ _ (recording RT) url)
      with (@urlparse_raises W P RT url) in Run.
    destruct (@urlparse_raises W P RT url) as [e|] eqn:U.
    + injection Run as <- <-. exists []. rewrite app_nil_r.
      split; [reflexivity|].
      exists [], url, rest, []. repeat split; [exact U | constructor].
    + match type of Run with
      | context [capture_screenshot ?c ?u ?p ?s1] =>
          destruct (capture_screenshot_segment c u p s1) as (seg & Ec & Hs & _);
          destruct (capture_screenshot c u p s1) as [s2 b]
      end.
      cbn [fst snd] in Ec. unfold calls_of in Ec at 2. cbn [world] in Ec.
      fold (calls_of s) in Ec.
      simpl length in Hi.
      destruct (i <? n)%nat eqn:Lt.
      * (* a sleep follows: there are URLs left *)
        apply Nat.ltb_lt in Lt.
        unfold ok, act in Run. cbn [fst snd world stdout] in Run.
        match type of Run with
        | batch_loop _ _ _ _ _ _ _ ?s3 = _ =>
            destruct (IH (S i) (dict_set url b d) s3 s' r ltac:(lia) Run)
              as (made & E' & H')
        end.
        unfold calls_of in E' at 2. cbn [world snd] in E'.
        change (snd (asyncio_sleep (Runtime := recording RT) 1 (world s2)))
          with (calls_of s2 ++ [(CallSleep 1, Returned)])%list in E'.
        exists (seg ++ (CallSleep 1, Returned) :: made)%list. split.
        { rewrite E', Ec. rewrite <- !app_assoc. reflexivity. }
        destruct r as [e|results].
        -- destruct H' as (before & bad & after & segs & -> & R & -> & F).
           exists (url :: before), bad, after, (seg :: segs).
           split; [reflexivity|]. split; [exact R|].
           split; [|constructor; assumption].
           unfold each_then_sleep. cbn [flat_map].
           rewrite <- app_assoc. reflexivity.
        -- destruct H' as (segs & -> & F).
           exists (seg :: segs). split; [|constructor; assumption].
           symmetry. apply with_sleeps_cons.
           destruct rest; [simpl in Hi; lia|]. inversion F. discriminate.
      * (* the last URL *)
        apply Nat.ltb_ge in Lt.
        assert (rest = []) as ->.
        { destruct rest; [reflexivity | simpl in Hi; lia]. }
        cbn in Run. injection Run as <- <-.
        exists seg. split; [exact Ec|].
        exists [seg]. split; [reflexivity|]. repeat constructor. exact Hs.
Qed.

(** The calls of [batch_capture], in the three ways it ends. *)
Lemma batch_capture_calls (config : ScreenshotConfig) (urls : list string)
      (output_dir : string) (name_template : template) (s s' : state RW)
      (r : result dict) :
  batch_capture (RT := recording RT) config urls output_dir name_template s
  = (s', r) ->
  exists made,
    calls_of s' = (calls_of s ++ made)%list
    /\ match r with
       | inr _ =>
           exists segments,
             made = ((CallMakedirs output_dir, Returned) :: with_sleeps segments)
             /\ Forall2 (capture_record config) urls segments
       | inl e =>
           made = [(CallMakedirs output_dir, Raised e)]
           \/ exists before url after segments,
                urls = (before ++ url :: after)%list
                /\ @urlparse_raises W P RT url = Some e
                /\ made = ((CallMakedirs output_dir, Returned)
                           :: each_then_sleep segments)
                /\ Forall2 (capture_record config) before segments
       end.
Proof.
  unfold batch_capture, bindT, call.
  change (@makedirs _ _ (recording RT) output_dir)
    with (recorded (CallMakedirs output_dir) (@makedirs W P RT output_dir)).
  unfold recorded.
  destruct (@makedirs W P RT output_dir (fst (world s))) as [w1 [e|[]]];
    cbn [ending_of].
  - intro H. injection H as <- <-.
    exists [(CallMakedirs output_dir, Raised e)]. split; [reflexivity|].
    left. reflexivity.
  - intro Run.
    destruct (batch_loop_calls config output_dir name_template (length urls)
                urls 1 [] _ s' r eq_refl Run) as (made & E & H).
    unfold calls_of in E at 2. cbn [world snd] in E. fold (calls_of s) in E.
    exists ((CallMakedirs output_dir, Returned) :: made). split.
    { rewrite E, <- app_assoc. reflexivity. }
    destruct r as [e|results].
    + right. destruct H as (before & bad & after & segs & Eu & R & -> & F).
      exists before, bad, after, segs. repeat split; assumption.
    + destruct H as (segs & -> & F). exists segs. split; [reflexivity | exact F].
Qed.

(** X13: [batch_capture] calls [os.makedirs] for the output directory once,
    first.  If that raises, it makes no other call.  Otherwise it captures
    the URLs in order, each capture with the record of [capture_record], and
    sleeps one second between two captures, not after the last; if
    [urlparse] raises on a URL, the URLs before it have been captured, each
    followed by a sleep, and no call is made for that URL and those after
    it.  The value, the output and the world are those of the run that is
    recorded. *)
Theorem batch_capture_call_sequence :
  forall (config : ScreenshotConfig) (urls : list string) (output_dir : string)
         (name_template : template) (s : state RW),
    let ran :=
      batch_capture (RT := recording RT) config urls output_dir name_template s in
    (erase (fst ran), snd ran)
    = batch_capture (RT := RT) config urls output_dir name_template (erase s)
    /\ exists made,
         calls_of (fst ran) = (calls_of s ++ made)%list
         /\ match snd ran with
            | inr _ =>
                exists segments,
                  made = ((CallMakedirs output_dir, Returned)
                          :: with_sleeps segments)
                  /\ Forall2 (capture_record config) urls segments
            | inl e =>
                made = [(CallMakedirs output_dir, Raised e)]
                \/ exists before url after segments,
                     urls = (before ++ url :: after)%list
                     /\ @urlparse_raises W P RT url = Some e
                     /\ made = ((CallMakedirs output_dir, Returned)
                                :: each_then_sleep segments)
                     /\ Forall2 (capture_record config) before segments
            end.
Proof.
  intros config urls output_dir name_template s ran.
  split; [apply batch_capture_mirrors|].
  unfold ran.
  destruct (batch_capture (RT := recording RT) config urls output_dir
              name_template s) as [s' r] eqn:Run.
  exact (batch_capture_calls config urls output_dir name_template s s' r Run).
Qed.

Lemma segments_without_lifecycle (config : ScreenshotConfig)
      (urls : list string) (segments : list trace) :
  Forall2 (capture_record config) urls segments ->
  forallb (fun c => negb (is_lifecycle (fst c))) (with_sleeps segments) = true
  /\ forallb (fun c => negb (is_lifecycle (fst c))) (each_then_sleep segments)
     = true.
Proof.
  induction 1 as [|url seg urls segs Hs F [IH1 IH2]]; [split; reflexivity|].
  pose proof (capture_record_without_lifecycle config url seg Hs) as N.
  split.
  - destruct segs as [|seg' segs]; [exact N|].
    rewrite with_sleeps_cons by discriminate.
    rewrite forallb_app, N. cbn [forallb fst is_lifecycle negb andb].
    exact IH1.
  - unfold each_then_sleep in *. cbn [flat_map].
    rewrite !forallb_app, N. cbn [forallb fst is_lifecycle negb andb].
    exact IH2.
Qed.

Lemma calls_launched (wt : RW) :
  snd (launched (RT := recording RT) wt)
  = (snd wt ++ [(CallPlaywrightStart, Returned);
                (CallLaunch launch_args, Returned)])%list.
Proof.
  unfold launched. cbn. rewrite <- app_assoc. reflexivity.
Qed.

Lemma calls_closed (wt : RW) :
  snd (closed (RT := recording RT) wt)
  = (snd wt ++ [(CallBrowserClose, Returned);
                (CallPlaywrightStop, Returned)])%list.
Proof.
  unfold closed. cbn. rewrite <- app_assoc. reflexivity.
Qed.

(** The calls of the part of [main] under [async with]. *)
Lemma capture_all_calls (args : Namespace) (config : ScreenshotConfig)
      (urls : list string) (s s' : state RW) (r : result Z) :
  urls <> [] ->
  capture_all (RT := recording RT) args config urls s = (s', r) ->
  exists middle,
    calls_of s'
    = (calls_of s
       ++ [(CallPlaywrightStart, Returned); (CallLaunch launch_args, Returned)]
       ++ middle
       ++ [(CallBrowserClose, Returned); (CallPlaywrightStop, Returned)])%list
    /\ forallb (fun c => negb (is_lifecycle (fst c))) middle = true
    /\ (r = inr 0%Z ->
        exists segments,
          middle = ((CallMakedirs (Args.output args), Returned)
                    :: with_sleeps segments)
          /\ Forall2 (capture_record config) urls segments).
Proof.
  intros N. destruct urls as [|u [|u2 rest]]; [contradiction| |].
  - rewrite capture_all_single.
    change (@urlparse_raises _ _ (recording RT) u)
      with (@urlparse_raises W P RT u).
    destruct (@urlparse_raises W P RT u) as [e|].
    { intro H. injection H as <- <-. exists [].
      split; [|split; [reflexivity | discriminate]].
      unfold calls_of. cbn. rewrite <- !app_assoc. reflexivity. }
    change (@makedirs _ _ (recording RT) (Args.output args))
      with (recorded (CallMakedirs (Args.output args))
                     (@makedirs W P RT (Args.output args))).
    unfold recorded.
    destruct (@makedirs W P RT (Args.output args)
                (fst (launched (RT := recording RT) (world s))))
      as [w2 [e|[]]]; cbn [ending_of].
    { intro H. injection H as <- <-.
      exists [(CallMakedirs (Args.output args), Raised e)].
      split; [|split; [reflexivity | discriminate]].
      unfold calls_of. cbn. rewrite <- !app_assoc. reflexivity. }
    match goal with
    | |- context [capture_screenshot ?c ?x ?p ?s1] =>
        destruct (capture_screenshot_segment c x p s1) as (seg & Ec & Hs & _);
        destruct (capture_screenshot c x p s1) as [s3 b]
    end.
    cbn [fst snd] in Ec. unfold calls_of in Ec. cbn [world snd] in Ec.
    assert (G : forall out,
               calls_of {| world := closed (RT := recording RT) (world s3);
                           stdout := out |}
               = (calls_of s
                  ++ [(CallPlaywrightStart, Returned);
                      (CallLaunch launch_args, Returned)]
                  ++ ((CallMakedirs (Args.output args), Returned) :: seg)
                  ++ [(CallBrowserClose, Returned);
                      (CallPlaywrightStop, Returned)])%list).
    { intro out. unfold calls_of. cbn [world]. rewrite calls_closed, Ec.
      rewrite calls_launched. rewrite <- !app_assoc. reflexivity. }
    assert (L : forallb (fun c => negb (is_lifecycle (fst c)))
                  ((CallMakedirs (Args.output args), Returned) :: seg) = true).
    { cbn [forallb fst is_lifecycle negb andb].
      exact (capture_record_without_lifecycle config u seg Hs). }
    destruct b; intro H; injection H as <- <-;
      exists ((CallMakedirs (Args.output args), Returned) :: seg);
      (split; [apply G|]); (split; [exact L|]); intros _;
      exists [seg]; (split; [reflexivity|]); repeat constructor; exact Hs.
  - rewrite capture_all_batch by (simpl; lia).
    match goal with
    | |- context [batch_capture ?c ?us ?o ?t ?s1] =>
        destruct (batch_capture c us o t s1) as [s2 r2] eqn:Run;
        destruct (batch_capture_calls c us o t s1 s2 r2 Run) as (made & E & H)
    end.
    unfold calls_of in E at 2. cbn [world] in E. rewrite calls_launched in E.
    fold (calls_of s) in E.
    assert (G : forall out,
               calls_of {| world := closed (RT := recording RT) (world s2);
                           stdout := out |}
               = (calls_of s
                  ++ [(CallPlaywrightStart, Returned);
                      (CallLaunch launch_args, Returned)]
                  ++ made
                  ++ [(CallBrowserClose, Returned);
                      (CallPlaywrightStop, Returned)])%list).
    { intro out. unfold calls_of at 1. cbn [world]. rewrite calls_closed.
      fold (calls_of s2). rewrite E. rewrite <- !app_assoc. reflexivity. }
    destruct r2 as [e|results]; intro R; injection R as <- <-;
      exists made; (split; [apply G|]).
    + split; [|discriminate].
      destruct H as [-> | (before & bad & after & segs & _ & _ & -> & F)];
        [reflexivity|].
      cbn [forallb fst is_lifecycle negb andb].
      exact (proj2 (segments_without_lifecycle config _ _ F)).
    + destruct H as (segs & -> & F). split.
      * cbn [forallb fst is_lifecycle negb andb].
        exact (proj1 (segments_without_lifecycle config _ _ F)).
      * intros _. exists segs. split; [reflexivity | exact F].
Qed.

(** X14: a run that has URLs to capture starts Playwright and launches the
    browser once, before any other call, and closes the browser and stops
    Playwright once, after all other calls, whether [main] returns or lets an
    exception of [urlparse] or [os.makedirs] through; between the launch and
    the close there is no other such call.  When the exit code is 0, what
    lies between is the call of [os.makedirs] and the records of the captures
    of all the URLs, with a sleep between two of them.  A run without URLs
    makes no call at all.  The exit code, the output and the world are those
    of the run that is recorded. *)
Theorem run_brackets_the_captures :
  forall (args : Namespace) (s : state RW),
    let ran := run (RT := recording RT) args s in
    (erase (fst ran), snd ran) = run (RT := RT) args (erase s)
    /\ match loaded_urls (RT := RT) args (fst (world s)) with
       | inr (u :: urls) =>
           exists middle,
             calls_of (fst ran)
             = (calls_of s
                ++ [(CallPlaywrightStart, Returned);
                    (CallLaunch launch_args, Returned)]
                ++ middle
                ++ [(CallBrowserClose, Returned);
                    (CallPlaywrightStop, Returned)])%list
             /\ forallb (fun c => negb (is_lifecycle (fst c))) middle = true
             /\ (snd ran = 0%Z ->
                 exists segments,
                   middle = ((CallMakedirs (Args.output args), Returned)
                             :: with_sleeps segments)
                   /\ Forall2 (capture_record (make_config args)) (u :: urls)
                        segments)
       | _ => calls_of (fst ran) = calls_of s
       end.
Proof.
  intros args s ran. split; [apply run_mirrors|].
  change (loaded_urls (RT := RT) args (fst (world s)))
    with (loaded_urls (RT := recording RT) args (world s)).
  unfold ran. rewrite run_of_main.
  destruct (loaded_urls (RT := recording RT) args (world s)) as [e|urls] eqn:H.
  - rewrite (main_load_fails (RT := recording RT) args s e H). reflexivity.
  - destruct (main_after_load (RT := recording RT) args s urls H)
      as (pre & _ & ->).
    destruct urls as [|u urls]; [reflexivity|].
    match goal with
    | |- context [capture_all ?a ?c ?us ?s1] =>
        destruct (capture_all a c us s1) as [s' r] eqn:Run;
        destruct (capture_all_calls a c us s1 s' r ltac:(discriminate) Run)
          as (middle & E & L & Z0)
    end.
    exists middle.
    destruct r as [x|code]; cbn [fst snd].
    + split; [exact E|]. split; [exact L|]. discriminate.
    + split; [exact E|]. split; [exact L|]. intros ->. apply Z0. reflexivity.
Qed.

(** C6: [capture_screenshot] returns a boolean whatever the calls it makes
    do: when one of them (the opening of the page, the navigation, a wait, a
    script, the screenshot) raises, that call is the last one made, the value
    is [False] and the last line printed is the error of that call, and
    nothing is raised.  So, in a batch in which [os.makedirs] and [urlparse]
    return, every URL is announced and captured, in order, whatever the
    captures before it returned, and each gets an entry in the dictionary. *)
Theorem capture_failures_stay_local :
  forall config : ScreenshotConfig,
    (forall (url output_path : string) (s : state RW),
        let ran :=
          capture_screenshot (RT := recording RT) config url output_path s in
        (erase (fst ran), snd ran)
        = capture_screenshot (RT := RT) config url output_path (erase s)
        /\ exists made later,
             calls_of (fst ran) = (calls_of s ++ made)%list
             /\ capture_calls config url output_path
                = (map fst made ++ later)%list
             /\ forall c x,
                  In (c, Raised x) made ->
                  snd ran = false
                  /\ (exists front, made = (front ++ [(c, Raised x)])%list)
                  /\ exists l,
                       stdout (fst ran)
                       = (stdout s ++ l
                          ++ [MsgErrorCapturing url (exn_text x)])%list)
    /\ (forall (urls : list string) (output_dir : string)
               (name_template : template) (s : state W),
           snd (makedirs output_dir (world s)) = inr tt ->
           all_parse urls ->
           let ran := batch_capture config urls output_dir name_template s in
           exists l outcomes results,
             snd ran = inr results
             /\ stdout (fst ran) = (stdout s ++ l)%list
             /\ map fst outcomes = urls
             /\ captures config urls (fst (makedirs output_dir (world s)))
                  outcomes (world (fst ran))
             /\ processing_of l = numbered (length urls) 1 urls
             /\ verdicts_of l = map snd outcomes
             /\ errors_of l = failed_of outcomes
             /\ forall u, In u urls -> dict_get u results <> None).
Proof.
  intro config. split.
  - intros url output_path s ran. subst ran.
    split; [apply capture_screenshot_mirrors|].
    destruct (capture_screenshot_record RT config url output_path s)
      as [(x & front & c & rest & E & C & R & O) | (C & _)].
    + exists (returned front ++ [(c, Raised x)])%list, rest.
      split; [exact C|]. split.
      { rewrite E, map_app. unfold returned. rewrite map_map. cbn [map fst].
        rewrite map_id, <- app_assoc. reflexivity. }
      intros c' x' I. apply in_app_or in I. destruct I as [I|[I|[]]].
      * exfalso. exact (returned_no_raise front c' x' I).
      * injection I as <- <-. split; [exact R|]. split; [|exact O].
        exists (returned front). reflexivity.
    + exists (returned (capture_calls config url output_path)), [].
      split; [exact C|]. split.
      { unfold returned. rewrite map_map. cbn [fst]. rewrite map_id, app_nil_r.
        reflexivity. }
      intros c' x' I. exfalso. exact (returned_no_raise _ c' x' I).
  - intros urls output_dir name_template s Hm Hp ran.
    destruct (batch_capture_returns config urls output_dir name_template s Hm Hp)
      as (l & os & E & Hu & Hc & Hr & (L1 & L2 & _ & _ & L5)).
    fold ran in E, Hc, Hr.
    exists l, os, (fold_left set_outcome os []).
    split; [exact Hr|]. split; [exact E|]. split; [exact Hu|].
    split; [exact Hc|].
    split; [rewrite L5, Hu; reflexivity|].
    split; [exact L1|]. split; [exact L2|].
    intros u Hin Hnone.
    assert (K : In u (keys (fold_left set_outcome os []))).
    { rewrite DictFacts.in_keys_fold, Hu. right. exact Hin. }
    exact (DictFacts.get_none u _ Hnone K).
Qed.

End CallClaims.

Lemma capture_failures_stay_local_witness :
  snd (makedirs "shots" (world (Demo.start Demo.disk [false; true]))) = inr tt
  /\ all_parse (RT := Demo.runtime)
       ["https://example.com/a"; "http://www.example.org"]
  /\ In "http://www.example.org"
        ["https://example.com/a"; "http://www.example.org"]
  /\ In (CallGoto "https://example.com/a" "networkidle" 30000,
         Raised (Exception "TimeoutError" "Timeout 30000ms exceeded."))
        (calls_of
           (fst (capture_screenshot (RT := recording Demo.runtime)
                   default_config "https://example.com/a" "shots/a.png"
                   {| world := (world (Demo.start Demo.disk [false]), []);
                      stdout := [] |})))
  /\ snd (capture_screenshot (RT := recording Demo.runtime)
            default_config "https://example.com/a" "shots/a.png"
            {| world := (world (Demo.start Demo.disk [false]), []);
               stdout := [] |})
     = false
  /\ exists results,
       snd (batch_capture default_config
              ["https://example.com/a"; "http://www.example.org"]
              "shots" default_name_template
              (Demo.start Demo.disk [false; true]))
       = inr results
       /\ dict_get "http://www.example.org" results <> None.
Proof.
  assert (A : all_parse (RT := Demo.runtime)
                ["https://example.com/a"; "http://www.example.org"]).
  { constructor; [reflexivity|]. constructor; [reflexivity|]. constructor. }
  assert (I : In "http://www.example.org"
                 ["https://example.com/a"; "http://www.example.org"]).
  { right. left. reflexivity. }
  split; [reflexivity|]. split; [exact A|]. split; [exact I|].
  set (s := {| world := (world (Demo.start Demo.disk [false]), []);
               stdout := [] |}).
  assert (G : In (CallGoto "https://example.com/a" "networkidle" 30000,
                  Raised (Exception "TimeoutError" "Timeout 30000ms exceeded."))
                 (calls_of
                    (fst (capture_screenshot (RT := recording Demo.runtime)
                            default_config "https://example.com/a"
                            "shots/a.png" s)))).
  { right. right. right. left. reflexivity. }
  split; [exact G|]. split.
  - destruct (proj1 (capture_failures_stay_local Demo.runtime default_config)
                "https://example.com/a" "shots/a.png" s)
      as (_ & made & later & E & _ & H).
    rewrite E in G. cbn [calls_of s world snd app] in G.
    exact (proj1 (H _ _ G)).
  - destruct (proj2 (capture_failures_stay_local Demo.runtime default_config)
                ["https://example.com/a"; "http://www.example.org"]
                "shots" default_name_template
                (Demo.start Demo.disk [false; true]) eq_refl A)
      as (l & outcomes & results & R & _ & _ & _ & _ & _ & _ & H).
    exists results. split; [exact R|].
    exact (H "http://www.example.org" I).
Defined.

(** ** When [urlparse] or [os.makedirs] raises *)

Section SetupFailures.

Context {W P : Type} {RT : Runtime W P}.

(** The first URL that [urlparse] refuses is determined by the list. *)
Lemma first_refused_unique (before before' after after' : list string)
      (url url' : string) (e e' : exn) :
  (before ++ url :: after = before' ++ url' :: after')%list ->
  all_parse before -> urlparse_raises url = Some e ->
  all_parse before' -> urlparse_raises url' = Some e' ->
  before = before' /\ url = url' /\ e = e'.
Proof.
  revert before'. induction before as [|b before IH]; intros [|b' before'] E A R A' R'.
  - injection E as <- _. rewrite R in R'. injection R' as <-. repeat split.
  - injection E as -> _. apply Forall_inv in A'. congruence.
  - injection E as -> _. apply Forall_inv in A. congruence.
  - injection E as <- E. inversion A; subst. inversion A'; subst.
    destruct (IH before' E) as (-> & -> & ->); try assumption.
    repeat split.
Qed.

(** X16: in a batch run, a URL on which [urlparse] raises ends the run:
    the URLs before it have been captured and the refused one announced;
    nothing is announced or captured after it and no summary is printed; the
    browser is shut down, the run ends with the traceback of the exception
    and the exit code is 1. *)
Theorem refused_url_aborts_the_batch :
  forall (args : Namespace) (s : state W) (before after : list string)
         (url : string) (e : exn),
    loaded_urls args (world s) = inr (before ++ url :: after)%list ->
    2 <= length (before ++ url :: after) ->
    snd (makedirs (Args.output args) (launched (world s))) = inr tt ->
    all_parse before ->
    urlparse_raises url = Some e ->
    exists l outcomes w_end,
      run args s
      = ({| world := closed w_end;
            stdout := stdout s ++ l ++ [MsgTraceback e] |}, 1%Z)
      /\ map fst outcomes = before
      /\ captures (make_config args) before
           (fst (makedirs (Args.output args) (launched (world s))))
           outcomes w_end
      /\ verdicts_of l = map snd outcomes
      /\ processing_of l
         = numbered (length (before ++ url :: after)) 1 (before ++ [url])
      /\ summaries_of l = []
      /\ listed_of l = [].
Proof.
  intros args s before after url e Hload L Hm Hp Hr.
  rewrite run_of_main.
  destruct (main_after_load args s _ Hload) as (pre & Sp & ->).
  set (urls := (before ++ url :: after)%list) in *.
  assert (N : urls <> []) by (unfold urls; destruct before; discriminate).
  destruct urls as [|u1 rest] eqn:Eu; [contradiction|].
  rewrite <- Eu in *. clear N.
  rewrite (capture_all_batch args (make_config args) urls _ L).
  cbn [world stdout].
  match goal with
  | |- context [batch_capture ?c ?us ?o ?t ?s1] =>
      destruct (batch_capture c us o t s1) as [s2 r] eqn:Run;
      destruct (batch_capture_run c us o t s1 s2 r Run) as (l & E & H)
  end.
  cbn [world stdout] in E, H.
  destruct r as [x|results].
  - destruct H as [(Hx & _) | (_ & H)]; [congruence|].
    destruct H as (before' & bad & after' & os & Eb & A' & R' & Hu & Hc & Hl).
    destruct (first_refused_unique _ _ _ _ _ _ _ _ Eb Hp Hr A' R')
      as (<- & <- & <-).
    exists (pre ++ l)%list, os, (world s2).
    split; [rewrite E; cbn [world stdout]; rewrite <- !app_assoc; reflexivity|].
    split; [exact Hu|]. split; [exact Hc|].
    destruct Sp as (A1 & A2 & A3 & A4 & A5).
    destruct Hl as (L1 & L2 & L3 & L4 & L5).
    autorewrite with log. rewrite A1, A3, A4, A5, L1, L3, L4, L5, Hu.
    repeat split.
  - exfalso. destruct H as (_ & A & _).
    exact (all_parse_refused before after url e A Hr).
Qed.

(** X17: what [os.makedirs] raises, and in the single-URL branch what
    [urlparse] raises, ends the run before any capture: nothing more is
    printed, the browser is shut down, the run ends with the traceback and
    the exit code is 1.  In the single-URL branch [urlparse] comes first, so
    no directory is made for a URL it refuses. *)
Theorem setup_failure_ends_the_run :
  forall (args : Namespace) (s : state W) (u : string) (urls : list string)
         (e : exn),
    loaded_urls args (world s) = inr (u :: urls) ->
    (urls = [] -> urlparse_raises u = Some e ->
     exists pre,
       silent pre
       /\ run args s
          = ({| world := closed (launched (world s));
                stdout := stdout s ++ pre ++ [MsgTraceback e] |}, 1%Z))
    /\ ((urls = [] -> urlparse_raises u = None) ->
        snd (makedirs (Args.output args) (launched (world s))) = inl e ->
        exists pre,
          silent pre
          /\ run args s
             = ({| world :=
                     closed (fst (makedirs (Args.output args)
                                    (launched (world s))));
                   stdout := stdout s ++ pre ++ [MsgTraceback e] |}, 1%Z)).
Proof.
  intros args s u urls e Hload.
  destruct (main_after_load args s _ Hload) as (pre & Sp & Hmain).
  split.
  - intros -> Hr. exists pre. split; [exact Sp|].
    rewrite run_of_main, Hmain, capture_all_single, Hr. cbn [world stdout].
    cbn [world stdout]. rewrite <- ?app_assoc. reflexivity.
  - intros Hp Hm. exists pre. split; [exact Sp|].
    rewrite run_of_main, Hmain. destruct urls as [|u2 rest].
    + rewrite capture_all_single, (Hp eq_refl). cbn [world stdout].
      destruct (makedirs (Args.output args) (launched (world s)))
        as [w2 [x|[]]]; cbn [fst snd] in Hm |- *; [|discriminate].
      injection Hm as ->. cbn [world stdout]. rewrite <- ?app_assoc. reflexivity.
    + rewrite capture_all_batch by (simpl; lia).
      rewrite batch_capture_cases. cbn [world stdout]. rewrite Hm.
      cbn [world stdout]. rewrite <- ?app_assoc. reflexivity.
Qed.

End SetupFailures.

Lemma refused_url_aborts_the_batch_witness :
  loaded_urls (Demo.file_args "refused.txt")
    (world (Demo.start Demo.disk [false]))
  = inr (["https://example.com/a"] ++ "http://[::1" :: ["https://example.com/b"])%list
  /\ urlparse_raises (Runtime := Demo.runtime) "http://[::1"
     = Some (Exception "ValueError" "Invalid IPv6 URL")
  /\ stdout (fst (run (Demo.file_args "refused.txt")
                      (Demo.start Demo.disk [false])))
     = [MsgLoaded 3 (Some "refused.txt");
        MsgProcessing 1 3 "https://example.com/a";
        MsgLoadingUrl "https://example.com/a";
        MsgErrorCapturing "https://example.com/a" "Timeout 30000ms exceeded.";
        MsgProcessing 2 3 "http://[::1";
        MsgTraceback (Exception "ValueError" "Invalid IPv6 URL")]
  /\ exists l outcomes w_end,
       run (Demo.file_args "refused.txt") (Demo.start Demo.disk [false])
       = ({| world := closed w_end;
             stdout := stdout (Demo.start Demo.disk [false]) ++ l
                       ++ [MsgTraceback (Exception "ValueError" "Invalid IPv6 URL")] |},
          1%Z)
       /\ map fst outcomes = ["https://example.com/a"]
       /\ captures (make_config (Demo.file_args "refused.txt"))
            ["https://example.com/a"]
            (fst (makedirs (Args.output (Demo.file_args "refused.txt"))
                    (launched (world (Demo.start Demo.disk [false])))))
            outcomes w_end
       /\ verdicts_of l = map snd outcomes
       /\ processing_of l
          = numbered 3 1 (["https://example.com/a"] ++ ["http://[::1"])
       /\ summaries_of l = []
       /\ listed_of l = [].
Proof.
  assert (A : all_parse (RT := Demo.runtime) ["https://example.com/a"]).
  { constructor; [reflexivity|]. constructor. }
  split; [reflexivity|]. split; [reflexivity|]. split; [reflexivity|].
  exact (refused_url_aborts_the_batch (RT := Demo.runtime)
           (Demo.file_args "refused.txt") (Demo.start Demo.disk [false])
           ["https://example.com/a"] ["https://example.com/b"] "http://[::1"
           (Exception "ValueError" "Invalid IPv6 URL")
           eq_refl (le_S 2 2 (le_n 2)) eq_refl A eq_refl).
Defined.

Lemma setup_failure_ends_the_run_witness :
  parse_args ["-u"; "https://example.com/a"; "-o"; ""]
  = Parsed (run_action (Demo.url_args "https://example.com/a") (StoreOutput ""))
  /\ loaded_urls (run_action (Demo.url_args "https://example.com/a")
                    (StoreOutput ""))
       (world (Demo.start Demo.disk []))
     = inr ["https://example.com/a"]
  /\ urlparse_raises (Runtime := Demo.runtime) "https://example.com/a" = None
  /\ snd (makedirs "" (launched (world (Demo.start Demo.disk []))))
     = inl (Exception "FileNotFoundError"
              "[Errno 2] No such file or directory: ''")
  /\ exists pre,
       silent pre
       /\ run (run_action (Demo.url_args "https://example.com/a")
                 (StoreOutput ""))
              (Demo.start Demo.disk [])
          = ({| world :=
                  closed (fst (makedirs ""
                                 (launched (world (Demo.start Demo.disk [])))));
                stdout :=
                  stdout (Demo.start Demo.disk []) ++ pre
                  ++ [MsgTraceback
                        (Exception "FileNotFoundError"
                           "[Errno 2] No such file or directory: ''")] |},
             1%Z).
Proof.
  split; [reflexivity|]. split; [reflexivity|]. split; [reflexivity|].
  split; [reflexivity|].
  exact (proj2 (setup_failure_ends_the_run (RT := Demo.runtime)
                  (run_action (Demo.url_args "https://example.com/a")
                     (StoreOutput ""))
                  (Demo.start Demo.disk []) "https://example.com/a" []
                  (Exception "FileNotFoundError"
                     "[Errno 2] No such file or directory: ''")
                  eq_refl)
               (fun _ => eq_refl) eq_refl).
Defined.

Lemma run_brackets_the_captures_witness :
  snd (run (RT := recording Demo.runtime) (Demo.file_args "urls.txt")
           {| world := (world (Demo.start Demo.disk [false; true]), []);
              stdout := [] |})
  = 0%Z
  /\ exists middle segments,
       calls_of
         (fst (run (RT := recording Demo.runtime) (Demo.file_args "urls.txt")
                   {| world := (world (Demo.start Demo.disk [false; true]), []);
                      stdout := [] |}))
       = ([(CallPlaywrightStart, Returned); (CallLaunch launch_args, Returned)]
          ++ middle
          ++ [(CallBrowserClose, Returned); (CallPlaywrightStop, Returned)])%list
       /\ middle = ((CallMakedirs "./screenshots", Returned)
                    :: with_sleeps segments)
       /\ Forall2 (capture_record default_config)
            ["https://example.com/a"; "http://www.example.org"] segments.
Proof.
  split; [reflexivity|].
  destruct (proj2 (run_brackets_the_captures Demo.runtime
                     (Demo.file_args "urls.txt")
                     {| world := (world (Demo.start Demo.disk [false; true]), []);
                        stdout := [] |}))
    as (middle & E & _ & Z0).
  destruct (Z0 eq_refl) as (segments & M & F).
  exists middle, segments. split; [exact E|]. split; [exact M | exact F].
Defined.

(** ** The defaults of the command line *)

Lemma make_config_after_io_action (ns : Namespace) (a : action) :
  is_io_action a = true -> make_config (run_action ns a) = make_config ns.
Proof. destruct ns, a; intro H; try discriminate H; reflexivity. Qed.

(** X15: the defaults of the command line are those of [ScreenshotConfig]:
    when only the input and the output directory are given, the
    configuration [main] builds is the one [ScreenshotConfig()] returns. *)
Theorem cli_defaults_are_the_config_defaults :
  forall acts : list action,
    forallb is_io_action acts = true ->
    make_config (fold_left run_action acts default_namespace) = default_config.
Proof.
  assert (G : forall acts ns,
             forallb is_io_action acts = true ->
             make_config (fold_left run_action acts ns) = make_config ns).
  { induction acts as [|a acts IH]; intros ns H; [reflexivity|].
    cbn [forallb] in H. apply andb_true_iff in H. destruct H as [Ha H].
    cbn [fold_left]. rewrite (IH _ H). apply make_config_after_io_action.
    exact Ha. }
  intros acts H. rewrite (G acts default_namespace H). reflexivity.
Qed.

Lemma cli_defaults_are_the_config_defaults_witness :
  parse_args ["-f"; "urls.txt"; "-o"; "shots"]
  = Parsed (fold_left run_action [StoreFile "urls.txt"; StoreOutput "shots"]
              default_namespace)
  /\ forallb is_io_action [StoreFile "urls.txt"; StoreOutput "shots"] = true
  /\ make_config (fold_left run_action
                    [StoreFile "urls.txt"; StoreOutput "shots"] default_namespace)
     = default_config.
Proof.
  split; [reflexivity|]. split; [reflexivity|].
  apply cli_defaults_are_the_config_defaults. reflexivity.
Defined.

(** ** Recorded runs on the small runtime *)

Example failed_navigation_example :
  let ran :=
    run (RT := recording Demo.runtime) (Demo.url_args "https://example.com/a")
        {| world := (world (Demo.start Demo.disk [false]), []); stdout := [] |} in
  calls_of (fst ran)
  = (returned
       [CallPlaywrightStart; CallLaunch launch_args; CallMakedirs "./screenshots";
        CallNewPage (page_options default_config);
        CallRoute "**/*" _block_ads_handler;
        CallAddInitScript no_animation_script]
     ++ [(CallGoto "https://example.com/a" "networkidle" 30000,
          Raised (Exception "TimeoutError" "Timeout 30000ms exceeded."))]
     ++ returned [CallBrowserClose; CallPlaywrightStop])%list
  /\ snd ran = 1%Z.
Proof. split; reflexivity. Qed.

Example batch_calls_example :
  let ran :=
    run (RT := recording Demo.runtime) (Demo.file_args "urls.txt")
        {| world := (world (Demo.start Demo.disk [false; true]), []);
           stdout := [] |} in
  calls_of (fst ran)
  = (returned
       [CallPlaywrightStart; CallLaunch launch_args; CallMakedirs "./screenshots";
        CallNewPage (page_options default_config);
        CallRoute "**/*" _block_ads_handler;
        CallAddInitScript no_animation_script]
     ++ [(CallGoto "https://example.com/a" "networkidle" 30000,
          Raised (Exception "TimeoutError" "Timeout 30000ms exceeded."))]
     ++ returned
          (CallSleep 1
           :: capture_calls default_config "http://www.example.org"
                "./screenshots/example_org_20240102_030405.png"
           ++ [CallBrowserClose; CallPlaywrightStop]))%list
  /\ snd ran = 0%Z.
Proof. split; reflexivity. Qed.

Example refused_url_calls_example :
  let ran :=
    run (RT := recording Demo.runtime) (Demo.file_args "refused.txt")
        {| world := (world (Demo.start Demo.disk []), []); stdout := [] |} in
  calls_of (fst ran)
  = returned
      (CallPlaywrightStart :: CallLaunch launch_args
       :: CallMakedirs "./screenshots"
       :: capture_calls default_config "https://example.com/a"
            "./screenshots/example_com_20240102_030405.png"
       ++ [CallSleep 1; CallBrowserClose; CallPlaywrightStop])
  /\ snd ran = 1%Z.
Proof. split; reflexivity. Qed.

Example makedirs_failure_calls_example :
  let ran :=
    main (RT := recording Demo.runtime) ["-f"; "urls.txt"; "-o"; ""]
         {| world := (world (Demo.start Demo.disk []), []); stdout := [] |} in
  calls_of (fst ran)
  = [(CallPlaywrightStart, Returned); (CallLaunch launch_args, Returned);
     (CallMakedirs "",
      Raised (Exception "FileNotFoundError"
                "[Errno 2] No such file or directory: ''"));
     (CallBrowserClose, Returned); (CallPlaywrightStop, Returned)]
  /\ snd ran = 1%Z.
Proof. split; reflexivity. Qed.
